(** * Comparative sentiment ranking: a shallow embedding

    The development follows the two Python modules of the repository:
    [comparative_sentiment.py] (aspect rankings, overall rankings, insights,
    summary tables) and the helpers and loops of [cloud_sentiment_analyzer.py]
    ([get_bert_sentiment], [contains_whole_word], [extract_relevant_sentences],
    the extraction loops and the summary export).

    Modelling conventions.
    - A Python [dict] keeps insertion order, and the code depends on it
      (rankings follow the provider enumeration, insights the aspect
      enumeration): a dict is an association list, read with [Dict.get]
      (first binding of the key, [KeyError] otherwise) and written with
      [Dict.set] (overwrite in place, append when the key is new).
    - Exceptions are results of type [exc]: every function that can raise in
      Python returns [exc _] here.
    - The ranking arithmetic is done on exact rationals [Q], and equalities
      between such numbers are stated with [==].  Where an outcome depends on
      binary rounding the numbers are binary64 floats: the percentages are
      printed from the float nearest to the ratio ([format_percent]), and
      the module [Binary64] models [generate_comparative_insights] on float
      scores, with the float subtraction and comparison of its threshold.
    - A Python [str] is the string of its UTF-8 bytes.  The regular
      expression works on the decoded code points; what it takes from the
      Unicode database beyond ASCII is a parameter ([UnicodeData]), as is
      [str.title()] on text beyond ASCII.  Lengths count characters. *)

From Stdlib Require Import Floats.
From Stdlib Require Uint63.
From Stdlib Require Import List String Ascii Bool Arith ZArith QArith Qminmax Lia.
From Stdlib Require Import DecimalString Lqa.
From Stdlib Require Import Sorting.Sorted Sorting.Permutation.
Import ListNotations.

Local Open Scope string_scope.
Local Open Scope Q_scope.

(** ** Exceptions *)

Inductive exc (A : Type) : Type :=
| Ok (a : A)
| KeyError (k : string)
| StatisticsError.

Arguments Ok {A} a.
Arguments KeyError {A} k.
Arguments StatisticsError {A}.

Definition bind {A B : Type} (c : exc A) (f : A -> exc B) : exc B :=
  match c with
  | Ok a => f a
  | KeyError k => KeyError k
  | StatisticsError => StatisticsError
  end.

Notation "x <- c ;; k" := (bind c (fun x => k))
  (at level 61, c at next level, right associativity).

(** ** Insertion-ordered dictionaries with string keys *)

Definition dict (V : Type) : Type := list (string * V).

Module Dict.

Definition keys {V : Type} (d : dict V) : list string := map fst d.
Definition values {V : Type} (d : dict V) : list V := map snd d.
Definition items {V : Type} (d : dict V) : list (string * V) := d.

Fixpoint find {V : Type} (k : string) (d : dict V) : option V :=
  match d with
  | [] => None
  | (k', v) :: d' => if String.eqb k k' then Some v else find k d'
  end.

(** [d[k]] *)
Definition get {V : Type} (k : string) (d : dict V) : exc V :=
  match find k d with
  | Some v => Ok v
  | None => KeyError k
  end.

(** [d[k] = v] *)
Fixpoint set {V : Type} (k : string) (v : V) (d : dict V) : dict V :=
  match d with
  | [] => [(k, v)]
  | (k', v') :: d' =>
      if String.eqb k k' then (k, v) :: d' else (k', v') :: set k v d'
  end.

Definition mem {V : Type} (k : string) (d : dict V) : bool :=
  match find k d with Some _ => true | None => false end.

(** What a Python dict always satisfies: no key occurs twice. *)
Definition wf {V : Type} (d : dict V) : Prop := NoDup (keys d).

End Dict.

(** ** Data model *)

(** One classified sentence, as appended to [results[provider][area]]. *)
Record OpinionRecord : Type := mkOpinion {
  sentence : string;
  sentiment : string;
  confidence : Q;
  source : string;
  url : string;
  provider : string;
  aspect : string
}.

(** [results]: provider -> aspect -> list of records. *)
Definition OpinionStore : Type := dict (dict (list OpinionRecord)).

(** The inner dict built at [provider_scores[provider] = {...}]. *)
Record ProviderAspectScore : Type := mkScore {
  sentiment_score : Q;
  positive_ratio : Q;
  negative_ratio : Q;
  total_opinions : nat;
  avg_confidence : Q
}.

(** The value stored at [aspect_rankings[aspect]]. *)
Record AspectRanking : Type := mkRanking {
  provider_scores : dict ProviderAspectScore;
  ranked_providers : list (string * ProviderAspectScore);
  best_provider : option string;
  worst_provider : option string
}.

(** ** Library functions used by the module *)

Definition of_nat (n : nat) : Q := inject_Z (Z.of_nat n).

Definition Qltb (x y : Q) : bool := negb (Qle_bool y x).

Definition Qsum (l : list Q) : Q := fold_right Qplus 0 l.

(** [statistics.mean]: raises on empty data. *)
Definition mean (data : list Q) : exc Q :=
  match data with
  | [] => StatisticsError
  | _ => Ok (Qsum data / of_nat (List.length data))
  end.

(** [sum(1 for op in opinions if op['sentiment'] == label)] *)
Fixpoint count_sentiment (label : string) (opinions : list OpinionRecord) : nat :=
  match opinions with
  | [] => 0%nat
  | op :: rest =>
      if String.eqb (sentiment op) label
      then S (count_sentiment label rest)
      else count_sentiment label rest
  end.

(** [sorted(xs, key=key, reverse=True)]: a stable sort, largest key first.
    Stability survives [reverse=True] in Python: elements with equal keys
    keep their input order. *)
Section Sorted.
Context {A : Type} (key : A -> Q).

Fixpoint insert_desc (x : A) (l : list A) : list A :=
  match l with
  | [] => [x]
  | y :: l' =>
      if Qltb (key x) (key y) then y :: insert_desc x l' else x :: y :: l'
  end.

Definition sorted_desc (l : list A) : list A :=
  fold_right insert_desc [] l.

End Sorted.

(** ** [calculate_provider_rankings] *)

Definition zero_score : ProviderAspectScore := mkScore 0 0 0 0 0.

(** Body of the inner loop, lines 39-66: the score of one bucket. *)
Definition bucket_score (opinions : list OpinionRecord) : exc ProviderAspectScore :=
  match opinions with
  | [] => Ok zero_score
  | _ :: _ =>
      let total := List.length opinions in
      let positive := count_sentiment "Positive" opinions in
      let negative := count_sentiment "Negative" opinions in
      let pos_ratio := if (0 <? total)%nat then of_nat positive / of_nat total else 0 in
      let neg_ratio := if (0 <? total)%nat then of_nat negative / of_nat total else 0 in
      let score := pos_ratio - neg_ratio in
      avg <- match opinions with
             | [] => Ok 0
             | _ => mean (map confidence opinions)
             end ;;
      Ok (mkScore score pos_ratio neg_ratio total avg)
  end.

(** [for provider in results: ...] for one aspect, lines 37-66. *)
Fixpoint score_providers (results : OpinionStore) (asp : string)
    (providers : list string) (scores : dict ProviderAspectScore)
    : exc (dict ProviderAspectScore) :=
  match providers with
  | [] => Ok scores
  | p :: rest =>
      by_aspect <- Dict.get p results ;;
      opinions <- Dict.get asp by_aspect ;;
      sc <- bucket_score opinions ;;
      score_providers results asp rest (Dict.set p sc scores)
  end.

Definition head_key {V : Type} (l : list (string * V)) : option string :=
  match l with
  | [] => None
  | (k, _) :: _ => Some k
  end.

Fixpoint last_key {V : Type} (l : list (string * V)) : option string :=
  match l with
  | [] => None
  | [(k, _)] => Some k
  | _ :: l' => last_key l'
  end.

(** Lines 68-80: rank the providers of one aspect. *)
Definition rank_aspect (scores : dict ProviderAspectScore) : AspectRanking :=
  let ranked := sorted_desc (fun x => sentiment_score (snd x)) (Dict.items scores) in
  mkRanking scores ranked (head_key ranked) (last_key ranked).

(** [for aspect in aspects: ...], lines 33-80. *)
Fixpoint rank_aspects (results : OpinionStore) (aspects : list string)
    (aspect_rankings : dict AspectRanking) : exc (dict AspectRanking) :=
  match aspects with
  | [] => Ok aspect_rankings
  | asp :: rest =>
      scores <- score_providers results asp (Dict.keys results) [] ;;
      rank_aspects results rest (Dict.set asp (rank_aspect scores) aspect_rankings)
  end.

Definition calculate_provider_rankings (results : OpinionStore)
    : exc (dict AspectRanking) :=
  match results with
  | [] => Ok []
  | (first_provider, _) :: _ =>
      first <- Dict.get first_provider results ;;
      rank_aspects results (Dict.keys first) []
  end.

(** ** [calculate_overall_provider_rankings] *)

(** Python's [min(a, b)]: [a] unless [b] is strictly smaller. *)
Definition py_min (a b : Q) : Q := if Qltb b a then b else a.

(** [for aspect_data in aspect_rankings.values(): ...], lines 108-111. *)
Fixpoint collect_scores (p : string) (aspect_data : list AspectRanking)
    (aspect_scores : list Q) (total : nat) : exc (list Q * nat) :=
  match aspect_data with
  | [] => Ok (aspect_scores, total)
  | data :: rest =>
      provider_data <- Dict.get p (provider_scores data) ;;
      collect_scores p rest
        (aspect_scores ++ [sentiment_score provider_data])%list
        (total + total_opinions provider_data)%nat
  end.

(** [for provider in providers: ...], lines 104-116. *)
Fixpoint overall_loop (aspect_rankings : dict AspectRanking)
    (providers : list string) (overall_scores : dict Q) : exc (dict Q) :=
  match providers with
  | [] => Ok overall_scores
  | p :: rest =>
      collected <- collect_scores p (Dict.values aspect_rankings) [] 0 ;;
      let '(aspect_scores, total) := collected in
      match aspect_scores with
      | [] => overall_loop aspect_rankings rest overall_scores
      | _ :: _ =>
          m <- mean aspect_scores ;;
          let weighted_score := m * py_min 1 (of_nat total / 100) in
          overall_loop aspect_rankings rest (Dict.set p weighted_score overall_scores)
      end
  end.

Definition calculate_overall_provider_rankings
    (aspect_rankings : dict AspectRanking) : exc (list (string * Q)) :=
  match aspect_rankings with
  | [] => Ok []
  | (_, first_aspect) :: _ =>
      let providers := Dict.keys (provider_scores first_aspect) in
      overall_scores <- overall_loop aspect_rankings providers [] ;;
      Ok (sorted_desc snd (Dict.items overall_scores))
  end.

(** ** [generate_comparative_insights] *)

(** The statements of the insight list, before they are formatted. *)
Inductive Insight : Type :=
| NoData
| Leads (asp best : string) (best_positive : Q) (worst : string) (worst_positive : Q)
| MostControversial (asp : string).

Definition is_upper (c : ascii) : bool :=
  let n := nat_of_ascii c in ((65 <=? n) && (n <=? 90))%nat.
Definition is_lower (c : ascii) : bool :=
  let n := nat_of_ascii c in ((97 <=? n) && (n <=? 122))%nat.
Definition is_digit (c : ascii) : bool :=
  let n := nat_of_ascii c in ((48 <=? n) && (n <=? 57))%nat.
Definition to_lower (c : ascii) : ascii :=
  if is_upper c then ascii_of_nat (nat_of_ascii c + 32) else c.
Definition to_upper (c : ascii) : ascii :=
  if is_lower c then ascii_of_nat (nat_of_ascii c - 32) else c.

(** [str.title()]: a cased character is upper-cased after an uncased one
    and lower-cased after a cased one. *)
Fixpoint title_from (prev_cased : bool) (s : string) : string :=
  match s with
  | EmptyString => EmptyString
  | String c s' =>
      if is_upper c || is_lower c
      then String (if prev_cased then to_lower c else to_upper c) (title_from true s')
      else String c (title_from false s')
  end.

(** All characters are ASCII characters. *)
Fixpoint is_ascii (s : string) : bool :=
  match s with
  | EmptyString => true
  | String c s' => (N_of_ascii c <? 128)%N && is_ascii s'
  end.

(** [str.title()].  On a text with characters beyond ASCII the result
    depends on the case tables of Unicode: [title_beyond_ascii] stands for
    the method on such texts. *)
Definition title (title_beyond_ascii : string -> string) (s : string) : string :=
  if is_ascii s then title_from false s else title_beyond_ascii s.

(** Nearest integer, ties to even. *)
Definition round_half_even (q : Q) : Z :=
  let n := Qnum q in
  let d := Zpos (Qden q) in
  let f := (n / d)%Z in
  let twice_rest := (2 * (n - f * d))%Z in
  if (twice_rest <? d)%Z then f
  else if (d <? twice_rest)%Z then (f + 1)%Z
  else if Z.even f then f else (f + 1)%Z.

Definition string_of_Z (z : Z) : string :=
  NilZero.string_of_uint (N.to_uint (Z.to_N z)).

(** ** Binary64 numbers

    What the model keeps as an exact ratio the interpreter keeps as the
    nearest binary64 number; text is formatted from that number. *)

(** [float(z)]: exact for an integer below [2^53] in absolute value, as
    every count of the module is. *)
Definition float_of_Z (z : Z) : float :=
  match z with
  | Z0 => PrimFloat.zero
  | Zpos _ => PrimFloat.of_uint63 (Uint63.of_Z z)
  | Zneg p => PrimFloat.opp (PrimFloat.of_uint63 (Uint63.of_Z (Zpos p)))
  end.

(** The float held for the ratio of two counts: true division of two
    [int]s is the correctly rounded quotient. *)
Definition to_binary64 (x : Q) : float :=
  PrimFloat.div (float_of_Z (Qnum x)) (float_of_Z (Zpos (Qden x))).

(** The exact value [m * 2^e] of a finite float. *)
Definition Q_of_mantissa (m : positive) (e : Z) : Q :=
  match e with
  | Z0 => Zpos m # 1
  | Zpos k => (Zpos m * Zpos (2 ^ k))%Z # 1
  | Zneg k => Zpos m # (2 ^ k)
  end.

Definition sign_text (negative : bool) : string :=
  if negative then "-" else "".

(** The format specification [.1f]: the nearest number with one decimal
    digit, ties to even, of the exact value of the float. *)
Definition format_fixed1 (v : float) : string :=
  match Prim2SF v with
  | S754_nan => "nan"
  | S754_infinity s => sign_text s ++ "inf"
  | S754_zero s => sign_text s ++ "0.0"
  | S754_finite s m e =>
      let tenths := round_half_even (Q_of_mantissa m e * 10) in
      sign_text s ++ string_of_Z (tenths / 10) ++ "." ++ string_of_Z (tenths mod 10)
  end.

(** The format specification [.1%] of a float: one hundred times the
    value, a binary64 product, with one decimal digit and a percent sign. *)
Definition percent_of_float (x : float) : string :=
  format_fixed1 (PrimFloat.mul x (float_of_Z 100)) ++ "%".

(** The format specification [.1%] of a ratio of counts. *)
Definition format_percent (x : Q) : string :=
  percent_of_float (to_binary64 x).

Definition render (title_beyond_ascii : string -> string) (i : Insight) : string :=
  match i with
  | NoData => "No data available for comparative analysis."
  | Leads asp best bp worst wp =>
      title title_beyond_ascii asp ++ ": " ++ best ++ " leads with "
      ++ format_percent bp
      ++ " positive sentiment vs " ++ worst ++ " at " ++ format_percent wp
  | MostControversial asp =>
      "Most controversial aspect: " ++ asp ++ " (highest sentiment variance)"
  end.

(** Body of the first loop, lines 138-154: the statement of one aspect, if
    any.  The threshold is taken on the exact scores here;
    [Binary64.leader_insight] below takes it on floats. *)
Definition leader_insight (asp : string) (data : AspectRanking) : list Insight :=
  let ranked := ranked_providers data in
  if (List.length ranked <? 2)%nat then []
  else
    match ranked with
    | [] => []
    | first :: _ =>
        let '(best_provider, best_data) := first in
        let '(worst_provider, worst_data) := last ranked first in
        let score_diff := sentiment_score best_data - sentiment_score worst_data in
        if Qltb (1 # 10) score_diff
        then [Leads asp best_provider (positive_ratio best_data)
                    worst_provider (positive_ratio worst_data)]
        else []
    end.

(** [for aspect, data in aspect_rankings.items(): ... insights.append(...)] *)
Definition leader_insights (aspect_rankings : dict AspectRanking)
    (insights : list Insight) : list Insight :=
  fold_left (fun acc item => (acc ++ leader_insight (fst item) (snd item))%list)
            (Dict.items aspect_rankings) insights.

(** [max(xs, key=key)] on a non-empty sequence [first :: rest]: the first
    element whose key no other element exceeds. *)
Fixpoint max_by {A : Type} (key : A -> Q) (best : A) (rest : list A) : A :=
  match rest with
  | [] => best
  | x :: rest' =>
      if Qltb (key best) (key x) then max_by key x rest' else max_by key best rest'
  end.

Section Stdev.
(** [str.title()] beyond ASCII. *)
Variable title_beyond_ascii : string -> string.

(** [math.sqrt], the one operation of [statistics.stdev] that leaves the
    rationals; the development is parametric in it. *)
Variable sqrt : Q -> Q.

(** [statistics.variance]: the sample variance; raises below two points. *)
Definition variance (data : list Q) : exc Q :=
  if (List.length data <? 2)%nat then StatisticsError
  else
    m <- mean data ;;
    Ok (Qsum (map (fun x => (x - m) * (x - m)) data)
        / of_nat (List.length data - 1)).

(** [statistics.stdev] *)
Definition stdev (data : list Q) : exc Q :=
  v <- variance data ;;
  Ok (sqrt v).

Definition ranked_scores (data : AspectRanking) : list Q :=
  map (fun item => sentiment_score (snd item)) (ranked_providers data).

(** Second loop, lines 157-161. *)
Fixpoint collect_variances (items : list (string * AspectRanking))
    (aspect_variances : dict Q) : exc (dict Q) :=
  match items with
  | [] => Ok aspect_variances
  | (asp, data) :: rest =>
      let scores := ranked_scores data in
      if (1 <? List.length scores)%nat then
        sd <- (if (1 <? List.length scores)%nat then stdev scores else Ok 0) ;;
        collect_variances rest (Dict.set asp sd aspect_variances)
      else collect_variances rest aspect_variances
  end.

(** Lines 163-165. *)
Definition controversial_insight (aspect_variances : dict Q) : list Insight :=
  match Dict.items aspect_variances with
  | [] => []
  | first :: rest => [MostControversial (fst (max_by snd first rest))]
  end.

Definition insight_statements (aspect_rankings : dict AspectRanking)
    : exc (list Insight) :=
  match aspect_rankings with
  | [] => Ok [NoData]
  | _ :: _ =>
      let insights := leader_insights aspect_rankings [] in
      aspect_variances <- collect_variances (Dict.items aspect_rankings) [] ;;
      Ok (insights ++ controversial_insight aspect_variances)%list
  end.

Definition generate_comparative_insights (aspect_rankings : dict AspectRanking)
    : exc (list string) :=
  statements <- insight_statements aspect_rankings ;;
  Ok (map (render title_beyond_ascii) statements).

(** ** Summary tables *)

(** One row of the long-form summary. *)
Record SummaryRow : Type := mkRow {
  Aspect : string;
  Provider : string;
  Rank : nat;
  Sentiment_Score : Q;
  Positive_Ratio : Q;
  Negative_Ratio : Q;
  Total_Opinions : nat;
  Avg_Confidence : Q;
  Is_Best : bool;
  Is_Worst : bool
}.

(** A [pandas.DataFrame] as far as the module builds one: the row labels
    and, per column label, the cells by row label.  [pd.DataFrame()] is the
    frame with neither. *)
Record Matrix : Type := mkMatrix {
  index : list string;
  columns : dict (dict Q)
}.

Definition empty_matrix : Matrix := mkMatrix [] [].

(** [for rank, (provider, score_data) in enumerate(ranked, 1): ...] *)
Fixpoint summary_rows (asp : string) (count : nat) (rank : nat)
    (ranked : list (string * ProviderAspectScore)) : list SummaryRow :=
  match ranked with
  | [] => []
  | (p, score_data) :: rest =>
      mkRow asp p rank
            (sentiment_score score_data) (positive_ratio score_data)
            (negative_ratio score_data) (total_opinions score_data)
            (avg_confidence score_data)
            (rank =? 1)%nat (rank =? count)%nat
      :: summary_rows asp count (S rank) rest
  end.

Definition create_comparative_summary_dataframe
    (aspect_rankings : dict AspectRanking) : list SummaryRow :=
  fold_left
    (fun rows item =>
       let ranked := ranked_providers (snd item) in
       (rows ++ summary_rows (fst item) (List.length ranked) 1 ranked)%list)
    (Dict.items aspect_rankings) [].

(** [for provider in providers: ...], lines 222-224. *)
Fixpoint matrix_column (scores : dict ProviderAspectScore)
    (providers : list string) (aspect_scores : dict Q) : exc (dict Q) :=
  match providers with
  | [] => Ok aspect_scores
  | p :: rest =>
      sc <- Dict.get p scores ;;
      matrix_column scores rest (Dict.set p (sentiment_score sc) aspect_scores)
  end.

(** [for aspect in aspects: ...], lines 220-225. *)
Fixpoint matrix_columns (aspect_rankings : dict AspectRanking)
    (providers aspects : list string) (matrix_data : dict (dict Q))
    : exc (dict (dict Q)) :=
  match aspects with
  | [] => Ok matrix_data
  | asp :: rest =>
      data <- Dict.get asp aspect_rankings ;;
      aspect_scores <- matrix_column (provider_scores data) providers [] ;;
      matrix_columns aspect_rankings providers rest
        (Dict.set asp aspect_scores matrix_data)
  end.

Definition create_provider_comparison_matrix
    (aspect_rankings : dict AspectRanking) : exc Matrix :=
  match aspect_rankings with
  | [] => Ok empty_matrix
  | (_, first_aspect) :: _ =>
      let providers := Dict.keys (provider_scores first_aspect) in
      let aspects := Dict.keys aspect_rankings in
      matrix_data <- matrix_columns aspect_rankings providers aspects [] ;;
      Ok (mkMatrix providers matrix_data)
  end.

(** ** [postprocess_sentiment_results] *)

Record Postprocessed : Type := mkPost {
  aspect_rankings_of : dict AspectRanking;
  overall_rankings : list (string * Q);
  insights : list string;
  comparative_summary : list SummaryRow;
  comparison_matrix : Matrix
}.

Definition postprocess_sentiment_results (results : OpinionStore)
    : exc Postprocessed :=
  aspect_rankings <- calculate_provider_rankings results ;;
  overall <- calculate_overall_provider_rankings aspect_rankings ;;
  insight_list <- generate_comparative_insights aspect_rankings ;;
  let comparative_df := create_comparative_summary_dataframe aspect_rankings in
  matrix <- create_provider_comparison_matrix aspect_rankings ;;
  Ok (mkPost aspect_rankings overall insight_list comparative_df matrix).

End Stdev.

(** ** [generate_comparative_insights] on binary64 numbers

    The threshold of the first loop compares two floats, and the statement
    prints two floats: here the score dicts hold the numbers as the
    interpreter does. *)

Module Binary64.

(** The literal [0.1]. *)
Definition tenth : float := 0x1.999999999999ap-4%float.

Record ProviderAspectScore : Type := mkScore {
  sentiment_score : float;
  positive_ratio : float;
  negative_ratio : float;
  total_opinions : nat;
  avg_confidence : float
}.

Record AspectRanking : Type := mkRanking {
  provider_scores : dict ProviderAspectScore;
  ranked_providers : list (string * ProviderAspectScore);
  best_provider : option string;
  worst_provider : option string
}.

Definition of_count (n : nat) : float := float_of_Z (Z.of_nat n).

(** Lines 50-66 of [calculate_provider_rankings]: the score dict of a
    bucket of [total] opinions, [positive] and [negative] of them so
    labelled, with mean confidence [avg]. *)
Definition score_data (positive negative total : nat) (avg : float)
    : ProviderAspectScore :=
  let pos_ratio :=
    if (0 <? total)%nat then PrimFloat.div (of_count positive) (of_count total)
    else PrimFloat.zero in
  let neg_ratio :=
    if (0 <? total)%nat then PrimFloat.div (of_count negative) (of_count total)
    else PrimFloat.zero in
  mkScore (PrimFloat.sub pos_ratio neg_ratio) pos_ratio neg_ratio total avg.

Inductive Insight : Type :=
| NoData
| Leads (asp best : string) (best_ratio : float) (worst : string) (worst_ratio : float)
| MostControversial (asp : string).

Definition render (title_beyond_ascii : string -> string) (i : Insight) : string :=
  match i with
  | NoData => "No data available for comparative analysis."
  | Leads asp best bp worst wp =>
      title title_beyond_ascii asp ++ ": " ++ best ++ " leads with "
      ++ percent_of_float bp
      ++ " positive sentiment vs " ++ worst ++ " at " ++ percent_of_float wp
  | MostControversial asp =>
      "Most controversial aspect: " ++ asp ++ " (highest sentiment variance)"
  end.

(** Body of the first loop, lines 138-154. *)
Definition leader_insight (asp : string) (data : AspectRanking) : list Insight :=
  let ranked := ranked_providers data in
  if (List.length ranked <? 2)%nat then []
  else
    match ranked with
    | [] => []
    | first :: _ =>
        let '(best_provider, best_data) := first in
        let '(worst_provider, worst_data) := last ranked first in
        let score_diff :=
          PrimFloat.sub (sentiment_score best_data) (sentiment_score worst_data) in
        if PrimFloat.ltb tenth score_diff
        then [Leads asp best_provider (positive_ratio best_data)
                    worst_provider (positive_ratio worst_data)]
        else []
    end.

Definition leader_insights (aspect_rankings : dict AspectRanking)
    (insights : list Insight) : list Insight :=
  fold_left (fun acc item => (acc ++ leader_insight (fst item) (snd item))%list)
            (Dict.items aspect_rankings) insights.

(** [max(xs, key=key)] on [first :: rest]: a later element replaces the
    current one when its key is greater. *)
Fixpoint max_by {A : Type} (key : A -> float) (best : A) (rest : list A) : A :=
  match rest with
  | [] => best
  | x :: rest' =>
      if PrimFloat.ltb (key best) (key x)
      then max_by key x rest' else max_by key best rest'
  end.

Section Stdev.
(** [str.title()] beyond ASCII. *)
Variable title_beyond_ascii : string -> string.

(** [statistics.stdev] on two or more numbers, the only use the module
    makes of it. *)
Variable stdev : list float -> float.

Definition ranked_scores (data : AspectRanking) : list float :=
  map (fun item => sentiment_score (snd item)) (ranked_providers data).

(** Second loop, lines 157-161. *)
Definition collect_variances (items : list (string * AspectRanking))
    (aspect_variances : dict float) : dict float :=
  fold_left
    (fun acc item =>
       let scores := ranked_scores (snd item) in
       if (1 <? List.length scores)%nat
       then Dict.set (fst item)
              (if (1 <? List.length scores)%nat then stdev scores
               else PrimFloat.zero) acc
       else acc)
    items aspect_variances.

(** Lines 163-165. *)
Definition controversial_insight (aspect_variances : dict float) : list Insight :=
  match Dict.items aspect_variances with
  | [] => []
  | first :: rest => [MostControversial (fst (max_by snd first rest))]
  end.

Definition insight_statements (aspect_rankings : dict AspectRanking)
    : list Insight :=
  match aspect_rankings with
  | [] => [NoData]
  | _ :: _ =>
      let insights := leader_insights aspect_rankings [] in
      let aspect_variances := collect_variances (Dict.items aspect_rankings) [] in
      (insights ++ controversial_insight aspect_variances)%list
  end.

Definition generate_comparative_insights (aspect_rankings : dict AspectRanking)
    : list string :=
  map (render title_beyond_ascii) (insight_statements aspect_rankings).

End Stdev.

(** The statements about the aspect [a]. *)
Definition leads_about (a : string) (i : Insight) : bool :=
  match i with
  | Leads a' _ _ _ _ => String.eqb a' a
  | _ => false
  end.

(** All per-aspect statements, in aspect order. *)
Definition leader_statements (aspect_rankings : dict AspectRanking) : list Insight :=
  flat_map (fun item => leader_insight (fst item) (snd item)) aspect_rankings.

(** The sample standard deviation computed step by step in binary64
    arithmetic, for the sample inputs; the library rounds once, at the
    end. *)
Definition stepwise_stdev (data : list float) : float :=
  let n := of_count (List.length data) in
  let m := PrimFloat.div (fold_left PrimFloat.add data PrimFloat.zero) n in
  let squares :=
    fold_left
      (fun acc x => PrimFloat.add acc (PrimFloat.mul (PrimFloat.sub x m)
                                                     (PrimFloat.sub x m)))
      data PrimFloat.zero in
  PrimFloat.sqrt (PrimFloat.div squares (PrimFloat.sub n PrimFloat.one)).

(** The ranking of two providers, the better one first. *)
Definition two_ranked (best : string) (best_data : ProviderAspectScore)
    (worst : string) (worst_data : ProviderAspectScore) : AspectRanking :=
  mkRanking [(best, best_data); (worst, worst_data)]
            [(best, best_data); (worst, worst_data)] (Some best) (Some worst).

(** Eight of ten opinions positive against seven of ten: the scores differ
    by a tenth, and their binary64 difference is above the literal [0.1]. *)
Definition narrow_rankings : dict AspectRanking :=
  [("cost", two_ranked "AWS" (score_data 8 0 10 PrimFloat.one)
                       "GCP" (score_data 7 0 10 PrimFloat.one))].

(** One of ten opinions positive against none: the binary64 difference is
    the literal [0.1] itself. *)
Definition tenth_rankings : dict AspectRanking :=
  [("support", two_ranked "AWS" (score_data 1 0 10 PrimFloat.one)
                          "GCP" (score_data 0 0 10 PrimFloat.one))].

(** Four aspects: the two above; one with 23 of 80 opinions positive and 5
    negative against none of 80; one with a single provider. *)
Definition mixed_rankings : dict AspectRanking :=
  [("cost", two_ranked "AWS" (score_data 8 0 10 PrimFloat.one)
                       "GCP" (score_data 7 0 10 PrimFloat.one));
   ("support", two_ranked "AWS" (score_data 1 0 10 PrimFloat.one)
                          "GCP" (score_data 0 0 10 PrimFloat.one));
   ("ease of use", two_ranked "Azure" (score_data 23 5 80 PrimFloat.one)
                              "GCP" (score_data 0 0 80 PrimFloat.one));
   ("performance", mkRanking [("AWS", score_data 3 0 3 PrimFloat.one)]
                             [("AWS", score_data 3 0 3 PrimFloat.one)]
                             (Some "AWS") (Some "AWS"))].

End Binary64.

(** ** The relevance extractor of [cloud_sentiment_analyzer.py] *)

(** A Python [str] is a sequence of Unicode code points.  A [string] here
    holds the UTF-8 encoding of one, and the regular expression sees its code
    points. *)

Definition replacement : N := 65533%N.

Inductive Utf8State : Type :=
| Idle
| Pending (acc : N) (more : nat).

(** A byte that begins a character. *)
Definition utf8_start (n : N) : Utf8State * list N :=
  (if n <? 128 then (Idle, [n])
   else if (192 <=? n) && (n <? 224) then (Pending (N.land n 31) 0, [])
   else if (224 <=? n) && (n <? 240) then (Pending (N.land n 15) 1, [])
   else if (240 <=? n) && (n <? 248) then (Pending (N.land n 7) 2, [])
   else (Idle, [replacement]))%N.

(** One byte more: the state after it and the code points completed by
    it.  A byte that cannot continue the pending character yields the
    replacement character and begins anew. *)
Definition utf8_feed (st : Utf8State) (n : N) : Utf8State * list N :=
  match st with
  | Idle => utf8_start n
  | Pending acc more =>
      if ((128 <=? n) && (n <? 192))%N then
        let acc' := (acc * 64 + N.land n 63)%N in
        match more with
        | O => (Idle, [if (acc' <? 128)%N then replacement else acc'])
        | S k => (Pending acc' k, [])
        end
      else (fst (utf8_start n), replacement :: snd (utf8_start n))
  end.

Fixpoint decode_from (st : Utf8State) (s : string) : list N :=
  match s with
  | EmptyString =>
      match st with
      | Idle => []
      | Pending _ _ => [replacement]
      end
  | String b rest =>
      (snd (utf8_feed st (N_of_ascii b))
       ++ decode_from (fst (utf8_feed st (N_of_ascii b))) rest)%list
  end.

(** The code points of a text. *)
Definition codepoints (s : string) : list N := decode_from Idle s.

(** A byte that continues a character begun before it. *)
Definition is_continuation (b : ascii) : bool :=
  ((128 <=? N_of_ascii b) && (N_of_ascii b <? 192))%N.

(** [len(text)]: the number of characters of a well-formed text. *)
Fixpoint char_length (s : string) : nat :=
  match s with
  | EmptyString => 0%nat
  | String b rest =>
      if is_continuation b then char_length rest else S (char_length rest)
  end.

(** [text[:n]]: the first [n] characters of a well-formed text. *)
Fixpoint take_chars (n : nat) (s : string) : string :=
  match s with
  | EmptyString => EmptyString
  | String b rest =>
      if is_continuation b then String b (take_chars n rest)
      else
        match n with
        | O => EmptyString
        | S k => String b (take_chars k rest)
        end
  end.

(** What the [re] module takes from the Unicode database beyond ASCII: the
    alphanumeric code points, and which pattern character matches which text
    character when case is ignored (both already lower-cased where they are
    ASCII letters). *)
Record UnicodeData : Type := mkUnicode {
  unicode_alnum : N -> bool;
  unicode_ignore_case : N -> N -> bool
}.

(** An ASCII upper-case letter as its lower-case letter. *)
Definition fold_ascii (c : N) : N :=
  (if (65 <=? c) && (c <=? 90) then c + 32 else c)%N.

Definition ascii_word (c : N) : bool :=
  ((65 <=? c) && (c <=? 90) || (97 <=? c) && (c <=? 122)
   || (48 <=? c) && (c <=? 57) || (c =? 95))%N.

Section Regex.
Variable unicode : UnicodeData.

(** The class [\w] of a [str] pattern. *)
Definition is_word_char (c : N) : bool :=
  if (c <? 128)%N then ascii_word c else unicode_alnum unicode c.

Definition word_at (c : option N) : bool :=
  match c with
  | Some a => is_word_char a
  | None => false
  end.

Definition first_char (t : list N) : option N :=
  match t with
  | [] => None
  | c :: _ => Some c
  end.

(** The assertion [\b] between the character [prev] just read and the text
    [t] ahead: exactly one side is a word character; the ends of the string
    count as non-word. *)
Definition boundary (prev : option N) (t : list N) : bool :=
  xorb (word_at prev) (word_at (first_char t)).

(** The pattern character [p] matches the text character [c] under
    [re.IGNORECASE]: a character matches itself, two ASCII characters match
    when they agree up to letter case, and the Unicode tables decide the
    rest. *)
Definition eqb_ci (p c : N) : bool :=
  (p =? c)%N
  || if ((p <? 128) && (c <? 128))%N
     then (fold_ascii p =? fold_ascii c)%N
     else unicode_ignore_case unicode (fold_ascii p) (fold_ascii c).

(** The escaped literal [word] followed by [\b], matched at the head of
    [t]; [prev] is the character before [t]. *)
Fixpoint match_here (prev : option N) (word t : list N) : bool :=
  match word with
  | [] => boundary prev t
  | c :: word' =>
      match t with
      | [] => false
      | d :: t' => eqb_ci c d && match_here (Some d) word' t'
      end
  end.

(** [re.search]: try every start position, left to right. *)
Fixpoint search_from (prev : option N) (word t : list N) : bool :=
  (boundary prev t && match_here prev word t)
  || match t with
     | [] => false
     | d :: t' => search_from (Some d) word t'
     end.

Definition contains_whole_word (word text : string) : bool :=
  search_from None (codepoints word) (codepoints text).

(** [nltk.sent_tokenize], supplied by the NLTK package. *)
Variable sent_tokenize : string -> list string.

(** [text or ""] *)
Definition or_empty (text : option string) : string :=
  match text with
  | Some t => t
  | None => ""
  end.

Definition is_relevant (prov : string) (keywords : list string) (sent : string) : bool :=
  contains_whole_word prov sent
  && existsb (fun kw => contains_whole_word kw sent) keywords.

Definition extract_relevant_sentences (text : option string) (prov : string)
    (keywords : list string) : list string :=
  fold_left
    (fun relevant sent =>
       if is_relevant prov keywords sent then (relevant ++ [sent])%list else relevant)
    (sent_tokenize (or_empty text)) [].

End Regex.

(** * Vocabulary of the statements *)

(** The aspects the ranking iterates over: the keys of the first provider's
    mapping. *)
Definition first_aspects (results : OpinionStore) : list string :=
  match results with
  | [] => []
  | (_, by_aspect) :: _ => Dict.keys by_aspect
  end.

(** Every provider's mapping has every aspect of the first provider's. *)
Definition all_have (results : OpinionStore) (a : string) : bool :=
  forallb (fun item => Dict.mem a (snd item)) results.

Definition covers_first_aspects (results : OpinionStore) : bool :=
  forallb (all_have results) (first_aspects results).

(** [results[p][asp]] where it is defined. *)
Definition bucket (results : OpinionStore) (asp p : string) : list OpinionRecord :=
  match Dict.find p results with
  | Some by_aspect =>
      match Dict.find asp by_aspect with
      | Some opinions => opinions
      | None => []
      end
  | None => []
  end.

(** The score the inner loop stores for a bucket. *)
Definition score_of (opinions : list OpinionRecord) : ProviderAspectScore :=
  match bucket_score opinions with
  | Ok sc => sc
  | _ => zero_score
  end.

(** The [provider_scores] dict of one aspect and its ranking, as the loops
    leave them when no lookup fails. *)
Definition scores_of (results : OpinionStore) (asp : string) : dict ProviderAspectScore :=
  fold_left (fun acc p => Dict.set p (score_of (bucket results asp p)) acc)
            (Dict.keys results) [].

Definition rankings_of (results : OpinionStore) : dict AspectRanking :=
  fold_left (fun acc a => Dict.set a (rank_aspect (scores_of results a)) acc)
            (first_aspects results) [].

(** The records that carry one of the two scored labels. *)
Definition unscored (op : OpinionRecord) : bool :=
  String.eqb (sentiment op) "Neutral" || String.eqb (sentiment op) "Error".

Definition scored_only (opinions : list OpinionRecord) : list OpinionRecord :=
  filter (fun op => negb (unscored op)) opinions.

(** Number of records carrying a label, as a filter. *)
Definition labelled (label : string) (opinions : list OpinionRecord) : nat :=
  List.length (filter (fun op => String.eqb (sentiment op) label) opinions).

Definition score_key (item : string * ProviderAspectScore) : Q :=
  sentiment_score (snd item).

(** Largest key first. *)
Definition descending {A : Type} (key : A -> Q) (l : list A) : Prop :=
  StronglySorted (fun x y => key y <= key x) l.

(** Elements with equal keys are in the same relative order in [l'] as in
    [l]: for each key value, the sub-sequences carrying it coincide. *)
Definition same_order_on_ties {A : Type} (key : A -> Q) (l l' : list A) : Prop :=
  forall v : Q,
    filter (fun x => Qeq_bool (key x) v) l' = filter (fun x => Qeq_bool (key x) v) l.

(** The providers the overall ranking iterates over: the keys of the first
    aspect's score mapping. *)
Definition first_providers (aspect_rankings : dict AspectRanking) : list string :=
  match aspect_rankings with
  | [] => []
  | (_, data) :: _ => Dict.keys (provider_scores data)
  end.

Definition scored_everywhere (aspect_rankings : dict AspectRanking) (p : string) : bool :=
  forallb (fun item => Dict.mem p (provider_scores (snd item))) aspect_rankings.

(** Every aspect scores every provider of the first aspect. *)
Definition providers_covered (aspect_rankings : dict AspectRanking) : bool :=
  forallb (scored_everywhere aspect_rankings) (first_providers aspect_rankings).

(** [aspect_data['provider_scores'][p]] where it is defined. *)
Definition entry (p : string) (data : AspectRanking) : ProviderAspectScore :=
  match Dict.find p (provider_scores data) with
  | Some sc => sc
  | None => zero_score
  end.

(** Arithmetic mean of a provider's sentiment scores over all aspects. *)
Definition mean_score (aspect_rankings : dict AspectRanking) (p : string) : Q :=
  Qsum (map (fun item => sentiment_score (entry p (snd item))) aspect_rankings)
  / of_nat (List.length aspect_rankings).

(** A provider's opinion count summed over all aspects. *)
Definition opinions_across (aspect_rankings : dict AspectRanking) (p : string) : nat :=
  list_sum (map (fun item => total_opinions (entry p (snd item))) aspect_rankings).

(** The confidence dampener [min(1.0, total_opinions / 100.0)]. *)
Definition dampener (total : nat) : Q := Qmin 1 (of_nat total / 100).

Definition weighted_score (aspect_rankings : dict AspectRanking) (p : string) : Q :=
  mean_score aspect_rankings p * dampener (opinions_across aspect_rankings p).

(** What the loop body assigns to [overall_scores[p]]. *)
Definition assigned_score (aspect_rankings : dict AspectRanking) (p : string) : Q :=
  (Qsum (map (fun data => sentiment_score (entry p data)) (Dict.values aspect_rankings))
   / of_nat (List.length
               (map (fun data => sentiment_score (entry p data))
                    (Dict.values aspect_rankings))))
  * py_min 1
      (of_nat (0 + list_sum (map (fun data => total_opinions (entry p data))
                                 (Dict.values aspect_rankings))) / 100).

(** A ranking input with one aspect in which a provider has 50 opinions and
    sentiment score 0.8, next to one with a full sample. *)
Definition aws_cost : ProviderAspectScore :=
  mkScore (8 # 10) (9 # 10) (1 # 10) 50 (7 # 10).

Definition gcp_cost : ProviderAspectScore :=
  mkScore (5 # 10) (6 # 10) (1 # 10) 200 (7 # 10).

Definition sample_rankings : dict AspectRanking :=
  [("cost", rank_aspect [("AWS", aws_cost); ("GCP", gcp_cost)])].

(** The per-aspect statements about aspect [a]. *)
Definition leads_about (a : string) (i : Insight) : bool :=
  match i with
  | Leads a' _ _ _ _ => String.eqb a' a
  | _ => false
  end.


(** Sample variance: squared distances to the mean, summed and divided by
    one less than the number of points. *)
Definition sample_variance (xs : list Q) : Q :=
  let m := Qsum xs / of_nat (List.length xs) in
  Qsum (map (fun x => (x - m) * (x - m)) xs) / of_nat (List.length xs - 1).

(** Sample standard deviation of the sentiment scores of one aspect. *)
Definition deviation (sqrt : Q -> Q) (data : AspectRanking) : Q :=
  sqrt (sample_variance (ranked_scores data)).

(** The aspects with at least two ranked providers. *)
Definition eligible (aspect_rankings : dict AspectRanking) : dict AspectRanking :=
  filter (fun item => (1 <? List.length (ranked_providers (snd item)))%nat)
         aspect_rankings.

(** All per-aspect statements, in aspect order. *)
Definition leader_statements (aspect_rankings : dict AspectRanking) : list Insight :=
  flat_map (fun item => leader_insight (fst item) (snd item)) aspect_rankings.

(** A string with its ASCII letters in lower case. *)
Fixpoint lower_string (s : string) : string :=
  match s with
  | EmptyString => EmptyString
  | String c s' => String (to_lower c) (lower_string s')
  end.

(** The last character of [t], or [prev] when [t] is empty. *)
Fixpoint last_char_or (prev : option N) (t : list N) : option N :=
  match t with
  | [] => prev
  | c :: t' => last_char_or (Some c) t'
  end.

(** [mid] is [word] read case-insensitively, character by character. *)
Fixpoint same_word (unicode : UnicodeData) (word mid : list N) : bool :=
  match word, mid with
  | [], [] => true
  | p :: word', c :: mid' => eqb_ci unicode p c && same_word unicode word' mid'
  | _, _ => false
  end.

(** [t], preceded by the character [prev], splits as [pre ++ mid ++ post]
    where [mid] is [word] up to letter case and a word boundary lies on each
    side of [mid]. *)
Definition occurs_after (unicode : UnicodeData) (prev : option N)
    (word t : list N) : Prop :=
  exists pre mid post,
    t = (pre ++ mid ++ post)%list
    /\ same_word unicode word mid = true
    /\ boundary unicode (last_char_or prev pre) (mid ++ post) = true
    /\ boundary unicode (last_char_or prev (pre ++ mid)) post = true.

(** A case-insensitive whole-word occurrence of [word] in [text]. *)
Definition whole_word (unicode : UnicodeData) (word text : string) : Prop :=
  occurs_after unicode None (codepoints word) (codepoints text).

(** [word] begins and ends with a word character. *)
Definition word_edges (unicode : UnicodeData) (word : string) : bool :=
  word_at unicode (first_char (codepoints word))
  && word_at unicode (last_char_or None (codepoints word)).

(** The Unicode tables cut down to Latin-1: its letters and digits, with
    their lower case, and nothing beyond.  They are those of the [re] module
    on text within Latin-1. *)
Definition latin1_alnum (c : N) : bool :=
  ((c =? 170) || (c =? 181) || (c =? 186)
   || (c =? 178) || (c =? 179) || (c =? 185)
   || (188 <=? c) && (c <=? 190)
   || (192 <=? c) && (c <=? 214)
   || (216 <=? c) && (c <=? 246)
   || (248 <=? c) && (c <=? 255))%N.

Definition latin1_lower (c : N) : N :=
  (if (192 <=? c) && (c <=? 222) && negb (c =? 215) then c + 32 else c)%N.

Definition latin1 : UnicodeData :=
  mkUnicode latin1_alnum (fun p c => (latin1_lower p =? latin1_lower c)%N).

(** A tokenizer that takes a non-empty text for one sentence. *)
Definition one_sentence (text : string) : list string :=
  match text with
  | EmptyString => []
  | _ => [text]
  end.

(** ** Sample inputs *)

Definition opinion (prov asp label : string) (conf : Q) : OpinionRecord :=
  mkOpinion "a sentence" label conf "r/Cloud - Post" "https://example.org/p" prov asp.

(** Two providers, two aspects; one empty bucket, one bucket with a
    Neutral and an Error record. *)
Definition sample_store : OpinionStore :=
  [("AWS",
    [("cost", [opinion "AWS" "cost" "Positive" (9 # 10);
               opinion "AWS" "cost" "Positive" (8 # 10);
               opinion "AWS" "cost" "Neutral" (5 # 10);
               opinion "AWS" "cost" "Error" 0]);
     ("support", [opinion "AWS" "support" "Negative" (7 # 10)])]);
   ("GCP",
    [("cost", []);
     ("support", [opinion "GCP" "support" "Positive" (6 # 10);
                  opinion "GCP" "support" "Negative" (6 # 10)])])].

(** The second provider lacks the aspect ["support"] of the first. *)
Definition ragged_store : OpinionStore :=
  [("AWS", [("cost", []); ("support", [])]);
   ("GCP", [("cost", [])])].

(** Two aspects: the providers differ on cost and agree on support. *)
Definition two_aspect_rankings : dict AspectRanking :=
  [("support", rank_aspect [("AWS", mkScore (2 # 10) (4 # 10) (2 # 10) 10 (1 # 2));
                            ("GCP", mkScore (2 # 10) (3 # 10) (1 # 10) 10 (1 # 2))]);
   ("cost", rank_aspect [("AWS", aws_cost); ("GCP", gcp_cost)])].


(** ** Vocabulary for the summary tables *)

(** The summary row of the provider at index [i] of an aspect's ranking. *)
Definition row_at (a : string) (data : AspectRanking) (i : nat)
    (p : string) (sc : ProviderAspectScore) : SummaryRow :=
  mkRow a p (S i)
        (sentiment_score sc) (positive_ratio sc) (negative_ratio sc)
        (total_opinions sc) (avg_confidence sc)
        (i =? 0)%nat (S i =? List.length (ranked_providers data))%nat.

Definition best_row_of (a : string) (r : SummaryRow) : bool :=
  String.eqb (Aspect r) a && Is_Best r.

Definition worst_row_of (a : string) (r : SummaryRow) : bool :=
  String.eqb (Aspect r) a && Is_Worst r.


(** ** Vocabulary for the comparison matrix *)

(** [aspect_rankings[a]] where it is defined. *)
Definition lookup_aspect (aspect_rankings : dict AspectRanking) (a : string)
    : AspectRanking :=
  match Dict.find a aspect_rankings with
  | Some data => data
  | None => rank_aspect []
  end.

(** The column the inner loop builds for one aspect. *)
Definition column_of (providers : list string) (data : AspectRanking) : dict Q :=
  fold_left (fun acc p => Dict.set p (sentiment_score (entry p data)) acc) providers [].

(** The second aspect does not score the provider ["GCP"] of the first. *)
Definition ragged_rankings : dict AspectRanking :=
  [("cost", rank_aspect [("AWS", aws_cost); ("GCP", gcp_cost)]);
   ("support", rank_aspect [("AWS", aws_cost)])].


(** A store with a single provider. *)
Definition lone_store : OpinionStore :=
  [("AWS",
    [("cost", [opinion "AWS" "cost" "Positive" (9 # 10);
               opinion "AWS" "cost" "Negative" (8 # 10)]);
     ("support", [])])].


(** Whether a text contains a word character. *)
Definition has_word_char (unicode : UnicodeData) (text : string) : bool :=
  existsb (is_word_char unicode) (codepoints text).


(** * The driver script of [cloud_sentiment_analyzer.py] *)

(** ** Configuration and storage, lines 56-70 *)

Module Analyzer.

Definition providers : list string :=
  ["AWS"; "Azure"; "Google Cloud"; "GCP"; "IBM Cloud"; "Amazon Web Services"].

Definition key_areas : dict (list string) :=
  [("cost", ["cheap"; "expensive"; "price"; "affordable"; "pricing"; "cost";
             "pay-as-you-go"; "free tier"; "discount"; "billing"]);
   ("scalability", ["scalable"; "scale"; "elastic"; "autoscale"; "capacity"; "grow";
                    "shrink"; "dynamic"; "load balancing"]);
   ("security", ["secure"; "security"; "vulnerable"; "encryption"; "breach";
                 "compliance"; "firewall"; "attack"; "access control"; "IAM"]);
   ("performance", ["fast"; "slow"; "latency"; "throughput"; "speed"; "efficient";
                    "optimization"; "response time"]);
   ("support", ["support"; "help"; "documentation"; "customer service"; "forum";
                "ticket"; "response"; "tutorial"])].

End Analyzer.

(** [{area: [] for area in key_areas}] *)
Definition empty_areas (areas : dict (list string)) : dict (list OpinionRecord) :=
  fold_left (fun d area => Dict.set area [] d) (Dict.keys areas) [].

(** [{provider: {area: [] for area in key_areas} for provider in providers}] *)
Definition new_results (provs : list string) (areas : dict (list string))
    : OpinionStore :=
  fold_left (fun d p => Dict.set p (empty_areas areas) d) provs [].

(** ** [get_bert_sentiment], lines 73-91 *)

(** One element of what the classification pipeline returns: the scores of
    all labels, or the top label alone. *)
Inductive PipelineItem : Type :=
| AllScores (scores : list (string * Q))
| TopScore (label : string) (score : Q).

Definition label_in (label : string) (labels : list string) : bool :=
  existsb (String.eqb label) labels.

Section Classifier.
(** The Unicode tables of the [re] module. *)
Variable unicode : UnicodeData.

(** The loaded pipeline; [None] stands for a call that raises. *)
Variable bert_pipeline : string -> option (list PipelineItem).

(** [text[:512]] when the text is longer than 512 characters. *)
Definition clip (text : string) : string :=
  if (512 <? char_length text)%nat then take_chars 512 text else text.

Definition get_bert_sentiment (text : string) : string * Q :=
  let text := clip text in
  match bert_pipeline text with
  | None => ("Error", 0)
  | Some [] => ("Error", 0)
  | Some (first :: _) =>
      let best :=
        match first with
        | AllScores [] => None
        | AllScores (x :: rest) => Some (max_by snd x rest)
        | TopScore label score => Some (label, score)
        end in
      match best with
      | None => ("Error", 0)
      | Some (label, score) =>
          if label_in label ["POSITIVE"; "4 stars"; "5 stars"; "LABEL_2"]
          then ("Positive", score)
          else if label_in label ["NEGATIVE"; "1 star"; "2 stars"; "LABEL_0"]
          then ("Negative", score)
          else ("Neutral", score)
      end
  end.

(** ** The extraction loops, lines 139-154 and 167-183 *)

Variable sent_tokenize : string -> list string.

(** [results[provider][area].append(rec)] *)
Definition append_opinion (results : OpinionStore) (p area : string)
    (rec : OpinionRecord) : exc OpinionStore :=
  by_area <- Dict.get p results ;;
  opinions <- Dict.get area by_area ;;
  Ok (Dict.set p (Dict.set area (opinions ++ [rec])%list by_area) results).

(** The record appended for one relevant sentence. *)
Definition classified (p area src link sent : string) : OpinionRecord :=
  let '(label, conf) := get_bert_sentiment sent in
  mkOpinion sent label conf src link p area.

(** [for sent in relevant: ...] *)
Fixpoint record_sentences (results : OpinionStore) (p area src link : string)
    (relevant : list string) : exc OpinionStore :=
  match relevant with
  | [] => Ok results
  | sent :: rest =>
      results' <- append_opinion results p area (classified p area src link sent) ;;
      record_sentences results' p area src link rest
  end.

(** [for area, keywords in key_areas.items(): ...] *)
Fixpoint scan_areas (results : OpinionStore) (text p src link : string)
    (areas : list (string * list string)) : exc OpinionStore :=
  match areas with
  | [] => Ok results
  | (area, keywords) :: rest =>
      let relevant :=
        extract_relevant_sentences unicode sent_tokenize (Some text) p keywords in
      results' <- record_sentences results p area src link relevant ;;
      scan_areas results' text p src link rest
  end.

(** [for provider in providers: ...] *)
Fixpoint scan_providers (results : OpinionStore) (text src link : string)
    (areas : dict (list string)) (provs : list string) : exc OpinionStore :=
  match provs with
  | [] => Ok results
  | p :: rest =>
      results' <- scan_areas results text p src link (Dict.items areas) ;;
      scan_providers results' text src link areas rest
  end.

(** The loop nest run on the text of a post and on each comment body. *)
Definition analyse_text (results : OpinionStore) (text src link : string)
    : exc OpinionStore :=
  scan_providers results text src link Analyzer.key_areas Analyzer.providers.

End Classifier.

(** Two pipelines that answer alike on every input of at most 512
    characters. *)
Definition agree_up_to_512 (f g : string -> option (list PipelineItem)) : Prop :=
  forall text, (char_length text <= 512)%nat -> f text = g text.

(** A pipeline that favours the label ["5 stars"] whatever the input. *)
Definition five_star_pipeline (text : string) : option (list PipelineItem) :=
  Some [AllScores [("1 star", 1 # 10); ("5 stars", 7 # 10); ("3 stars", 2 # 10)]].

(** A pipeline that always raises. *)
Definition failing_pipeline (text : string) : option (list PipelineItem) := None.

(** A pipeline that raises on every input of more than 512 characters and
    favours ["5 stars"] otherwise. *)
Definition short_only_pipeline (text : string) : option (list PipelineItem) :=
  if (512 <? char_length text)%nat then None else five_star_pipeline text.

(** [s * n] *)
Fixpoint repeat_text (n : nat) (s : string) : string :=
  match n with
  | O => EmptyString
  | S k => s ++ repeat_text k s
  end.

(** A text of 1400 characters. *)
Definition long_text : string := repeat_text 100 "AWS is cheap. ".

(** A text of 300 accented letters, two bytes each. *)
Definition accented_text : string := repeat_text 300 "é".


(** ** The summary export, lines 233-256 *)

Module SummaryExport.

Record Row : Type := mkRow {
  Provider : string;
  Area : string;
  Total : nat;
  Positive : nat;
  Negative : nat;
  Neutral : nat;
  Pos_Pct : Q;
  Neg_Pct : Q;
  Neu_Pct : Q;
  Avg_Confidence : Q
}.

End SummaryExport.

(** [sum(xs)]: the running total, starting from 0. *)
Definition py_sum (xs : list Q) : Q := fold_left Qplus xs 0.

(** The row appended for a non-empty bucket. *)
Definition export_row (p area : string) (opinions : list OpinionRecord) : SummaryExport.Row :=
  let total := List.length opinions in
  let pos := count_sentiment "Positive" opinions in
  let neg := count_sentiment "Negative" opinions in
  let neu := count_sentiment "Neutral" opinions in
  let avg_conf :=
    if (0 <? total)%nat then py_sum (map confidence opinions) / of_nat total else 0 in
  SummaryExport.mkRow p area total pos neg neu
               ((of_nat pos / of_nat total) * 100)
               ((of_nat neg / of_nat total) * 100)
               ((of_nat neu / of_nat total) * 100)
               avg_conf.

(** [for area in key_areas: ...] *)
Fixpoint export_areas (results : OpinionStore) (p : string) (areas : list string)
    (summary : list SummaryExport.Row) : exc (list SummaryExport.Row) :=
  match areas with
  | [] => Ok summary
  | area :: rest =>
      by_area <- Dict.get p results ;;
      opinions <- Dict.get area by_area ;;
      if (List.length opinions =? 0)%nat
      then export_areas results p rest summary
      else export_areas results p rest (summary ++ [export_row p area opinions])%list
  end.

(** [for provider in providers: ...] *)
Fixpoint export_providers (results : OpinionStore) (provs areas : list string)
    (summary : list SummaryExport.Row) : exc (list SummaryExport.Row) :=
  match provs with
  | [] => Ok summary
  | p :: rest =>
      summary' <- export_areas results p areas summary ;;
      export_providers results rest areas summary'
  end.

Definition summary_export (results : OpinionStore) : exc (list SummaryExport.Row) :=
  export_providers results Analyzer.providers (Dict.keys Analyzer.key_areas) [].

(** ** Vocabulary for the store *)

(** Both lookups of [results[p][a]] succeed. *)
Definition has_bucket (results : OpinionStore) (p a : string) : bool :=
  match Dict.find p results with
  | Some by_area => Dict.mem a by_area
  | None => false
  end.

(** The keys of a store: its providers, each with its aspects, in order. *)
Definition shape (results : OpinionStore) : list (string * list string) :=
  map (fun item => (fst item, Dict.keys (snd item))) results.

(** The records one text contributes to the bucket of [p] and [a]. *)
Definition found (unicode : UnicodeData)
    (pipeline : string -> option (list PipelineItem))
    (tokenize : string -> list string) (text src link p a : string)
    (keywords : list string) : list OpinionRecord :=
  map (classified pipeline p a src link)
      (extract_relevant_sentences unicode tokenize (Some text) p keywords).

(** The stores the script can hold: the fresh one, and what the extraction
    loops make of such a store for one more text. *)
Inductive reachable (unicode : UnicodeData)
    (pipeline : string -> option (list PipelineItem))
    (tokenize : string -> list string) : OpinionStore -> Prop :=
| reach_fresh :
    reachable unicode pipeline tokenize
              (new_results Analyzer.providers Analyzer.key_areas)
| reach_text results results' text src link :
    reachable unicode pipeline tokenize results ->
    analyse_text unicode pipeline tokenize results text src link = Ok results' ->
    reachable unicode pipeline tokenize results'.


(** The rows the export makes of one bucket: none when it is empty. *)
Definition bucket_rows (results : OpinionStore) (p a : string)
    : list SummaryExport.Row :=
  match bucket results a p with
  | [] => []
  | _ :: _ => [export_row p a (bucket results a p)]
  end.

(** The rows about one provider and aspect. *)
Definition row_of (p a : string) (row : SummaryExport.Row) : bool :=
  String.eqb (SummaryExport.Provider row) p && String.eqb (SummaryExport.Area row) a.

(** The store after the extraction loops have run once, on [text], from the
    fresh store, with a pipeline that favours ["5 stars"] and a tokenizer
    that takes the text for one sentence. *)
Definition store_after (text : string) : OpinionStore :=
  match analyse_text latin1 five_star_pipeline one_sentence
          (new_results Analyzer.providers Analyzer.key_areas)
          text "r/Cloud - Post" "https://example.org/p" with
  | Ok results => results
  | _ => []
  end.

(** Case analysis on the comparisons of character codes in the goal. *)
Ltac compare_codes :=
  repeat (cbn [andb orb negb fst snd map];
          match goal with
          | |- context [(?a <=? ?b)%N] => destruct (N.leb_spec a b)
          | |- context [(?a <? ?b)%N] => destruct (N.ltb_spec a b)
          | |- context [(?a =? ?b)%N] => destruct (N.eqb_spec a b)
          end);
  cbn [andb orb negb fst snd map] in *; try reflexivity; try lia.

Ltac solve_wf :=
  unfold Dict.wf; simpl; repeat (constructor; simpl); intuition discriminate.

(** * Dictionaries *)

Module DictFacts.
Import Dict.

Section WithValue.
Context {V : Type}.
Implicit Types (d : dict V) (k : string) (v : V).

Lemma find_set_same k v d : find k (set k v d) = Some v.
Proof.
  induction d as [|[k' v'] d IH]; simpl.
  - now rewrite String.eqb_refl.
  - destruct (String.eqb k k') eqn:E; simpl.
    + now rewrite String.eqb_refl.
    + now rewrite E.
Qed.

Lemma find_set_other k k' v d : k <> k' -> find k' (set k v d) = find k' d.
Proof.
  intros Hne. induction d as [|[k0 v0] d IH]; simpl.
  - destruct (String.eqb k' k) eqn:E; [|reflexivity].
    apply String.eqb_eq in E. congruence.
  - destruct (String.eqb k k0) eqn:E; simpl.
    + apply String.eqb_eq in E. subst k0.
      destruct (String.eqb k' k) eqn:E'; [|reflexivity].
      apply String.eqb_eq in E'. congruence.
    + now rewrite IH.
Qed.

Lemma find_none_keys k d : find k d = None <-> ~ In k (keys d).
Proof.
  induction d as [|[k' v'] d IH]; simpl.
  - tauto.
  - destruct (String.eqb k k') eqn:E.
    + apply String.eqb_eq in E. subst. split; [discriminate | tauto].
    + apply String.eqb_neq in E. rewrite IH. split.
      * intros H [H'|H']; [congruence | tauto].
      * tauto.
Qed.

Lemma find_some_in k v d : find k d = Some v -> In (k, v) d.
Proof.
  induction d as [|[k' v'] d IH]; simpl; [discriminate|].
  destruct (String.eqb k k') eqn:E.
  - apply String.eqb_eq in E. intros [= ->]. subst. now left.
  - intros H. right. auto.
Qed.

Lemma in_find_wf k v d : wf d -> In (k, v) d -> find k d = Some v.
Proof.
  unfold wf. induction d as [|[k' v'] d IH]; simpl; [tauto|].
  intros Hnd [H|H].
  - injection H as -> ->. now rewrite String.eqb_refl.
  - inversion Hnd as [|? ? Hnotin Hnd']; subst.
    destruct (String.eqb k k') eqn:E.
    + apply String.eqb_eq in E. subst k'. exfalso. apply Hnotin.
      apply (in_map fst) in H. exact H.
    + auto.
Qed.

Lemma set_fresh k v d : find k d = None -> set k v d = (d ++ [(k, v)])%list.
Proof.
  induction d as [|[k' v'] d IH]; simpl; [reflexivity|].
  destruct (String.eqb k k'); [discriminate|].
  intros H. now rewrite IH.
Qed.

Lemma get_ok k d v : get k d = Ok v <-> find k d = Some v.
Proof.
  unfold get. destruct (find k d); split; intros H; inversion H; reflexivity.
Qed.

Lemma mem_find k d : mem k d = true <-> exists v, find k d = Some v.
Proof.
  unfold mem. destruct (find k d).
  - split; eauto.
  - split; [discriminate | intros [? ?]; discriminate].
Qed.

(** A loop of assignments [d[k] = f k] over a list of keys. *)
Lemma find_assign_loop (f : string -> V) (l : list string) d k :
  find k (fold_left (fun acc x => set x (f x) acc) l d)
  = if in_dec string_dec k l then Some (f k) else find k d.
Proof.
  revert d. induction l as [|x l IH]; intros d; simpl; [reflexivity|].
  rewrite IH. destruct (in_dec string_dec k l) as [Hin|Hnin].
  - destruct (string_dec x k); reflexivity.
  - destruct (string_dec x k) as [->|Hne].
    + apply find_set_same.
    + now apply find_set_other.
Qed.

(** Over distinct new keys the loop appends the bindings in order. *)
Lemma assign_loop_fresh (f : string -> V) (l : list string) d :
  NoDup l -> (forall x, In x l -> find x d = None) ->
  fold_left (fun acc x => set x (f x) acc) l d
  = (d ++ map (fun x => (x, f x)) l)%list.
Proof.
  revert d. induction l as [|x l IH]; intros d Hnd Hfresh; simpl.
  - now rewrite app_nil_r.
  - inversion Hnd as [|? ? Hx Hnd']; subst.
    rewrite set_fresh by (apply Hfresh; now left).
    rewrite IH; auto.
    + now rewrite <- app_assoc.
    + intros y Hy. rewrite <- set_fresh by (apply Hfresh; now left).
      rewrite find_set_other; [apply Hfresh; now right|].
      intros ->. contradiction.
Qed.

End WithValue.
End DictFacts.

(** * The score of one bucket *)

Lemma of_nat_pos n : (0 < n)%nat -> 0 < of_nat n.
Proof.
  intros H. unfold of_nat. change 0 with (inject_Z 0).
  rewrite <- Zlt_Qlt. lia.
Qed.

Lemma of_nat_le m n : (m <= n)%nat -> of_nat m <= of_nat n.
Proof.
  intros H. unfold of_nat. rewrite <- Zle_Qle. lia.
Qed.

Lemma of_nat_plus m n : of_nat (m + n) == of_nat m + of_nat n.
Proof.
  unfold of_nat. rewrite Nat2Z.inj_add. now rewrite inject_Z_plus.
Qed.

Lemma count_sentiment_labelled label opinions :
  count_sentiment label opinions = labelled label opinions.
Proof.
  unfold labelled. induction opinions as [|op rest IH]; simpl; [reflexivity|].
  destruct (String.eqb (sentiment op) label); simpl; now rewrite IH.
Qed.

Lemma labelled_le label opinions :
  (labelled label opinions <= List.length opinions)%nat.
Proof. apply filter_length_le. Qed.

(** A record carries at most one of the two labels. *)
Lemma labelled_disjoint opinions :
  (labelled "Positive" opinions + labelled "Negative" opinions
   <= List.length opinions)%nat.
Proof.
  unfold labelled. induction opinions as [|op rest IH]; simpl; [lia|].
  destruct (String.eqb (sentiment op) "Positive") eqn:EP;
    destruct (String.eqb (sentiment op) "Negative") eqn:EN; simpl; try lia.
  apply String.eqb_eq in EP. apply String.eqb_eq in EN. congruence.
Qed.

Lemma bucket_score_empty : bucket_score [] = Ok zero_score.
Proof. reflexivity. Qed.

Lemma bucket_score_nonempty op rest :
  bucket_score (op :: rest)
  = Ok (mkScore
          (of_nat (labelled "Positive" (op :: rest)) / of_nat (List.length (op :: rest))
           - of_nat (labelled "Negative" (op :: rest)) / of_nat (List.length (op :: rest)))
          (of_nat (labelled "Positive" (op :: rest)) / of_nat (List.length (op :: rest)))
          (of_nat (labelled "Negative" (op :: rest)) / of_nat (List.length (op :: rest)))
          (List.length (op :: rest))
          (Qsum (map confidence (op :: rest)) / of_nat (List.length (op :: rest)))).
Proof.
  unfold bucket_score.
  rewrite !count_sentiment_labelled.
  change (0 <? List.length (op :: rest))%nat with true. cbv iota.
  change (mean (map confidence (op :: rest)))
    with (Ok (Qsum (map confidence (op :: rest))
              / of_nat (List.length (map confidence (op :: rest))))).
  rewrite length_map. reflexivity.
Qed.

Lemma bucket_score_total opinions : bucket_score opinions = Ok (score_of opinions).
Proof.
  unfold score_of. destruct opinions as [|op rest].
  - reflexivity.
  - now rewrite bucket_score_nonempty.
Qed.

Lemma ratio_bounds c n :
  (0 < n)%nat -> (c <= n)%nat -> 0 <= of_nat c / of_nat n /\ of_nat c / of_nat n <= 1.
Proof.
  intros Hn Hc. pose proof (of_nat_pos n Hn) as Hpos. split.
  - apply Qle_shift_div_l; [exact Hpos|]. rewrite Qmult_0_l.
    change 0 with (of_nat 0). apply of_nat_le. lia.
  - apply Qle_shift_div_r; [exact Hpos|]. rewrite Qmult_1_l. now apply of_nat_le.
Qed.

Lemma ratio_sum_bound a b n :
  (0 < n)%nat -> (a + b <= n)%nat -> of_nat a / of_nat n + of_nat b / of_nat n <= 1.
Proof.
  intros Hn Hab. pose proof (of_nat_pos n Hn) as Hpos.
  assert (E : of_nat a / of_nat n + of_nat b / of_nat n == of_nat (a + b) / of_nat n).
  { rewrite of_nat_plus. field. intros H0. rewrite H0 in Hpos. now apply Qlt_irrefl in Hpos. }
  rewrite E. apply ratio_bounds; assumption.
Qed.

(** * The loops of [calculate_provider_rankings] *)

Lemma score_providers_ok results asp ps acc :
  (forall p, In p ps ->
     exists m, Dict.find p results = Some m /\ Dict.mem asp m = true) ->
  score_providers results asp ps acc
  = Ok (fold_left (fun acc p => Dict.set p (score_of (bucket results asp p)) acc) ps acc).
Proof.
  revert acc. induction ps as [|p ps IH]; intros acc H; simpl; [reflexivity|].
  destruct (H p (or_introl eq_refl)) as (m & Hm & Hmem).
  apply DictFacts.mem_find in Hmem. destruct Hmem as (ops & Hops).
  unfold Dict.get at 1. rewrite Hm. simpl.
  unfold Dict.get at 1. rewrite Hops. simpl.
  rewrite bucket_score_total. simpl.
  assert (Hb : bucket results asp p = ops)
    by (unfold bucket; now rewrite Hm, Hops).
  rewrite Hb. apply IH. intros q Hq. apply H. now right.
Qed.

(** A failing run of the inner loop fails on the aspect key. *)
Lemma score_providers_fail results asp ps acc p m :
  (forall q, In q ps -> exists mq, Dict.find q results = Some mq) ->
  In p ps -> Dict.find p results = Some m -> Dict.find asp m = None ->
  score_providers results asp ps acc = KeyError asp.
Proof.
  revert acc. induction ps as [|q ps IH]; intros acc Hall Hin Hm Hnone; [contradiction|].
  simpl. destruct (Hall q (or_introl eq_refl)) as (mq & Hmq).
  unfold Dict.get at 1. rewrite Hmq. simpl.
  unfold Dict.get at 1. destruct (Dict.find asp mq) as [ops|] eqn:Hops; simpl.
  - rewrite bucket_score_total. simpl.
    destruct Hin as [->|Hin].
    + rewrite Hm in Hmq. injection Hmq as <-. congruence.
    + apply IH; auto. intros r Hr. apply Hall. now right.
  - reflexivity.
Qed.

Lemma find_key_in {V : Type} (d : dict V) k :
  In k (Dict.keys d) -> exists v, Dict.find k d = Some v.
Proof.
  intros H. destruct (Dict.find k d) eqn:E; [eauto|].
  apply DictFacts.find_none_keys in E. contradiction.
Qed.

Lemma covers_first_aspects_lookup results a p :
  covers_first_aspects results = true ->
  In a (first_aspects results) -> In p (Dict.keys results) ->
  exists m, Dict.find p results = Some m /\ Dict.mem a m = true.
Proof.
  unfold covers_first_aspects, all_have. rewrite forallb_forall. intros Hc Ha Hp.
  destruct (find_key_in results p Hp) as (m & Hm).
  exists m. split; [exact Hm|].
  specialize (Hc a Ha). rewrite forallb_forall in Hc.
  apply (Hc (p, m)). now apply DictFacts.find_some_in.
Qed.

Lemma rank_aspects_ok results aspects acc :
  (forall a p, In a aspects -> In p (Dict.keys results) ->
     exists m, Dict.find p results = Some m /\ Dict.mem a m = true) ->
  rank_aspects results aspects acc
  = Ok (fold_left (fun acc a => Dict.set a (rank_aspect (scores_of results a)) acc)
                  aspects acc).
Proof.
  revert acc. induction aspects as [|a aspects IH]; intros acc H; simpl; [reflexivity|].
  rewrite score_providers_ok by (intros p Hp; apply H; [now left | exact Hp]).
  simpl. fold (scores_of results a). apply IH.
  intros b p Hb Hp. apply H; [now right | exact Hp].
Qed.

Lemma first_lookup (results : OpinionStore) p m rest :
  results = (p, m) :: rest -> Dict.get p results = Ok m.
Proof. intros ->. unfold Dict.get. simpl. now rewrite String.eqb_refl. Qed.

Lemma calculate_provider_rankings_ok results :
  covers_first_aspects results = true ->
  calculate_provider_rankings results = Ok (rankings_of results).
Proof.
  intros Hc. unfold calculate_provider_rankings, rankings_of.
  destruct results as [|[fp fm] rest] eqn:E; [reflexivity|].
  rewrite <- E in *. rewrite (first_lookup results fp fm rest E). simpl.
  replace (first_aspects results) with (Dict.keys fm) by now rewrite E.
  apply rank_aspects_ok. intros a p Ha Hp.
  apply covers_first_aspects_lookup; auto. now rewrite E.
Qed.

Lemma all_have_lookup results a :
  all_have results a = true ->
  forall p, In p (Dict.keys results) ->
    exists m, Dict.find p results = Some m /\ Dict.mem a m = true.
Proof.
  unfold all_have. rewrite forallb_forall. intros H p Hp.
  destruct (find_key_in results p Hp) as (m & Hm). exists m. split; [exact Hm|].
  apply (H (p, m)). now apply DictFacts.find_some_in.
Qed.

Lemma all_have_missing results a :
  all_have results a = false ->
  exists p m, In (p, m) results /\ Dict.mem a m = false.
Proof.
  unfold all_have. intros H.
  destruct (forallb (fun item => Dict.mem a (snd item)) results) eqn:E; [discriminate|].
  clear H. induction results as [|[p m] rest IH]; simpl in E; [discriminate|].
  destruct (Dict.mem a m) eqn:Em; simpl in E.
  - destruct (IH E) as (p' & m' & Hin & Hm'). exists p', m'. split; [now right | exact Hm'].
  - exists p, m. split; [now left | exact Em].
Qed.

Lemma mem_false_find {V : Type} k (d : dict V) : Dict.mem k d = false -> Dict.find k d = None.
Proof. unfold Dict.mem. now destruct (Dict.find k d). Qed.

Lemma rank_aspects_fail results aspects acc :
  Dict.wf results ->
  forallb (all_have results) aspects = false ->
  exists a p m, In a aspects /\ In (p, m) results /\ Dict.find a m = None
                /\ rank_aspects results aspects acc = KeyError a.
Proof.
  intros Hwf. revert acc. induction aspects as [|a aspects IH]; intros acc H; simpl in H.
  - discriminate.
  - simpl. destruct (all_have results a) eqn:Ea; simpl in H.
    + rewrite score_providers_ok by (apply all_have_lookup; exact Ea). simpl.
      destruct (IH (Dict.set a (rank_aspect (scores_of results a)) acc) H)
        as (b & p & m & Hb & Hin & Hnone & Hres).
      exists b, p, m. repeat split; auto.
    + destruct (all_have_missing results a Ea) as (p & m & Hin & Hmem).
      exists a, p, m. split; [now left|]. split; [exact Hin|].
      split; [now apply mem_false_find|].
      rewrite (score_providers_fail results a (Dict.keys results) [] p m); auto.
      * intros q Hq. now apply find_key_in.
      * apply (in_map fst) in Hin. exact Hin.
      * now apply DictFacts.in_find_wf.
      * now apply mem_false_find.
Qed.

Lemma rankings_lookup results p m a opinions :
  Dict.wf results ->
  In (p, m) results -> In a (first_aspects results) ->
  Dict.find a m = Some opinions ->
  exists data,
    Dict.find a (rankings_of results) = Some data
    /\ Dict.find p (provider_scores data) = Some (score_of opinions).
Proof.
  intros Hwf Hin Ha Hops.
  exists (rank_aspect (scores_of results a)). split.
  - unfold rankings_of. rewrite DictFacts.find_assign_loop.
    destruct (in_dec string_dec a (first_aspects results)); [reflexivity | contradiction].
  - simpl. unfold scores_of. rewrite DictFacts.find_assign_loop.
    destruct (in_dec string_dec p (Dict.keys results)) as [_|Hn].
    + unfold bucket. rewrite (DictFacts.in_find_wf p m results Hwf Hin), Hops. reflexivity.
    + exfalso. apply Hn. apply (in_map fst) in Hin. exact Hin.
Qed.

Lemma sample_store_wf : Dict.wf sample_store.
Proof. solve_wf. Qed.

Lemma labelled_scored_only label opinions :
  label <> "Neutral" -> label <> "Error" ->
  labelled label (scored_only opinions) = labelled label opinions.
Proof.
  intros Hn He. unfold labelled, scored_only, unscored.
  induction opinions as [|op rest IH]; simpl; [reflexivity|].
  destruct (String.eqb (sentiment op) label) eqn:El.
  - apply String.eqb_eq in El.
    destruct (String.eqb (sentiment op) "Neutral") eqn:E1;
      [apply String.eqb_eq in E1; congruence|].
    destruct (String.eqb (sentiment op) "Error") eqn:E2;
      [apply String.eqb_eq in E2; congruence|].
    simpl. apply String.eqb_eq in El. rewrite El. simpl. now rewrite IH.
  - destruct (negb _); simpl; [rewrite El|]; exact IH.
Qed.

(** * Claims about [calculate_provider_rankings] *)

(** C9.  The aspects are those of the first provider's mapping and each is
    looked up in every provider's mapping.  When every provider's mapping has
    all of them the function returns (the rankings [rankings_of] describes);
    when some provider lacks one, the lookup raises [KeyError] on a missing
    aspect. *)
Theorem aspect_lookup_defined_iff_covered (results : OpinionStore) :
  Dict.wf results ->
  (covers_first_aspects results = true ->
     calculate_provider_rankings results = Ok (rankings_of results))
  /\ (covers_first_aspects results = false ->
        exists a p m,
          In a (first_aspects results) /\ In (p, m) results
          /\ Dict.find a m = None
          /\ calculate_provider_rankings results = KeyError a).
Proof.
  intros Hwf. split.
  - apply calculate_provider_rankings_ok.
  - intros Hc. unfold calculate_provider_rankings.
    destruct results as [|[fp fm] rest] eqn:E; [discriminate|].
    rewrite <- E in *. rewrite (first_lookup results fp fm rest E). simpl.
    unfold covers_first_aspects in Hc.
    replace (first_aspects results) with (Dict.keys fm) in * by now rewrite E.
    apply rank_aspects_fail; assumption.
Qed.

Lemma aspect_lookup_defined_iff_covered_witness :
  Dict.wf sample_store
  /\ calculate_provider_rankings sample_store = Ok (rankings_of sample_store).
Proof.
  split; [exact sample_store_wf|].
  apply (proj1 (aspect_lookup_defined_iff_covered sample_store sample_store_wf)).
  reflexivity.
Defined.

(** C1.  Whenever the ranking is defined, the score stored for a provider
    and an aspect is the zero score for an empty bucket; for a non-empty
    bucket the total is the bucket length, each ratio is the number of
    records with that label over the total, the sentiment score is their
    difference and the average confidence is the mean over all records.
    Records labelled Neutral or Error are counted in the total and the mean
    but in neither numerator: dropping them from the bucket leaves both
    numerators unchanged. *)
Theorem bucket_score_fields (results : OpinionStore) :
  Dict.wf results ->
  covers_first_aspects results = true ->
  exists rankings,
    calculate_provider_rankings results = Ok rankings
    /\ forall p by_aspect a opinions,
         In (p, by_aspect) results ->
         In a (first_aspects results) ->
         Dict.find a by_aspect = Some opinions ->
         exists data sc,
           Dict.find a rankings = Some data
           /\ Dict.find p (provider_scores data) = Some sc
           /\ (opinions = [] -> sc = mkScore 0 0 0 0 0)
           /\ (opinions <> [] ->
                 total_opinions sc = List.length opinions
                 /\ positive_ratio sc
                    = of_nat (labelled "Positive" opinions) / of_nat (total_opinions sc)
                 /\ negative_ratio sc
                    = of_nat (labelled "Negative" opinions) / of_nat (total_opinions sc)
                 /\ sentiment_score sc = positive_ratio sc - negative_ratio sc
                 /\ avg_confidence sc
                    = Qsum (map confidence opinions) / of_nat (List.length opinions)
                 /\ positive_ratio sc
                    = of_nat (labelled "Positive" (scored_only opinions))
                      / of_nat (List.length opinions)
                 /\ negative_ratio sc
                    = of_nat (labelled "Negative" (scored_only opinions))
                      / of_nat (List.length opinions)).
Proof.
  intros Hwf Hc. exists (rankings_of results).
  split; [now apply calculate_provider_rankings_ok|].
  intros p m a opinions Hin Ha Hops.
  destruct (rankings_lookup results p m a opinions Hwf Hin Ha Hops) as (data & Hd & Hs).
  exists data, (score_of opinions). split; [exact Hd|]. split; [exact Hs|].
  split.
  - intros ->. reflexivity.
  - intros Hne. destruct opinions as [|op rest]; [congruence|].
    unfold score_of. rewrite bucket_score_nonempty.
    rewrite !labelled_scored_only by discriminate.
    cbn [total_opinions positive_ratio negative_ratio sentiment_score avg_confidence].
    repeat split; reflexivity.
Qed.

Lemma bucket_score_fields_witness :
  Dict.wf sample_store
  /\ covers_first_aspects sample_store = true
  /\ exists rankings,
       calculate_provider_rankings sample_store = Ok rankings
       /\ exists data sc,
            Dict.find "cost" rankings = Some data
            /\ Dict.find "AWS" (provider_scores data) = Some sc
            /\ total_opinions sc = 4%nat
            /\ positive_ratio sc = of_nat 2 / of_nat 4.
Proof.
  split; [exact sample_store_wf|]. split; [reflexivity|].
  destruct (bucket_score_fields sample_store sample_store_wf eq_refl)
    as (rankings & Hr & Hall).
  exists rankings. split; [exact Hr|].
  destruct (Hall "AWS" _ "cost" _ (or_introl eq_refl) (or_introl eq_refl) eq_refl)
    as (data & sc & Hd & Hs & _ & Hne).
  exists data, sc. split; [exact Hd|]. split; [exact Hs|].
  destruct Hne as (Ht & Hp & _); [discriminate|].
  split; [exact Ht|]. rewrite Hp, Ht. reflexivity.
Defined.

(** C7.  For a non-empty bucket the stored score lies in [-1, 1], both
    ratios lie in [0, 1] and their sum is at most 1. *)
Theorem bucket_score_bounds (results : OpinionStore) :
  Dict.wf results ->
  covers_first_aspects results = true ->
  exists rankings,
    calculate_provider_rankings results = Ok rankings
    /\ forall p by_aspect a opinions,
         In (p, by_aspect) results ->
         In a (first_aspects results) ->
         Dict.find a by_aspect = Some opinions ->
         opinions <> [] ->
         exists data sc,
           Dict.find a rankings = Some data
           /\ Dict.find p (provider_scores data) = Some sc
           /\ -1 <= sentiment_score sc /\ sentiment_score sc <= 1
           /\ 0 <= positive_ratio sc /\ positive_ratio sc <= 1
           /\ 0 <= negative_ratio sc /\ negative_ratio sc <= 1
           /\ positive_ratio sc + negative_ratio sc <= 1.
Proof.
  intros Hwf Hc. exists (rankings_of results).
  split; [now apply calculate_provider_rankings_ok|].
  intros p m a opinions Hin Ha Hops Hne.
  destruct (rankings_lookup results p m a opinions Hwf Hin Ha Hops) as (data & Hd & Hs).
  exists data, (score_of opinions). split; [exact Hd|]. split; [exact Hs|].
  destruct opinions as [|op rest]; [congruence|].
  unfold score_of. rewrite bucket_score_nonempty.
  cbn [total_opinions positive_ratio negative_ratio sentiment_score avg_confidence].
  set (ops := op :: rest).
  assert (Hlen : (0 < List.length ops)%nat) by (simpl; lia).
  destruct (ratio_bounds (labelled "Positive" ops) (List.length ops) Hlen
              (labelled_le _ _)) as [Hp0 Hp1].
  destruct (ratio_bounds (labelled "Negative" ops) (List.length ops) Hlen
              (labelled_le _ _)) as [Hn0 Hn1].
  pose proof (ratio_sum_bound _ _ _ Hlen (labelled_disjoint ops)) as Hsum.
  repeat split; try assumption; lra.
Qed.

Lemma bucket_score_bounds_witness :
  Dict.wf sample_store
  /\ covers_first_aspects sample_store = true
  /\ exists rankings,
       calculate_provider_rankings sample_store = Ok rankings
       /\ exists data sc,
            Dict.find "support" rankings = Some data
            /\ Dict.find "GCP" (provider_scores data) = Some sc
            /\ -1 <= sentiment_score sc <= 1
            /\ positive_ratio sc + negative_ratio sc <= 1.
Proof.
  split; [exact sample_store_wf|]. split; [reflexivity|].
  destruct (bucket_score_bounds sample_store sample_store_wf eq_refl)
    as (rankings & Hr & Hall).
  exists rankings. split; [exact Hr|].
  destruct (Hall "GCP" _ "support" _ (or_intror (or_introl eq_refl))
              (or_intror (or_introl eq_refl)) eq_refl)
    as (data & sc & Hd & Hs & H1 & H2 & _ & _ & _ & _ & H7); [discriminate|].
  exists data, sc. repeat split; assumption.
Defined.

(** * The stable descending sort *)

Section SortFacts.
Context {A : Type} (key : A -> Q).

Lemma Qltb_lt x y : Qltb x y = true <-> x < y.
Proof.
  unfold Qltb. rewrite negb_true_iff. split.
  - intros H. apply Qnot_le_lt. intros Hle.
    apply Qle_bool_iff in Hle. congruence.
  - intros H. destruct (Qle_bool y x) eqn:E; [|reflexivity].
    apply Qle_bool_iff in E. exfalso. now apply (Qlt_not_le x y).
Qed.

Lemma Qltb_ge x y : Qltb x y = false <-> y <= x.
Proof.
  unfold Qltb. rewrite negb_false_iff. apply Qle_bool_iff.
Qed.

Lemma insert_desc_perm x l : Permutation (x :: l) (insert_desc key x l).
Proof.
  induction l as [|y l IH]; simpl; [reflexivity|].
  destruct (Qltb (key x) (key y)); [|reflexivity].
  rewrite perm_swap. now constructor.
Qed.

Lemma sorted_desc_perm l : Permutation l (sorted_desc key l).
Proof.
  induction l as [|x l IH]; simpl; [constructor|].
  rewrite <- insert_desc_perm. now constructor.
Qed.

Lemma insert_desc_descending x l :
  descending key l -> descending key (insert_desc key x l).
Proof.
  unfold descending. induction l as [|y l IH]; intros Hs; simpl.
  - repeat constructor.
  - inversion Hs as [|? ? Hs' Hall]; subst.
    destruct (Qltb (key x) (key y)) eqn:E.
    + apply Qltb_lt in E. constructor; [now apply IH|].
      apply Forall_forall. intros z Hz.
      apply (Permutation_in _ (Permutation_sym (insert_desc_perm x l))) in Hz.
      destruct Hz as [<-|Hz].
      * now apply Qlt_le_weak.
      * rewrite Forall_forall in Hall. now apply Hall.
    + apply Qltb_ge in E. constructor; [exact Hs|].
      constructor; [exact E|].
      apply Forall_forall. intros z Hz. rewrite Forall_forall in Hall.
      apply Qle_trans with (key y); [now apply Hall | exact E].
Qed.

Lemma sorted_desc_descending l : descending key (sorted_desc key l).
Proof.
  induction l as [|x l IH]; simpl; [constructor|].
  now apply insert_desc_descending.
Qed.

(** Inserting moves [x] only past elements with a strictly larger key. *)
Lemma insert_desc_ties x l v :
  filter (fun z => Qeq_bool (key z) v) (insert_desc key x l)
  = filter (fun z => Qeq_bool (key z) v) (x :: l).
Proof.
  induction l as [|y l IH]; [reflexivity|].
  cbn [insert_desc]. destruct (Qltb (key x) (key y)) eqn:E; [|reflexivity].
  cbn [filter] in *. rewrite IH.
  destruct (Qeq_bool (key x) v) eqn:Ex; destruct (Qeq_bool (key y) v) eqn:Ey;
    try reflexivity.
  apply Qeq_bool_iff in Ex. apply Qeq_bool_iff in Ey. apply Qltb_lt in E.
  rewrite Ex, Ey in E. now apply Qlt_irrefl in E.
Qed.

Lemma sorted_desc_stable l : same_order_on_ties key l (sorted_desc key l).
Proof.
  intros v. induction l as [|x l IH]; [reflexivity|].
  cbn [sorted_desc fold_right]. rewrite insert_desc_ties.
  cbn [filter]. unfold sorted_desc in IH. now rewrite IH.
Qed.

End SortFacts.

Lemma head_key_first {V : Type} (l : list (string * V)) :
  head_key l = option_map fst (nth_error l 0).
Proof. destruct l as [|[k v] l]; reflexivity. Qed.

Lemma last_key_last {V : Type} (l : list (string * V)) :
  last_key l = option_map fst (nth_error l (List.length l - 1)).
Proof.
  induction l as [|[k v] l IH]; [reflexivity|].
  destruct l as [|kv l']; [reflexivity|].
  change (last_key ((k, v) :: kv :: l')) with (last_key (kv :: l')).
  rewrite IH. simpl. now rewrite Nat.sub_0_r.
Qed.

Lemma scores_of_keys results a :
  Dict.wf results -> Dict.keys (scores_of results a) = Dict.keys results.
Proof.
  intros Hwf. unfold scores_of.
  rewrite DictFacts.assign_loop_fresh; [|exact Hwf|reflexivity].
  unfold Dict.keys. simpl. rewrite map_map. simpl. apply map_id.
Qed.

Lemma rankings_of_find results a data :
  Dict.find a (rankings_of results) = Some data ->
  In a (first_aspects results) /\ data = rank_aspect (scores_of results a).
Proof.
  unfold rankings_of. rewrite DictFacts.find_assign_loop.
  destruct (in_dec string_dec a (first_aspects results)); [|discriminate].
  intros [= <-]. now split.
Qed.

(** C2.  In every aspect of the output the provider scores are keyed in the
    enumeration order of the providers, the ranked list is a rearrangement of
    them with the larger sentiment score first, providers with equal scores
    stay in their enumeration order, the best provider is the one at index 0
    and the worst the one at the last index, both absent when no provider is
    ranked; the output is a function of the store. *)
Theorem ranking_sorted_and_stable (results : OpinionStore) :
  Dict.wf results ->
  covers_first_aspects results = true ->
  exists rankings,
    calculate_provider_rankings results = Ok rankings
    /\ (forall other, calculate_provider_rankings results = Ok other -> other = rankings)
    /\ (forall a, In a (first_aspects results) -> Dict.mem a rankings = true)
    /\ forall a data,
         Dict.find a rankings = Some data ->
         let ranked := ranked_providers data in
         Dict.keys (provider_scores data) = Dict.keys results
         /\ Permutation (Dict.items (provider_scores data)) ranked
         /\ descending score_key ranked
         /\ same_order_on_ties score_key (Dict.items (provider_scores data)) ranked
         /\ best_provider data = option_map fst (nth_error ranked 0)
         /\ worst_provider data = option_map fst (nth_error ranked (List.length ranked - 1))
         /\ (ranked = [] -> best_provider data = None /\ worst_provider data = None).
Proof.
  intros Hwf Hc. exists (rankings_of results).
  pose proof (calculate_provider_rankings_ok results Hc) as Hok.
  split; [exact Hok|]. split; [intros other Ho; congruence|]. split.
  - intros a Ha. apply DictFacts.mem_find. unfold rankings_of.
    rewrite DictFacts.find_assign_loop.
    destruct (in_dec string_dec a (first_aspects results)); [eauto | contradiction].
  - intros a data Hd. apply rankings_of_find in Hd. destruct Hd as [Ha ->].
    cbn [ranked_providers provider_scores best_provider worst_provider rank_aspect].
    fold score_key. cbv zeta.
    split; [now apply scores_of_keys|].
    split; [apply sorted_desc_perm|].
    split; [apply sorted_desc_descending|].
    split; [apply sorted_desc_stable|].
    split; [apply head_key_first|].
    split; [apply last_key_last|].
    intros ->. now split.
Qed.

Lemma ranking_sorted_and_stable_witness :
  Dict.wf sample_store
  /\ covers_first_aspects sample_store = true
  /\ exists rankings,
       calculate_provider_rankings sample_store = Ok rankings
       /\ forall a data,
            Dict.find a rankings = Some data ->
            descending score_key (ranked_providers data)
            /\ same_order_on_ties score_key (Dict.items (provider_scores data))
                                  (ranked_providers data).
Proof.
  split; [exact sample_store_wf|]. split; [reflexivity|].
  destruct (ranking_sorted_and_stable sample_store sample_store_wf eq_refl)
    as (rankings & Hr & _ & _ & Hall).
  exists rankings. split; [exact Hr|].
  intros a data Hd. destruct (Hall a data Hd) as (_ & _ & Hs & Ht & _).
  split; assumption.
Defined.

(** * The loops of [calculate_overall_provider_rankings] *)

Lemma py_min_Qmin a b : py_min a b == Qmin a b.
Proof.
  unfold py_min. destruct (Qltb b a) eqn:E.
  - apply Qltb_lt in E. symmetry. apply Q.min_r. now apply Qlt_le_weak.
  - apply Qltb_ge in E. symmetry. now apply Q.min_l.
Qed.

Lemma collect_scores_ok p datas acc tot :
  (forall data, In data datas -> Dict.mem p (provider_scores data) = true) ->
  collect_scores p datas acc tot
  = Ok ((acc ++ map (fun data => sentiment_score (entry p data)) datas)%list,
        (tot + list_sum (map (fun data => total_opinions (entry p data)) datas))%nat).
Proof.
  revert acc tot. induction datas as [|data datas IH]; intros acc tot H; simpl.
  - now rewrite app_nil_r, Nat.add_0_r.
  - destruct (proj1 (DictFacts.mem_find _ _) (H data (or_introl eq_refl))) as (sc & Hsc).
    unfold Dict.get. rewrite Hsc. simpl.
    rewrite IH by (intros d Hd; apply H; now right).
    unfold entry at 3 5. rewrite Hsc.
    now rewrite <- app_assoc, Nat.add_assoc.
Qed.

Lemma scored_everywhere_values ar p :
  scored_everywhere ar p = true ->
  forall data, In data (Dict.values ar) -> Dict.mem p (provider_scores data) = true.
Proof.
  unfold scored_everywhere, Dict.values. rewrite forallb_forall.
  intros H data Hd. apply in_map_iff in Hd. destruct Hd as (item & <- & Hin).
  now apply H.
Qed.

Lemma overall_loop_ok ar ps acc :
  ar <> [] ->
  (forall p, In p ps -> scored_everywhere ar p = true) ->
  overall_loop ar ps acc
  = Ok (fold_left (fun acc p => Dict.set p (assigned_score ar p) acc) ps acc).
Proof.
  intros Hne. revert acc. induction ps as [|p ps IH]; intros acc H; simpl; [reflexivity|].
  rewrite collect_scores_ok
    by (apply scored_everywhere_values; apply H; now left).
  cbn [bind app].
  destruct ar as [|[a0 d0] ar']; [congruence|].
  cbn [Dict.values map mean bind].
  rewrite IH by (intros q Hq; apply H; now right).
  reflexivity.
Qed.

Lemma assigned_score_weighted ar p : assigned_score ar p == weighted_score ar p.
Proof.
  unfold assigned_score, weighted_score, mean_score, dampener, opinions_across,
    Dict.values.
  rewrite py_min_Qmin, !map_map, !length_map. reflexivity.
Qed.

Lemma in_set_cases {V : Type} k (v : V) d kv :
  In kv (Dict.set k v d) -> kv = (k, v) \/ In kv d.
Proof.
  induction d as [|[k' v'] d IH]; simpl.
  - intros [<-|[]]. now left.
  - destruct (String.eqb k k'); simpl.
    + intros [<-|H]; [now left | right; now right].
    + intros [<-|H]; [right; now left|].
      destruct (IH H) as [->|H']; [now left | right; now right].
Qed.

Lemma in_assign_loop {V : Type} (f : string -> V) l d k v :
  In (k, v) (fold_left (fun acc x => Dict.set x (f x) acc) l d) ->
  In (k, v) d \/ (In k l /\ v = f k).
Proof.
  revert d. induction l as [|x l IH]; intros d; simpl; [now left|].
  intros H. destruct (IH _ H) as [H'|[Hin ->]].
  - apply in_set_cases in H'. destruct H' as [[= -> ->]|H']; [|now left].
    right. split; [now left | reflexivity].
  - right. split; [now right | reflexivity].
Qed.

Lemma score_providers_inv results asp ps acc out :
  score_providers results asp ps acc = Ok out ->
  out = fold_left (fun acc p => Dict.set p (score_of (bucket results asp p)) acc) ps acc.
Proof.
  revert acc. induction ps as [|p ps IH]; intros acc; simpl.
  - now intros [= <-].
  - unfold Dict.get at 1. destruct (Dict.find p results) as [m|] eqn:Hm; [|discriminate].
    simpl. unfold Dict.get at 1.
    destruct (Dict.find asp m) as [ops|] eqn:Hops; [|discriminate].
    simpl. rewrite bucket_score_total. simpl.
    assert (Hb : bucket results asp p = ops) by (unfold bucket; now rewrite Hm, Hops).
    rewrite Hb. apply IH.
Qed.

Lemma rank_aspects_inv results aspects acc out :
  rank_aspects results aspects acc = Ok out ->
  out = fold_left (fun acc a => Dict.set a (rank_aspect (scores_of results a)) acc)
                  aspects acc.
Proof.
  revert acc. induction aspects as [|a aspects IH]; intros acc; simpl.
  - now intros [= <-].
  - destruct (score_providers results a (Dict.keys results) []) as [scores| |] eqn:E;
      try discriminate.
    apply score_providers_inv in E. subst scores. simpl. apply IH.
Qed.

Lemma calculate_provider_rankings_inv results rankings :
  calculate_provider_rankings results = Ok rankings -> rankings = rankings_of results.
Proof.
  unfold calculate_provider_rankings, rankings_of.
  destruct results as [|[fp fm] rest] eqn:E; [now intros [= <-]|].
  rewrite <- E. rewrite (first_lookup results fp fm rest E). simpl.
  replace (first_aspects results) with (Dict.keys fm) by now rewrite E.
  apply rank_aspects_inv.
Qed.

Lemma scores_of_mem results a p :
  Dict.mem p (scores_of results a) = true <-> In p (Dict.keys results).
Proof.
  unfold Dict.mem, scores_of. rewrite DictFacts.find_assign_loop.
  destruct (in_dec string_dec p (Dict.keys results)); simpl; split; auto; discriminate.
Qed.

Lemma rankings_of_items results a data :
  In (a, data) (rankings_of results) -> data = rank_aspect (scores_of results a).
Proof.
  unfold rankings_of. intros H. apply in_assign_loop in H.
  destruct H as [[]|[_ ->]]. reflexivity.
Qed.

(** The rankings the first stage produces score the same providers in every
    aspect. *)
Lemma rankings_of_covered results : providers_covered (rankings_of results) = true.
Proof.
  unfold providers_covered. apply forallb_forall. intros p Hp.
  assert (Hkey : In p (Dict.keys results)).
  { destruct (rankings_of results) as [|[a0 d0] rest] eqn:E; [contradiction|].
    assert (Hin : In (a0, d0) (rankings_of results)) by (rewrite E; now left).
    apply rankings_of_items in Hin. subst d0. simpl in Hp.
    apply scores_of_mem with (a := a0). apply DictFacts.mem_find.
    now apply find_key_in. }
  unfold scored_everywhere. apply forallb_forall. intros [a data] Hin.
  apply rankings_of_items in Hin. subst data. simpl. now apply scores_of_mem.
Qed.

Lemma zero_total_zero_score opinions :
  total_opinions (score_of opinions) = 0%nat -> sentiment_score (score_of opinions) = 0.
Proof.
  destruct opinions as [|op rest]; [reflexivity|].
  unfold score_of. rewrite bucket_score_nonempty. simpl. discriminate.
Qed.

Lemma overall_run ar :
  ar <> [] -> providers_covered ar = true ->
  calculate_overall_provider_rankings ar
  = Ok (sorted_desc snd
          (Dict.items
             (fold_left (fun acc p => Dict.set p (assigned_score ar p) acc)
                        (first_providers ar) []))).
Proof.
  intros Hne Hcov. unfold providers_covered in Hcov. rewrite forallb_forall in Hcov.
  destruct ar as [|[a0 d0] ar']; [congruence|].
  unfold calculate_overall_provider_rankings.
  change (Dict.keys (provider_scores d0)) with (first_providers ((a0, d0) :: ar')).
  rewrite overall_loop_ok; [reflexivity | exact Hne | exact Hcov].
Qed.

(** * Claims about [calculate_overall_provider_rankings] *)

(** C3.  On empty input the overall ranking is empty.  On a non-empty input
    whose aspects all score the providers of the first aspect, the function
    returns a list sorted by descending score that holds exactly those
    providers, each with the mean of its sentiment scores over all aspects
    times [min(1, total/100)], the total being its opinions summed over all
    aspects; with 50 opinions and mean 0.8 the score is 0.4.  Rankings
    produced by [calculate_provider_rankings] satisfy the precondition, and in
    them a bucket without opinions contributes the score 0. *)
Theorem overall_ranking_weighted :
  calculate_overall_provider_rankings [] = Ok []
  /\ (forall ar,
        ar <> [] -> providers_covered ar = true ->
        exists overall,
          calculate_overall_provider_rankings ar = Ok overall
          /\ descending snd overall
          /\ (forall p, In p (first_providers ar) -> exists s, In (p, s) overall)
          /\ (forall p s,
                In (p, s) overall ->
                In p (first_providers ar)
                /\ s == weighted_score ar p
                /\ (opinions_across ar p = 50%nat -> mean_score ar p == 8 # 10 ->
                    s == 4 # 10)))
  /\ (forall results rankings,
        calculate_provider_rankings results = Ok rankings ->
        providers_covered rankings = true
        /\ forall a data p sc,
             Dict.find a rankings = Some data ->
             Dict.find p (provider_scores data) = Some sc ->
             total_opinions sc = 0%nat -> sentiment_score sc = 0).
Proof.
  split; [reflexivity|]. split.
  - intros ar Hne Hcov.
    set (scores := fold_left (fun acc p => Dict.set p (assigned_score ar p) acc)
                             (first_providers ar) []).
    exists (sorted_desc snd (Dict.items scores)).
    pose proof (overall_run ar Hne Hcov) as Hrun. fold scores in Hrun.
    split; [exact Hrun|]. split; [apply sorted_desc_descending|]. split.
    + intros p Hp. exists (assigned_score ar p).
      apply (Permutation_in _ (sorted_desc_perm snd (Dict.items scores))).
      apply DictFacts.find_some_in. unfold scores, Dict.items.
      rewrite DictFacts.find_assign_loop.
      destruct (in_dec string_dec p (first_providers ar)); [reflexivity | contradiction].
    + intros p s Hin.
      apply (Permutation_in _ (Permutation_sym (sorted_desc_perm snd (Dict.items scores))))
        in Hin.
      unfold scores, Dict.items in Hin. apply in_assign_loop in Hin. destruct Hin as [[]|[Hp ->]].
      split; [exact Hp|]. split; [apply assigned_score_weighted|].
      intros Htot Hmean. rewrite assigned_score_weighted.
      unfold weighted_score, dampener. rewrite Htot, Hmean. reflexivity.
  - intros results rankings Hr.
    apply calculate_provider_rankings_inv in Hr. subst rankings.
    split; [apply rankings_of_covered|].
    intros a data p sc Hd Hsc Hzero.
    apply rankings_of_find in Hd. destruct Hd as [_ ->]. simpl in Hsc.
    unfold scores_of in Hsc. rewrite DictFacts.find_assign_loop in Hsc.
    destruct (in_dec string_dec p (Dict.keys results)); [|discriminate].
    injection Hsc as <-. now apply zero_total_zero_score.
Qed.

Lemma overall_ranking_weighted_witness :
  sample_rankings <> []
  /\ providers_covered sample_rankings = true
  /\ exists overall,
       calculate_overall_provider_rankings sample_rankings = Ok overall
       /\ forall s, In ("AWS", s) overall -> s == 4 # 10.
Proof.
  split; [discriminate|]. split; [reflexivity|].
  destruct (proj1 (proj2 overall_ranking_weighted) sample_rankings)
    as (overall & Hrun & _ & _ & Hall); [discriminate | reflexivity |].
  exists overall. split; [exact Hrun|].
  intros s Hin. destruct (Hall "AWS" s Hin) as (_ & _ & Hhalf).
  apply Hhalf; reflexivity.
Defined.

(** * The loops of [generate_comparative_insights] *)

Lemma leader_insights_flat ar acc :
  leader_insights ar acc = (acc ++ leader_statements ar)%list.
Proof.
  unfold leader_insights, leader_statements, Dict.items.
  revert acc. induction ar as [|item ar IH]; intros acc; simpl.
  - now rewrite app_nil_r.
  - rewrite IH. now rewrite <- app_assoc.
Qed.

Lemma stdev_defined sqrt xs :
  (1 < List.length xs)%nat -> stdev sqrt xs = Ok (sqrt (sample_variance xs)).
Proof.
  intros H. unfold stdev, variance.
  destruct (List.length xs <? 2)%nat eqn:E; [apply Nat.ltb_lt in E; lia|].
  destruct xs as [|x xs]; [simpl in H; lia|]. reflexivity.
Qed.

Lemma collect_variances_ok sqrt items acc :
  collect_variances sqrt items acc
  = Ok (fold_left
          (fun acc item =>
             if (1 <? List.length (ranked_providers (snd item)))%nat
             then Dict.set (fst item) (deviation sqrt (snd item)) acc
             else acc)
          items acc).
Proof.
  revert acc. induction items as [|[a data] items IH]; intros acc; simpl; [reflexivity|].
  unfold ranked_scores at 1 2. rewrite length_map.
  destruct (1 <? List.length (ranked_providers data))%nat eqn:E.
  - rewrite stdev_defined
      by (unfold ranked_scores; rewrite length_map; now apply Nat.ltb_lt).
    simpl. apply IH.
  - apply IH.
Qed.


Lemma max_by_in {A : Type} (key : A -> Q) best rest :
  In (max_by key best rest) (best :: rest).
Proof.
  revert best. induction rest as [|x rest IH]; intros best; simpl; [now left|].
  destruct (Qltb (key best) (key x)).
  - right. apply IH.
  - destruct (IH best) as [H|H]; [now left | right; now right].
Qed.

Lemma max_by_ge_start {A : Type} (key : A -> Q) best rest :
  key best <= key (max_by key best rest).
Proof.
  revert best. induction rest as [|x rest IH]; intros best; simpl; [apply Qle_refl|].
  destruct (Qltb (key best) (key x)) eqn:E.
  - apply Qltb_lt in E. apply Qle_trans with (key x); [now apply Qlt_le_weak | apply IH].
  - apply IH.
Qed.

Lemma max_by_max {A : Type} (key : A -> Q) best rest x :
  In x (best :: rest) -> key x <= key (max_by key best rest).
Proof.
  revert best. induction rest as [|y rest IH]; intros best Hin.
  - destruct Hin as [<-|[]]. apply Qle_refl.
  - simpl. destruct (Qltb (key best) (key y)) eqn:E.
    + destruct Hin as [<-|Hin].
      * apply Qltb_lt in E. apply Qle_trans with (key y);
          [now apply Qlt_le_weak | apply max_by_ge_start].
      * apply IH. exact Hin.
    + destruct Hin as [<-|[<-|Hin]].
      * apply max_by_ge_start.
      * apply Qltb_ge in E. apply Qle_trans with (key best);
          [exact E | apply max_by_ge_start].
      * apply IH. now right.
Qed.

Lemma insight_statements_nonempty sqrt ar :
  ar <> [] ->
  insight_statements sqrt ar
  = Ok (leader_statements ar
        ++ controversial_insight
             (fold_left
                (fun acc item =>
                   if (1 <? List.length (ranked_providers (snd item)))%nat
                   then Dict.set (fst item) (deviation sqrt (snd item)) acc
                   else acc)
                ar []))%list.
Proof.
  intros Hne. unfold insight_statements.
  destruct ar as [|item ar']; [congruence|].
  rewrite collect_variances_ok, leader_insights_flat. reflexivity.
Qed.

Lemma last_at_end {A : Type} (l : list A) d x :
  nth_error l (List.length l - 1) = Some x -> last l d = x.
Proof.
  induction l as [|y l IH]; [discriminate|].
  destruct l as [|z l'].
  - simpl. now intros [= ->].
  - intros H. change (last (y :: z :: l') d) with (last (z :: l') d).
    apply IH. simpl in H |- *. now rewrite Nat.sub_0_r.
Qed.

Lemma leader_insight_short a data :
  (List.length (ranked_providers data) < 2)%nat -> leader_insight a data = [].
Proof.
  intros H. unfold leader_insight. apply Nat.ltb_lt in H. now rewrite H.
Qed.

Lemma leader_insight_pair a data b bd w wd :
  (2 <= List.length (ranked_providers data))%nat ->
  nth_error (ranked_providers data) 0 = Some (b, bd) ->
  nth_error (ranked_providers data) (List.length (ranked_providers data) - 1)
  = Some (w, wd) ->
  leader_insight a data
  = if Qltb (1 # 10) (sentiment_score bd - sentiment_score wd)
    then [Leads a b (positive_ratio bd) w (positive_ratio wd)]
    else [].
Proof.
  intros Hlen Hfirst Hlast. unfold leader_insight.
  destruct (List.length (ranked_providers data) <? 2)%nat eqn:E;
    [apply Nat.ltb_lt in E; lia|].
  destruct (ranked_providers data) as [|first rest] eqn:Er; [discriminate|].
  simpl in Hfirst. injection Hfirst as ->.
  rewrite (last_at_end _ (b, bd) (w, wd) Hlast). reflexivity.
Qed.

Lemma leader_insight_about a a' data :
  filter (leads_about a) (leader_insight a' data)
  = if String.eqb a' a then leader_insight a' data else [].
Proof.
  unfold leader_insight.
  destruct (List.length (ranked_providers data) <? 2)%nat;
    [now destruct (String.eqb a' a)|].
  destruct (ranked_providers data) as [|[b bd] rest];
    [now destruct (String.eqb a' a)|].
  destruct (last ((b, bd) :: rest) (b, bd)) as [w wd].
  destruct (Qltb _ _); simpl; now destruct (String.eqb a' a).
Qed.

Lemma leader_statements_about ar a data :
  Dict.wf ar -> In (a, data) ar ->
  filter (leads_about a) (leader_statements ar) = leader_insight a data.
Proof.
  unfold Dict.wf, leader_statements.
  induction ar as [|[a' d'] ar IH]; intros Hnd Hin; [contradiction|].
  inversion Hnd as [|? ? Hnotin Hnd']; subst.
  cbn [flat_map fst snd]. rewrite filter_app, leader_insight_about.
  destruct Hin as [[= -> ->]|Hin].
  - rewrite String.eqb_refl.
    assert (Hrest : forall l : dict AspectRanking,
               ~ In a (Dict.keys l) ->
               filter (leads_about a)
                 (flat_map (fun item => leader_insight (fst item) (snd item)) l) = []).
    { induction l as [|[k d] l IHl]; intros Hk; [reflexivity|].
      cbn [flat_map fst snd]. rewrite filter_app, leader_insight_about.
      destruct (String.eqb k a) eqn:E.
      - apply String.eqb_eq in E. subst k. exfalso. apply Hk. now left.
      - apply IHl. intros Hl. apply Hk. now right. }
    rewrite (Hrest ar Hnotin). apply app_nil_r.
  - destruct (String.eqb a' a) eqn:E.
    + apply String.eqb_eq in E. subst a'. exfalso. apply Hnotin.
      apply (in_map fst) in Hin. exact Hin.
    + simpl. now apply IH.
Qed.

Lemma controversial_not_leads a variances :
  filter (leads_about a) (controversial_insight variances) = [].
Proof.
  unfold controversial_insight. now destruct (Dict.items variances).
Qed.


Lemma sample_rankings_wf : Dict.wf sample_rankings.
Proof. solve_wf. Qed.

(** * The insights on binary64 numbers *)

Lemma b64_leader_insights_flat ar acc :
  Binary64.leader_insights ar acc = (acc ++ Binary64.leader_statements ar)%list.
Proof.
  unfold Binary64.leader_insights, Binary64.leader_statements, Dict.items.
  revert acc. induction ar as [|item ar IH]; intros acc; simpl.
  - now rewrite app_nil_r.
  - rewrite IH. now rewrite <- app_assoc.
Qed.

Lemma b64_insight_statements_nonempty stdev ar :
  ar <> [] ->
  Binary64.insight_statements stdev ar
  = (Binary64.leader_statements ar
     ++ Binary64.controversial_insight (Binary64.collect_variances stdev ar []))%list.
Proof.
  intros Hne. unfold Binary64.insight_statements.
  destruct ar as [|item ar']; [congruence|].
  rewrite b64_leader_insights_flat. reflexivity.
Qed.

Lemma b64_leader_insight_short a data :
  (List.length (Binary64.ranked_providers data) < 2)%nat ->
  Binary64.leader_insight a data = [].
Proof.
  intros H. unfold Binary64.leader_insight. apply Nat.ltb_lt in H. now rewrite H.
Qed.

Lemma b64_leader_insight_pair a data b bd w wd :
  (2 <= List.length (Binary64.ranked_providers data))%nat ->
  nth_error (Binary64.ranked_providers data) 0 = Some (b, bd) ->
  nth_error (Binary64.ranked_providers data)
            (List.length (Binary64.ranked_providers data) - 1)
  = Some (w, wd) ->
  Binary64.leader_insight a data
  = if PrimFloat.ltb Binary64.tenth
         (PrimFloat.sub (Binary64.sentiment_score bd) (Binary64.sentiment_score wd))
    then [Binary64.Leads a b (Binary64.positive_ratio bd)
                         w (Binary64.positive_ratio wd)]
    else [].
Proof.
  intros Hlen Hfirst Hlast. unfold Binary64.leader_insight.
  destruct (List.length (Binary64.ranked_providers data) <? 2)%nat eqn:E;
    [apply Nat.ltb_lt in E; lia|].
  destruct (Binary64.ranked_providers data) as [|first rest] eqn:Er; [discriminate|].
  simpl in Hfirst. injection Hfirst as ->.
  rewrite (last_at_end _ (b, bd) (w, wd) Hlast). reflexivity.
Qed.

Lemma b64_leader_insight_about a a' data :
  filter (Binary64.leads_about a) (Binary64.leader_insight a' data)
  = if String.eqb a' a then Binary64.leader_insight a' data else [].
Proof.
  unfold Binary64.leader_insight.
  destruct (List.length (Binary64.ranked_providers data) <? 2)%nat;
    [now destruct (String.eqb a' a)|].
  destruct (Binary64.ranked_providers data) as [|[b bd] rest];
    [now destruct (String.eqb a' a)|].
  destruct (last ((b, bd) :: rest) (b, bd)) as [w wd].
  destruct (PrimFloat.ltb _ _); simpl; now destruct (String.eqb a' a).
Qed.

Lemma b64_leader_statements_about ar a data :
  Dict.wf ar -> In (a, data) ar ->
  filter (Binary64.leads_about a) (Binary64.leader_statements ar)
  = Binary64.leader_insight a data.
Proof.
  unfold Dict.wf, Binary64.leader_statements.
  induction ar as [|[a' d'] ar IH]; intros Hnd Hin; [contradiction|].
  inversion Hnd as [|? ? Hnotin Hnd']; subst.
  cbn [flat_map fst snd]. rewrite filter_app, b64_leader_insight_about.
  destruct Hin as [[= -> ->]|Hin].
  - rewrite String.eqb_refl.
    assert (Hrest : forall l : dict Binary64.AspectRanking,
               ~ In a (Dict.keys l) ->
               filter (Binary64.leads_about a)
                 (flat_map (fun item => Binary64.leader_insight (fst item) (snd item)) l)
               = []).
    { induction l as [|[k d] l IHl]; intros Hk; [reflexivity|].
      cbn [flat_map fst snd]. rewrite filter_app, b64_leader_insight_about.
      destruct (String.eqb k a) eqn:E.
      - apply String.eqb_eq in E. subst k. exfalso. apply Hk. now left.
      - apply IHl. intros Hl. apply Hk. now right. }
    rewrite (Hrest ar Hnotin). apply app_nil_r.
  - destruct (String.eqb a' a) eqn:E.
    + apply String.eqb_eq in E. subst a'. exfalso. apply Hnotin.
      apply (in_map fst) in Hin. exact Hin.
    + simpl. now apply IH.
Qed.

Lemma b64_controversial_not_leads a variances :
  filter (Binary64.leads_about a) (Binary64.controversial_insight variances) = [].
Proof.
  unfold Binary64.controversial_insight. now destruct (Dict.items variances).
Qed.

Lemma mixed_rankings_wf : Dict.wf Binary64.mixed_rankings.
Proof. solve_wf. Qed.

(** * Claims about [generate_comparative_insights] *)

(** C4.  The function returns its statements rendered one by one, a
    per-aspect statement as the aspect in title case, the two providers and
    their positive ratios as percentages.  For an aspect with fewer than two
    ranked providers there is no per-aspect statement.  For an aspect with at
    least two, with [best] first and [worst] last in its ranking: when the
    binary64 difference of their scores is greater than the literal [0.1]
    there is exactly one statement about the aspect, naming [best], [worst]
    and their positive ratios; otherwise there is none.  The difference and
    the comparison are those of binary64 numbers: with 8 of 10 opinions
    positive against 7 of 10 the statement is made, with 1 of 10 against
    none it is not. *)
Theorem leader_statement_iff_gap (title_rest : string -> string)
    (stdev : list float -> float)
    (ar : dict Binary64.AspectRanking) :
  Dict.wf ar ->
  exists out,
    Binary64.insight_statements stdev ar = out
    /\ Binary64.generate_comparative_insights title_rest stdev ar
       = map (Binary64.render title_rest) out
    /\ (forall a b p w q,
          Binary64.render title_rest (Binary64.Leads a b p w q)
          = title title_rest a ++ ": " ++ b ++ " leads with " ++ percent_of_float p
            ++ " positive sentiment vs " ++ w ++ " at " ++ percent_of_float q)
    /\ (forall a data,
          In (a, data) ar ->
          let ranked := Binary64.ranked_providers data in
          ((List.length ranked < 2)%nat ->
           filter (Binary64.leads_about a) out = [])
          /\ forall b bd w wd,
               (2 <= List.length ranked)%nat ->
               nth_error ranked 0 = Some (b, bd) ->
               nth_error ranked (List.length ranked - 1) = Some (w, wd) ->
               let score_diff :=
                 PrimFloat.sub (Binary64.sentiment_score bd)
                               (Binary64.sentiment_score wd) in
               (PrimFloat.ltb Binary64.tenth score_diff = true ->
                  filter (Binary64.leads_about a) out
                  = [Binary64.Leads a b (Binary64.positive_ratio bd)
                                    w (Binary64.positive_ratio wd)])
               /\ (PrimFloat.ltb Binary64.tenth score_diff = false ->
                     filter (Binary64.leads_about a) out = []))
    /\ Binary64.generate_comparative_insights title_rest stdev Binary64.narrow_rankings
       = ["Cost: AWS leads with 80.0% positive sentiment vs GCP at 70.0%";
          "Most controversial aspect: cost (highest sentiment variance)"]
    /\ Binary64.generate_comparative_insights title_rest stdev Binary64.tenth_rankings
       = ["Most controversial aspect: support (highest sentiment variance)"].
Proof.
  intros Hwf. eexists. split; [reflexivity|]. split; [reflexivity|].
  split; [reflexivity|]. split; [|split; reflexivity].
  intros a data Hin ranked.
  assert (Hne : ar <> []) by (intros ->; contradiction).
  assert (Hf : filter (Binary64.leads_about a) (Binary64.insight_statements stdev ar)
               = Binary64.leader_insight a data).
  { rewrite (b64_insight_statements_nonempty stdev ar Hne).
    rewrite filter_app, b64_controversial_not_leads, app_nil_r.
    now apply b64_leader_statements_about. }
  split.
  - intros Hshort. rewrite Hf. now apply b64_leader_insight_short.
  - intros b bd w wd Hlen Hfirst Hlast score_diff.
    rewrite Hf, (b64_leader_insight_pair a data b bd w wd Hlen Hfirst Hlast).
    fold score_diff. split; intros ->; reflexivity.
Qed.

Lemma leader_statement_iff_gap_witness :
  Dict.wf Binary64.mixed_rankings
  /\ exists out,
       Binary64.generate_comparative_insights (fun s => s) Binary64.stepwise_stdev
         Binary64.mixed_rankings
       = map (Binary64.render (fun s => s)) out
       /\ filter (Binary64.leads_about "cost") out
          = [Binary64.Leads "cost"
               "AWS" (Binary64.positive_ratio (Binary64.score_data 8 0 10 PrimFloat.one))
               "GCP" (Binary64.positive_ratio (Binary64.score_data 7 0 10 PrimFloat.one))]
       /\ filter (Binary64.leads_about "support") out = []
       /\ filter (Binary64.leads_about "performance") out = []
       /\ map (Binary64.render (fun s => s)) out
          = ["Cost: AWS leads with 80.0% positive sentiment vs GCP at 70.0%";
             "Ease Of Use: Azure leads with 28.7% positive sentiment vs GCP at 0.0%";
             "Most controversial aspect: ease of use (highest sentiment variance)"].
Proof.
  split; [exact mixed_rankings_wf|].
  destruct (leader_statement_iff_gap (fun s => s) Binary64.stepwise_stdev
              Binary64.mixed_rankings
              mixed_rankings_wf)
    as (out & Hout & Hrun & _ & Hall & _).
  exists out. split; [exact Hrun|]. split; [|split; [|split]].
  - destruct (Hall "cost" _ (or_introl eq_refl)) as [_ Hpair].
    destruct (Hpair "AWS" (Binary64.score_data 8 0 10 PrimFloat.one)
                    "GCP" (Binary64.score_data 7 0 10 PrimFloat.one))
      as [Hyes _]; [simpl; lia | reflexivity | reflexivity |].
    apply Hyes. reflexivity.
  - destruct (Hall "support" _ (or_intror (or_introl eq_refl))) as [_ Hpair].
    destruct (Hpair "AWS" (Binary64.score_data 1 0 10 PrimFloat.one)
                    "GCP" (Binary64.score_data 0 0 10 PrimFloat.one))
      as [_ Hno]; [simpl; lia | reflexivity | reflexivity |].
    apply Hno. reflexivity.
  - destruct (Hall "performance" _
                (or_intror (or_intror (or_intror (or_introl eq_refl)))))
      as [Hshort _].
    apply Hshort. simpl. lia.
  - rewrite <- Hout. reflexivity.
Defined.



Lemma last_in {A : Type} (x : A) l d : In (last (x :: l) d) (x :: l).
Proof.
  revert x. induction l as [|y l IH]; intros x; [now left|].
  right. apply IH.
Qed.





Lemma two_aspect_rankings_wf : Dict.wf two_aspect_rankings.
Proof. solve_wf. Qed.





(** * Claims about [postprocess_sentiment_results] *)

(** C5.  On the empty store every stage returns without raising: no aspect
    rankings, no overall ranking, no summary rows, the empty matrix, and the
    single statement that no data is available. *)
Theorem empty_results_fallback (title_rest : string -> string)
    (sqrt : Q -> Q) :
  postprocess_sentiment_results title_rest sqrt []
  = Ok (mkPost [] [] ["No data available for comparative analysis."] [] empty_matrix)
  /\ calculate_provider_rankings [] = Ok []
  /\ calculate_overall_provider_rankings [] = Ok []
  /\ generate_comparative_insights title_rest sqrt [] = Ok [render title_rest NoData]
  /\ create_comparative_summary_dataframe [] = []
  /\ create_provider_comparison_matrix [] = Ok empty_matrix
  /\ index empty_matrix = [] /\ columns empty_matrix = [].
Proof. repeat split. Qed.

(** * Whole-word matching *)

Lemma match_here_spec unicode prev word t :
  match_here unicode prev word t = true
  <-> exists mid post,
        t = (mid ++ post)%list
        /\ same_word unicode word mid = true
        /\ boundary unicode (last_char_or prev mid) post = true.
Proof.
  revert prev t. induction word as [|c word IH]; intros prev t; simpl.
  - split.
    + intros H. exists [], t. repeat split. exact H.
    + intros (mid & post & -> & Hl & Hb). destruct mid; [exact Hb | discriminate Hl].
  - destruct t as [|d t'].
    + split; [discriminate|].
      intros (mid & post & Ht & Hl & _). destruct mid; discriminate.
    + rewrite andb_true_iff, IH. split.
      * intros (Hc & mid & post & -> & Hl & Hb).
        exists (d :: mid), post. simpl. rewrite Hc, Hl. repeat split. exact Hb.
      * intros (mid & post & Ht & Hl & Hb). destruct mid as [|d' mid]; [discriminate|].
        simpl in Ht, Hl, Hb. injection Ht as -> ->.
        apply andb_true_iff in Hl. destruct Hl as [Hc Hl].
        split; [exact Hc|]. exists mid, post. repeat split; assumption.
Qed.

Lemma search_from_spec unicode prev word t :
  search_from unicode prev word t = true <-> occurs_after unicode prev word t.
Proof.
  revert prev. induction t as [|d t IH]; intros prev.
  - simpl. rewrite orb_false_r, andb_true_iff, match_here_spec. split.
    + intros (Hb & mid & post & Ht & Hl & Hb').
      exists [], mid, post. simpl. rewrite <- Ht. repeat split; assumption.
    + intros (pre & mid & post & Ht & Hl & Hb & Hb').
      destruct pre; [|discriminate]. simpl in *. rewrite <- Ht in Hb.
      split; [exact Hb|]. exists mid, post. repeat split; assumption.
  - cbn [search_from]. rewrite orb_true_iff, andb_true_iff, match_here_spec, IH. split.
    + intros [(Hb & mid & post & Ht & Hl & Hb')|(pre & mid & post & Ht & Hl & Hb & Hb')].
      * exists [], mid, post. simpl. rewrite <- Ht. repeat split; assumption.
      * exists (d :: pre), mid, post. simpl. rewrite Ht. repeat split; assumption.
    + intros (pre & mid & post & Ht & Hl & Hb & Hb').
      destruct pre as [|d' pre]; simpl in *.
      * left. rewrite <- Ht in Hb. split; [exact Hb|].
        exists mid, post. repeat split; assumption.
      * injection Ht as -> ->. right. exists pre, mid, post. repeat split; assumption.
Qed.

Lemma contains_whole_word_spec unicode word text :
  contains_whole_word unicode word text = true <-> whole_word unicode word text.
Proof. apply search_from_spec. Qed.

Lemma extract_filter unicode sent_tokenize text prov keywords :
  extract_relevant_sentences unicode sent_tokenize text prov keywords
  = filter (is_relevant unicode prov keywords) (sent_tokenize (or_empty text)).
Proof.
  unfold extract_relevant_sentences.
  generalize (sent_tokenize (or_empty text)) as sents.
  assert (H : forall sents acc,
             fold_left
               (fun relevant sent =>
                  if is_relevant unicode prov keywords sent
                  then (relevant ++ [sent])%list else relevant) sents acc
             = (acc ++ filter (is_relevant unicode prov keywords) sents)%list).
  { induction sents as [|s sents IH]; intros acc; simpl.
    - now rewrite app_nil_r.
    - rewrite IH. destruct (is_relevant unicode prov keywords s); [|reflexivity].
      now rewrite <- app_assoc. }
  intros sents. apply H.
Qed.


Lemma last_char_or_app p (a b : list N) :
  last_char_or p (a ++ b) = last_char_or (last_char_or p a) b.
Proof. revert p. induction a as [|c a IH]; intros p; simpl; [reflexivity | apply IH]. Qed.

(** * Claims about [extract_relevant_sentences] *)



(** * The long-form summary *)

Lemma summary_frame_flat ar :
  create_comparative_summary_dataframe ar
  = flat_map (fun item =>
                summary_rows (fst item) (List.length (ranked_providers (snd item))) 1
                             (ranked_providers (snd item))) ar.
Proof.
  unfold create_comparative_summary_dataframe, Dict.items.
  assert (H : forall l acc,
             fold_left
               (fun rows item =>
                  (rows ++ summary_rows (fst item)
                             (List.length (ranked_providers (snd item))) 1
                             (ranked_providers (snd item)))%list) l acc
             = (acc ++ flat_map
                         (fun item =>
                            summary_rows (fst item)
                              (List.length (ranked_providers (snd item))) 1
                              (ranked_providers (snd item))) l)%list).
  { induction l as [|item l IH]; intros acc; simpl.
    - now rewrite app_nil_r.
    - rewrite IH. now rewrite <- app_assoc. }
  apply (H ar []).
Qed.

Lemma summary_rows_length a count k ranked :
  List.length (summary_rows a count k ranked) = List.length ranked.
Proof.
  revert k. induction ranked as [|[p sc] ranked IH]; intros k; simpl; [reflexivity|].
  now rewrite IH.
Qed.

Lemma summary_rows_in a count k ranked r :
  In r (summary_rows a count k ranked)
  <-> exists i p sc,
        nth_error ranked i = Some (p, sc)
        /\ r = mkRow a p (k + i)
                     (sentiment_score sc) (positive_ratio sc) (negative_ratio sc)
                     (total_opinions sc) (avg_confidence sc)
                     (k + i =? 1)%nat (k + i =? count)%nat.
Proof.
  revert k. induction ranked as [|[p sc] ranked IH]; intros k; simpl.
  - split; [tauto|]. intros (i & q & s & H & _). destruct i; discriminate.
  - rewrite IH. split.
    + intros [<-|(i & q & s & Hn & ->)].
      * exists 0%nat, p, sc. rewrite Nat.add_0_r. now split.
      * exists (S i), q, s. rewrite Nat.add_succ_r. now split.
    + intros (i & q & s & Hn & ->). destruct i as [|i]; simpl in Hn.
      * injection Hn as -> ->. left. now rewrite Nat.add_0_r.
      * right. exists i, q, s. rewrite Nat.add_succ_r. now split.
Qed.

Lemma summary_frame_length ar :
  List.length (create_comparative_summary_dataframe ar)
  = list_sum (map (fun item => List.length (ranked_providers (snd item))) ar).
Proof.
  rewrite summary_frame_flat.
  induction ar as [|item ar IH]; [reflexivity|].
  cbn [flat_map map list_sum fold_right]. rewrite length_app, summary_rows_length.
  f_equal. exact IH.
Qed.

(** X1.  The summary has one row per ranked provider of every aspect: the
    rows are exactly the entries of the rankings, each with its 1-based
    position, flagged best at position 1 and worst at the last position. *)
Theorem summary_rows_exact (ar : dict AspectRanking) :
  List.length (create_comparative_summary_dataframe ar)
  = list_sum (map (fun item => List.length (ranked_providers (snd item))) ar)
  /\ forall r,
       In r (create_comparative_summary_dataframe ar)
       <-> exists a data i p sc,
             In (a, data) ar
             /\ nth_error (ranked_providers data) i = Some (p, sc)
             /\ r = row_at a data i p sc.
Proof.
  rewrite summary_frame_flat. split.
  - induction ar as [|item ar IH]; [reflexivity|].
    cbn [flat_map map list_sum fold_right]. rewrite length_app, summary_rows_length.
    f_equal. exact IH.
  - intros r. rewrite in_flat_map. split.
    + intros ([a data] & Hin & Hr). apply summary_rows_in in Hr.
      destruct Hr as (i & p & sc & Hn & ->). exists a, data, i, p, sc.
      repeat split; assumption.
    + intros (a & data & i & p & sc & Hin & Hn & ->).
      exists (a, data). split; [exact Hin|]. apply summary_rows_in.
      exists i, p, sc. split; [exact Hn | reflexivity].
Qed.

Lemma rows_other_aspect (f : SummaryRow -> bool) a a' count k ranked :
  a' <> a ->
  filter (fun r => String.eqb (Aspect r) a && f r) (summary_rows a' count k ranked) = [].
Proof.
  intros Hne. revert k. induction ranked as [|[p sc] ranked IH]; intros k; simpl;
    [reflexivity|].
  destruct (String.eqb a' a) eqn:E; [apply String.eqb_eq in E; congruence|].
  simpl. apply IH.
Qed.

Lemma rows_best_tail a count k ranked :
  (2 <= k)%nat -> filter (best_row_of a) (summary_rows a count k ranked) = [].
Proof.
  revert k. induction ranked as [|[p sc] ranked IH]; intros k Hk; simpl; [reflexivity|].
  unfold best_row_of at 1. simpl.
  destruct (k =? 1)%nat eqn:E; [apply Nat.eqb_eq in E; lia|].
  rewrite andb_false_r. apply IH. lia.
Qed.

Lemma rows_worst_last a k l p sc :
  filter (worst_row_of a) (summary_rows a (k + List.length l) k (l ++ [(p, sc)]))
  = [mkRow a p (k + List.length l)
           (sentiment_score sc) (positive_ratio sc) (negative_ratio sc)
           (total_opinions sc) (avg_confidence sc)
           (k + List.length l =? 1)%nat true].
Proof.
  revert k. induction l as [|[q s] l IH]; intros k; simpl.
  - unfold worst_row_of. simpl. rewrite Nat.add_0_r, String.eqb_refl, Nat.eqb_refl.
    reflexivity.
  - unfold worst_row_of at 1. simpl.
    destruct (k =? k + S (List.length l))%nat eqn:E; [apply Nat.eqb_eq in E; lia|].
    rewrite andb_false_r.
    replace (k + S (List.length l))%nat with (S k + List.length l)%nat by lia.
    apply IH.
Qed.

Lemma split_at_end {A : Type} (l : list A) x :
  nth_error l (List.length l - 1) = Some x -> exists l', l = (l' ++ [x])%list.
Proof.
  induction l as [|y l IH]; [discriminate|].
  destruct l as [|z l'].
  - simpl. intros [= ->]. now exists [].
  - intros H. destruct IH as (l0 & Hl0).
    + simpl in H |- *. now rewrite Nat.sub_0_r.
    + exists (y :: l0). simpl. now rewrite <- Hl0.
Qed.

Lemma frame_rows_of_aspect (f : SummaryRow -> bool) ar a data :
  Dict.wf ar -> In (a, data) ar ->
  filter (fun r => String.eqb (Aspect r) a && f r)
         (create_comparative_summary_dataframe ar)
  = filter (fun r => String.eqb (Aspect r) a && f r)
           (summary_rows a (List.length (ranked_providers data)) 1
                         (ranked_providers data)).
Proof.
  rewrite summary_frame_flat. unfold Dict.wf.
  induction ar as [|[a' d'] ar IH]; intros Hnd Hin; [contradiction|].
  inversion Hnd as [|? ? Hnotin Hnd']; subst.
  cbn [flat_map fst snd]. rewrite filter_app.
  destruct Hin as [[= -> ->]|Hin].
  - assert (Hrest : forall l : dict AspectRanking,
               ~ In a (Dict.keys l) ->
               filter (fun r => String.eqb (Aspect r) a && f r)
                 (flat_map
                    (fun item =>
                       summary_rows (fst item)
                         (List.length (ranked_providers (snd item))) 1
                         (ranked_providers (snd item))) l) = []).
    { induction l as [|[k d] l IHl]; intros Hk; [reflexivity|].
      cbn [flat_map fst snd]. rewrite filter_app, rows_other_aspect.
      - apply IHl. intros Hl. apply Hk. now right.
      - intros ->. apply Hk. now left. }
    rewrite (Hrest ar Hnotin). apply app_nil_r.
  - rewrite rows_other_aspect.
    + simpl. now apply IH.
    + intros ->. apply Hnotin. apply (in_map fst) in Hin. exact Hin.
Qed.

(** X2.  Every aspect that ranks at least one provider has exactly one row
    flagged best, the row of the first ranked provider, and exactly one row
    flagged worst, the row of the last ranked provider. *)
Theorem summary_one_best_one_worst (ar : dict AspectRanking) a data b sb w sw :
  Dict.wf ar ->
  In (a, data) ar ->
  nth_error (ranked_providers data) 0 = Some (b, sb) ->
  nth_error (ranked_providers data) (List.length (ranked_providers data) - 1)
  = Some (w, sw) ->
  filter (best_row_of a) (create_comparative_summary_dataframe ar)
  = [row_at a data 0 b sb]
  /\ filter (worst_row_of a) (create_comparative_summary_dataframe ar)
     = [row_at a data (List.length (ranked_providers data) - 1) w sw].
Proof.
  intros Hwf Hin Hfirst Hlast. split.
  - unfold best_row_of. rewrite (frame_rows_of_aspect Is_Best ar a data Hwf Hin).
    destruct (ranked_providers data) as [|[p sc] rest] eqn:E; [discriminate|].
    simpl in Hfirst. injection Hfirst as -> ->.
    cbn [summary_rows filter Aspect Is_Best]. rewrite String.eqb_refl. simpl.
    fold (best_row_of a). rewrite rows_best_tail by lia.
    unfold row_at. rewrite E. reflexivity.
  - unfold worst_row_of. rewrite (frame_rows_of_aspect Is_Worst ar a data Hwf Hin).
    fold (worst_row_of a).
    destruct (split_at_end _ _ Hlast) as (l & Hl).
    unfold row_at. rewrite Hl, length_app. simpl List.length.
    replace (List.length l + 1)%nat with (1 + List.length l)%nat by lia.
    rewrite rows_worst_last.
    replace (1 + List.length l - 1)%nat with (List.length l) by lia.
    rewrite Nat.eqb_refl. reflexivity.
Qed.

Lemma summary_one_best_one_worst_witness :
  Dict.wf sample_rankings
  /\ filter (best_row_of "cost") (create_comparative_summary_dataframe sample_rankings)
     = [mkRow "cost" "AWS" 1 (8 # 10) (9 # 10) (1 # 10) 50 (7 # 10) true false]
  /\ filter (worst_row_of "cost") (create_comparative_summary_dataframe sample_rankings)
     = [mkRow "cost" "GCP" 2 (5 # 10) (6 # 10) (1 # 10) 200 (7 # 10) false true].
Proof.
  split; [exact sample_rankings_wf|].
  apply (summary_one_best_one_worst sample_rankings "cost" _ "AWS" aws_cost "GCP" gcp_cost
           sample_rankings_wf (or_introl eq_refl) eq_refl eq_refl).
Defined.

(** * Shape of the rankings of a store *)

Lemma rankings_of_map results :
  NoDup (first_aspects results) ->
  rankings_of results
  = map (fun a => (a, rank_aspect (scores_of results a))) (first_aspects results).
Proof.
  intros Hnd. unfold rankings_of.
  now rewrite DictFacts.assign_loop_fresh.
Qed.

Lemma ranked_length scores :
  List.length (ranked_providers (rank_aspect scores)) = List.length scores.
Proof.
  simpl. symmetry. apply Permutation_length. apply sorted_desc_perm.
Qed.

Lemma scores_of_length results a :
  Dict.wf results -> List.length (scores_of results a) = List.length results.
Proof.
  intros Hwf. pose proof (scores_of_keys results a Hwf) as H.
  apply (f_equal (@List.length string)) in H. unfold Dict.keys in H.
  now rewrite !length_map in H.
Qed.

Lemma list_sum_constant {A : Type} (f : A -> nat) n l :
  (forall x, In x l -> f x = n) -> list_sum (map f l) = (List.length l * n)%nat.
Proof.
  induction l as [|x l IH]; intros H; [reflexivity|].
  cbn [map list_sum fold_right List.length]. fold (list_sum (map f l)).
  rewrite IH by (intros y Hy; apply H; now right).
  rewrite (H x (or_introl eq_refl)). lia.
Qed.

Lemma sample_aspects_nodup : NoDup (first_aspects sample_store).
Proof. simpl. repeat (constructor; simpl); intuition discriminate. Qed.

(** X3.  For a store with distinct provider and aspect keys that has every
    aspect of the first provider under every provider, the rankings have one
    entry per aspect of the first provider, in that order; each entry scores
    and ranks every provider; and the summary has aspects times providers
    rows. *)
Theorem rankings_shape (results : OpinionStore) :
  Dict.wf results ->
  NoDup (first_aspects results) ->
  covers_first_aspects results = true ->
  exists rankings,
    calculate_provider_rankings results = Ok rankings
    /\ Dict.keys rankings = first_aspects results
    /\ (forall a data,
          In (a, data) rankings ->
          Dict.keys (provider_scores data) = Dict.keys results
          /\ List.length (ranked_providers data) = List.length results)
    /\ List.length (create_comparative_summary_dataframe rankings)
       = (List.length (first_aspects results) * List.length results)%nat.
Proof.
  intros Hwf Hnd Hc. exists (rankings_of results).
  split; [now apply calculate_provider_rankings_ok|].
  assert (Hshape : forall a data,
             In (a, data) (rankings_of results) ->
             Dict.keys (provider_scores data) = Dict.keys results
             /\ List.length (ranked_providers data) = List.length results).
  { intros a data Hin. apply rankings_of_items in Hin. subst data. split.
    - now apply scores_of_keys.
    - rewrite ranked_length. now apply scores_of_length. }
  split; [|split; [exact Hshape|]].
  - rewrite (rankings_of_map results Hnd). unfold Dict.keys.
    rewrite map_map. simpl. apply map_id.
  - rewrite summary_frame_length.
    rewrite (list_sum_constant _ (List.length results)).
    + rewrite (rankings_of_map results Hnd) at 1. now rewrite length_map.
    + intros [a data] Hin. simpl. now apply (Hshape a data).
Qed.

Lemma rankings_shape_witness :
  Dict.wf sample_store
  /\ NoDup (first_aspects sample_store)
  /\ covers_first_aspects sample_store = true
  /\ exists rankings,
       calculate_provider_rankings sample_store = Ok rankings
       /\ Dict.keys rankings = ["cost"; "support"]
       /\ List.length (create_comparative_summary_dataframe rankings) = 4%nat.
Proof.
  split; [exact sample_store_wf|]. split; [exact sample_aspects_nodup|].
  split; [reflexivity|].
  destruct (rankings_shape sample_store sample_store_wf sample_aspects_nodup eq_refl)
    as (rankings & Hr & Hk & _ & Hn).
  exists rankings. repeat split; assumption.
Defined.

(** * The comparison matrix *)

Lemma matrix_column_ok data ps acc :
  (forall p, In p ps -> Dict.mem p (provider_scores data) = true) ->
  matrix_column (provider_scores data) ps acc
  = Ok (fold_left (fun acc p => Dict.set p (sentiment_score (entry p data)) acc) ps acc).
Proof.
  revert acc. induction ps as [|p ps IH]; intros acc H; simpl; [reflexivity|].
  destruct (proj1 (DictFacts.mem_find _ _) (H p (or_introl eq_refl))) as (sc & Hsc).
  unfold Dict.get. rewrite Hsc. simpl.
  rewrite IH by (intros q Hq; apply H; now right).
  assert (He : entry p data = sc) by (unfold entry; now rewrite Hsc).
  now rewrite He.
Qed.

Lemma matrix_column_fail data ps acc :
  forallb (fun p => Dict.mem p (provider_scores data)) ps = false ->
  exists p,
    In p ps /\ Dict.find p (provider_scores data) = None
    /\ matrix_column (provider_scores data) ps acc = KeyError p.
Proof.
  revert acc. induction ps as [|p ps IH]; intros acc H; simpl in H; [discriminate|].
  simpl. unfold Dict.get, Dict.mem in *.
  destruct (Dict.find p (provider_scores data)) as [sc|] eqn:E; simpl in *.
  - destruct (IH (Dict.set p (sentiment_score sc) acc) H) as (q & Hq & Hnone & Hrun).
    exists q. repeat split; auto.
  - exists p. repeat split; auto.
Qed.

Lemma matrix_columns_ok ar ps aspects acc :
  (forall a, In a aspects -> In a (Dict.keys ar)) ->
  forallb (fun a => forallb (fun p => Dict.mem p (provider_scores (lookup_aspect ar a))) ps)
          aspects = true ->
  matrix_columns ar ps aspects acc
  = Ok (fold_left (fun acc a => Dict.set a (column_of ps (lookup_aspect ar a)) acc)
                  aspects acc).
Proof.
  revert acc. induction aspects as [|a aspects IH]; intros acc Hin H; simpl;
    [reflexivity|].
  simpl in H. apply andb_true_iff in H. destruct H as [Ha H].
  destruct (find_key_in ar a (Hin a (or_introl eq_refl))) as (data & Hd).
  unfold Dict.get at 1. rewrite Hd. simpl.
  assert (Hl : lookup_aspect ar a = data) by (unfold lookup_aspect; now rewrite Hd).
  rewrite Hl in Ha. rewrite forallb_forall in Ha.
  rewrite matrix_column_ok by exact Ha. simpl.
  rewrite Hl. fold (column_of ps data).
  apply IH; [|exact H]. intros b Hb. apply Hin. now right.
Qed.

Lemma matrix_columns_fail ar ps aspects acc :
  (forall a, In a aspects -> In a (Dict.keys ar)) ->
  forallb (fun a => forallb (fun p => Dict.mem p (provider_scores (lookup_aspect ar a))) ps)
          aspects = false ->
  exists a p,
    In a aspects /\ In p ps
    /\ Dict.find p (provider_scores (lookup_aspect ar a)) = None
    /\ matrix_columns ar ps aspects acc = KeyError p.
Proof.
  revert acc. induction aspects as [|a aspects IH]; intros acc Hin H; simpl in H;
    [discriminate|].
  destruct (find_key_in ar a (Hin a (or_introl eq_refl))) as (data & Hd).
  assert (Hl : lookup_aspect ar a = data) by (unfold lookup_aspect; now rewrite Hd).
  simpl. unfold Dict.get at 1. rewrite Hd. simpl.
  rewrite Hl in H.
  destruct (forallb (fun p => Dict.mem p (provider_scores data)) ps) eqn:E; simpl in H.
  - rewrite forallb_forall in E. rewrite matrix_column_ok by exact E. simpl.
    destruct (IH (Dict.set a
                    (fold_left (fun acc p => Dict.set p (sentiment_score (entry p data)) acc)
                               ps []) acc))
      as (b & p & Hb & Hp & Hnone & Hrun); [intros b Hb; apply Hin; now right | exact H |].
    exists b, p. repeat split; auto.
  - destruct (matrix_column_fail data ps [] E) as (p & Hp & Hnone & Hrun).
    exists a, p. rewrite Hl, Hrun. repeat split; auto.
Qed.

Lemma covered_by_aspect ar :
  Dict.wf ar ->
  forallb (fun a => forallb (fun p => Dict.mem p (provider_scores (lookup_aspect ar a)))
                            (first_providers ar))
          (Dict.keys ar)
  = providers_covered ar.
Proof.
  intros Hwf. apply eq_true_iff_eq. unfold providers_covered, scored_everywhere.
  rewrite !forallb_forall. split.
  - intros H p Hp. apply forallb_forall. intros [a data] Hin.
    assert (Ha : In a (Dict.keys ar)) by (apply (in_map fst) in Hin; exact Hin).
    specialize (H a Ha). rewrite forallb_forall in H. specialize (H p Hp).
    unfold lookup_aspect in H. now rewrite (DictFacts.in_find_wf a data ar Hwf Hin) in H.
  - intros H a Ha. apply forallb_forall. intros p Hp.
    specialize (H p Hp). rewrite forallb_forall in H.
    destruct (find_key_in ar a Ha) as (data & Hd).
    unfold lookup_aspect. rewrite Hd.
    apply (H (a, data)). now apply DictFacts.find_some_in.
Qed.

Lemma ragged_rankings_wf : Dict.wf ragged_rankings.
Proof. solve_wf. Qed.

(** X4.  When every aspect scores the providers of the first aspect, the
    matrix is built: its row labels are those providers, its column labels
    the aspects in order, and the cell of an aspect and a provider is the
    provider's sentiment score in that aspect. *)
Theorem matrix_cells (ar : dict AspectRanking) :
  Dict.wf ar ->
  providers_covered ar = true ->
  exists m,
    create_provider_comparison_matrix ar = Ok m
    /\ index m = first_providers ar
    /\ Dict.keys (columns m) = Dict.keys ar
    /\ forall a data p,
         In (a, data) ar -> In p (first_providers ar) ->
         exists col sc,
           Dict.find a (columns m) = Some col
           /\ Dict.find p (provider_scores data) = Some sc
           /\ Dict.find p col = Some (sentiment_score sc).
Proof.
  intros Hwf Hcov. destruct ar as [|[a0 d0] ar'] eqn:E.
  - exists empty_matrix. repeat split. intros a data p [].
  - rewrite <- E in *.
    set (cols := fold_left
                   (fun acc a => Dict.set a (column_of (first_providers ar)
                                                       (lookup_aspect ar a)) acc)
                   (Dict.keys ar) []).
    assert (Hrun : create_provider_comparison_matrix ar
                   = Ok (mkMatrix (first_providers ar) cols)).
    { rewrite <- (covered_by_aspect ar Hwf) in Hcov.
      pose proof (matrix_columns_ok ar (first_providers ar) (Dict.keys ar) []
                    (fun a H => H) Hcov) as Hcols.
      fold cols in Hcols. rewrite E in Hcols |- *.
      unfold create_provider_comparison_matrix.
      change (Dict.keys (provider_scores d0))
        with (first_providers ((a0, d0) :: ar')).
      rewrite Hcols. reflexivity. }
    exists (mkMatrix (first_providers ar) cols).
    split; [exact Hrun|]. split; [reflexivity|]. split.
    + simpl. unfold cols. rewrite DictFacts.assign_loop_fresh; [|exact Hwf|reflexivity].
      unfold Dict.keys at 1. simpl. rewrite map_map. simpl. apply map_id.
    + intros a data p Hin Hp.
      assert (Ha : In a (Dict.keys ar)) by (apply (in_map fst) in Hin; exact Hin).
      assert (Hl : lookup_aspect ar a = data)
        by (unfold lookup_aspect; now rewrite (DictFacts.in_find_wf a data ar Hwf Hin)).
      unfold providers_covered in Hcov. rewrite forallb_forall in Hcov.
      specialize (Hcov p Hp). unfold scored_everywhere in Hcov.
      rewrite forallb_forall in Hcov. specialize (Hcov (a, data) Hin). simpl in Hcov.
      apply DictFacts.mem_find in Hcov. destruct Hcov as (sc & Hsc).
      exists (column_of (first_providers ar) data), sc.
      split; [|split; [exact Hsc|]].
      * simpl. unfold cols. rewrite DictFacts.find_assign_loop.
        destruct (in_dec string_dec a (Dict.keys ar)); [now rewrite Hl | contradiction].
      * unfold column_of. rewrite DictFacts.find_assign_loop.
        destruct (in_dec string_dec p (first_providers ar)); [|contradiction].
        unfold entry. now rewrite Hsc.
Qed.

Lemma matrix_cells_witness :
  Dict.wf two_aspect_rankings
  /\ providers_covered two_aspect_rankings = true
  /\ exists m,
       create_provider_comparison_matrix two_aspect_rankings = Ok m
       /\ index m = ["AWS"; "GCP"]
       /\ Dict.keys (columns m) = ["support"; "cost"].
Proof.
  split; [exact two_aspect_rankings_wf|]. split; [reflexivity|].
  destruct (matrix_cells two_aspect_rankings two_aspect_rankings_wf eq_refl)
    as (m & Hrun & Hi & Hk & _).
  exists m. repeat split; assumption.
Defined.

(** X5.  When some aspect does not score a provider of the first aspect,
    building the matrix raises [KeyError] on such a provider. *)
Theorem matrix_key_error (ar : dict AspectRanking) :
  Dict.wf ar ->
  providers_covered ar = false ->
  exists a data p,
    In (a, data) ar /\ In p (first_providers ar)
    /\ Dict.find p (provider_scores data) = None
    /\ create_provider_comparison_matrix ar = KeyError p.
Proof.
  intros Hwf Hcov. destruct ar as [|[a0 d0] ar'] eqn:E; [discriminate|].
  rewrite <- E in *. rewrite <- (covered_by_aspect ar Hwf) in Hcov.
  destruct (matrix_columns_fail ar (first_providers ar) (Dict.keys ar) []
              (fun a H => H) Hcov) as (a & p & Ha & Hp & Hnone & Hrun).
  destruct (find_key_in ar a Ha) as (data & Hd).
  assert (Hl : lookup_aspect ar a = data) by (unfold lookup_aspect; now rewrite Hd).
  exists a, data, p. rewrite Hl in Hnone.
  split; [now apply DictFacts.find_some_in|]. split; [exact Hp|]. split; [exact Hnone|].
  rewrite E in Hrun |- *. unfold create_provider_comparison_matrix.
  change (Dict.keys (provider_scores d0)) with (first_providers ((a0, d0) :: ar')).
  now rewrite Hrun.
Qed.

Lemma matrix_key_error_witness :
  Dict.wf ragged_rankings
  /\ providers_covered ragged_rankings = false
  /\ create_provider_comparison_matrix ragged_rankings = KeyError "GCP".
Proof.
  split; [exact ragged_rankings_wf|]. split; [reflexivity|].
  destruct (matrix_key_error ragged_rankings ragged_rankings_wf eq_refl)
    as (a & data & p & _ & _ & _ & Hrun).
  assert (Hp : p = "GCP") by (vm_compute in Hrun; congruence).
  rewrite Hrun, Hp. reflexivity.
Defined.

(** * Failure and range of the overall ranking *)

Lemma collect_scores_fail p datas acc tot :
  forallb (fun data => Dict.mem p (provider_scores data)) datas = false ->
  collect_scores p datas acc tot = KeyError p.
Proof.
  revert acc tot. induction datas as [|data datas IH]; intros acc tot H; simpl in H;
    [discriminate|].
  simpl. unfold Dict.get, Dict.mem in *.
  destruct (Dict.find p (provider_scores data)) as [sc|]; simpl in *; [|reflexivity].
  now apply IH.
Qed.

Lemma scored_everywhere_values_b ar p :
  forallb (fun data => Dict.mem p (provider_scores data)) (Dict.values ar)
  = scored_everywhere ar p.
Proof.
  unfold scored_everywhere, Dict.values.
  induction ar as [|item ar IH]; simpl; [reflexivity | now rewrite IH].
Qed.

Lemma overall_loop_step ar p ps acc :
  ar <> [] -> scored_everywhere ar p = true ->
  overall_loop ar (p :: ps) acc
  = overall_loop ar ps (Dict.set p (assigned_score ar p) acc).
Proof.
  intros Hne Hp. cbn [overall_loop].
  rewrite collect_scores_ok by (now apply scored_everywhere_values).
  cbn [bind app].
  destruct ar as [|[a0 d0] ar']; [congruence|]. reflexivity.
Qed.

Lemma overall_loop_fail ar ps acc :
  forallb (scored_everywhere ar) ps = false ->
  exists p,
    In p ps /\ scored_everywhere ar p = false /\ overall_loop ar ps acc = KeyError p.
Proof.
  revert acc. induction ps as [|p ps IH]; intros acc H; simpl in H; [discriminate|].
  destruct (scored_everywhere ar p) eqn:E; simpl in H.
  - assert (Hne : ar <> []).
    { intros ->. clear - H. induction ps; simpl in H; [discriminate | auto]. }
    rewrite overall_loop_step by assumption.
    destruct (IH (Dict.set p (assigned_score ar p) acc) H) as (q & Hq & Hmiss & Hrun).
    exists q. split; [now right|]. split; assumption.
  - exists p. split; [now left|]. split; [exact E|].
    cbn [overall_loop]. rewrite collect_scores_fail; [reflexivity|].
    now rewrite scored_everywhere_values_b.
Qed.

Lemma scored_everywhere_missing ar p :
  scored_everywhere ar p = false ->
  exists a data, In (a, data) ar /\ Dict.find p (provider_scores data) = None.
Proof.
  unfold scored_everywhere. induction ar as [|[a data] ar IH]; simpl; [discriminate|].
  destruct (Dict.mem p (provider_scores data)) eqn:E; simpl.
  - intros H. destruct (IH H) as (a' & d' & Hin & Hnone).
    exists a', d'. split; [now right | exact Hnone].
  - intros _. exists a, data. split; [now left | now apply mem_false_find].
Qed.

(** X6.  When some aspect does not score a provider of the first aspect, the
    overall ranking raises [KeyError] on such a provider. *)
Theorem overall_key_error (ar : dict AspectRanking) :
  providers_covered ar = false ->
  exists p a data,
    In p (first_providers ar) /\ In (a, data) ar
    /\ Dict.find p (provider_scores data) = None
    /\ calculate_overall_provider_rankings ar = KeyError p.
Proof.
  intros Hcov. unfold providers_covered in Hcov.
  destruct (overall_loop_fail ar (first_providers ar) [] Hcov) as (p & Hp & Hmiss & Hrun).
  destruct (scored_everywhere_missing ar p Hmiss) as (a & data & Hin & Hnone).
  exists p, a, data. repeat split; auto.
  destruct ar as [|[a0 d0] ar']; [contradiction|].
  unfold calculate_overall_provider_rankings.
  change (Dict.keys (provider_scores d0)) with (first_providers ((a0, d0) :: ar')).
  now rewrite Hrun.
Qed.

Lemma overall_key_error_witness :
  providers_covered ragged_rankings = false
  /\ calculate_overall_provider_rankings ragged_rankings = KeyError "GCP".
Proof.
  split; [reflexivity|].
  destruct (overall_key_error ragged_rankings eq_refl) as (p & a & data & _ & _ & _ & Hrun).
  assert (Hp : p = "GCP") by (vm_compute in Hrun; congruence).
  rewrite Hrun, Hp. reflexivity.
Defined.

Lemma score_of_bounds opinions :
  -1 <= sentiment_score (score_of opinions) /\ sentiment_score (score_of opinions) <= 1.
Proof.
  destruct opinions as [|op rest]; [split; discriminate|].
  unfold score_of. rewrite bucket_score_nonempty. cbn [sentiment_score].
  set (ops := op :: rest).
  assert (Hlen : (0 < List.length ops)%nat) by (simpl; lia).
  destruct (ratio_bounds (labelled "Positive" ops) (List.length ops) Hlen
              (labelled_le _ _)) as [Hp0 Hp1].
  destruct (ratio_bounds (labelled "Negative" ops) (List.length ops) Hlen
              (labelled_le _ _)) as [Hn0 Hn1].
  split; lra.
Qed.

Lemma Qsum_bounds xs :
  (forall x, In x xs -> -1 <= x /\ x <= 1) ->
  - of_nat (List.length xs) <= Qsum xs /\ Qsum xs <= of_nat (List.length xs).
Proof.
  induction xs as [|x xs IH]; intros H.
  - simpl. split; discriminate.
  - cbn [Qsum fold_right]. fold (Qsum xs).
    change (List.length (x :: xs)) with (1 + List.length xs)%nat.
    rewrite of_nat_plus. change (of_nat 1) with 1.
    destruct (H x (or_introl eq_refl)) as [Hx0 Hx1].
    destruct IH as [H0 H1]; [intros y Hy; apply H; now right|].
    split; lra.
Qed.

Lemma mean_bounds xs :
  xs <> [] -> (forall x, In x xs -> -1 <= x /\ x <= 1) ->
  -1 <= Qsum xs / of_nat (List.length xs) /\ Qsum xs / of_nat (List.length xs) <= 1.
Proof.
  intros Hne H. destruct (Qsum_bounds xs H) as [H0 H1].
  assert (Hpos : 0 < of_nat (List.length xs)).
  { apply of_nat_pos. destruct xs; [congruence | simpl; lia]. }
  split.
  - apply Qle_shift_div_l; [exact Hpos|]. lra.
  - apply Qle_shift_div_r; [exact Hpos|]. lra.
Qed.

Lemma dampener_bounds n : 0 <= dampener n /\ dampener n <= 1.
Proof.
  unfold dampener. split.
  - apply Q.min_glb; [discriminate|].
    apply Qle_shift_div_l; [reflexivity|]. rewrite Qmult_0_l.
    change 0 with (of_nat 0). apply of_nat_le. lia.
  - apply Q.le_min_l.
Qed.

Lemma damped_bounds m d :
  -1 <= m -> m <= 1 -> 0 <= d -> d <= 1 -> -1 <= m * d /\ m * d <= 1.
Proof.
  intros Hm0 Hm1 Hd0 Hd1. split.
  - apply Qle_trans with (-1 * d); [lra|].
    apply Qmult_le_compat_r; assumption.
  - apply Qle_trans with (1 * d); [|lra].
    apply Qmult_le_compat_r; assumption.
Qed.

Lemma rankings_entry_bounds results a data p :
  In (a, data) (rankings_of results) ->
  -1 <= sentiment_score (entry p data) /\ sentiment_score (entry p data) <= 1.
Proof.
  intros Hin. apply rankings_of_items in Hin. subst data.
  unfold entry. simpl. unfold scores_of. rewrite DictFacts.find_assign_loop.
  destruct (in_dec string_dec p (Dict.keys results)).
  - apply score_of_bounds.
  - split; discriminate.
Qed.

(** X7.  On the rankings of any store the overall ranking is defined and
    every overall score lies between -1 and 1. *)
Theorem overall_scores_bounded (results : OpinionStore) (rankings : dict AspectRanking) :
  calculate_provider_rankings results = Ok rankings ->
  exists overall,
    calculate_overall_provider_rankings rankings = Ok overall
    /\ forall p s, In (p, s) overall -> -1 <= s /\ s <= 1.
Proof.
  intros Hr. apply calculate_provider_rankings_inv in Hr. subst rankings.
  destruct (rankings_of results) as [|item0 rest] eqn:E.
  - exists []. split; [reflexivity|]. intros p s [].
  - rewrite <- E. assert (Hne : rankings_of results <> []) by (rewrite E; discriminate).
    eexists. split; [apply (overall_run _ Hne (rankings_of_covered results))|].
    intros p s Hin.
    apply (Permutation_in _ (Permutation_sym (sorted_desc_perm snd _))) in Hin.
    unfold Dict.items in Hin. apply in_assign_loop in Hin.
    destruct Hin as [[]|[_ ->]].
    rewrite assigned_score_weighted. unfold weighted_score.
    destruct (dampener_bounds (opinions_across (rankings_of results) p)) as [Hd0 Hd1].
    assert (Hm : -1 <= mean_score (rankings_of results) p
                 /\ mean_score (rankings_of results) p <= 1).
    { unfold mean_score.
      rewrite <- (length_map
                    (fun item => sentiment_score (entry p (snd item)))
                    (rankings_of results)).
      apply mean_bounds.
      - rewrite E. discriminate.
      - intros x Hx. apply in_map_iff in Hx. destruct Hx as ([a data] & <- & Hi).
        simpl. now apply (rankings_entry_bounds results a data p). }
    destruct Hm as [Hm0 Hm1]. now apply damped_bounds.
Qed.

Lemma overall_scores_bounded_witness :
  exists rankings overall,
    calculate_provider_rankings sample_store = Ok rankings
    /\ calculate_overall_provider_rankings rankings = Ok overall
    /\ forall p s, In (p, s) overall -> -1 <= s /\ s <= 1.
Proof.
  exists (rankings_of sample_store).
  destruct (overall_scores_bounded sample_store (rankings_of sample_store) eq_refl)
    as (overall & Hrun & Hb).
  exists overall. repeat split; try assumption; now apply (Hb p s).
Defined.

(** * Totality and size of the insights *)

Lemma insight_statements_total sqrt ar :
  insight_statements sqrt ar
  = Ok (match ar with
        | [] => [NoData]
        | _ :: _ =>
            leader_statements ar
            ++ controversial_insight
                 (fold_left
                    (fun acc item =>
                       if (1 <? List.length (ranked_providers (snd item)))%nat
                       then Dict.set (fst item) (deviation sqrt (snd item)) acc
                       else acc)
                    ar [])
        end)%list.
Proof.
  destruct ar as [|item ar']; [reflexivity|].
  now rewrite insight_statements_nonempty.
Qed.

Lemma leader_insight_length a data : (List.length (leader_insight a data) <= 1)%nat.
Proof.
  unfold leader_insight.
  destruct (List.length (ranked_providers data) <? 2)%nat; [simpl; lia|].
  destruct (ranked_providers data) as [|[b bd] rest]; [simpl; lia|].
  destruct (last ((b, bd) :: rest) (b, bd)) as [w wd].
  destruct (Qltb _ _); simpl; lia.
Qed.

Lemma leader_statements_length ar :
  (List.length (leader_statements ar) <= List.length ar)%nat.
Proof.
  unfold leader_statements. induction ar as [|[a data] ar IH]; [simpl; lia|].
  cbn [flat_map fst snd]. rewrite length_app.
  pose proof (leader_insight_length a data). simpl. lia.
Qed.

Lemma controversial_insight_length variances :
  (List.length (controversial_insight variances) <= 1)%nat.
Proof.
  unfold controversial_insight. destruct (Dict.items variances); simpl; lia.
Qed.

(** X8.  The insight generator never raises: the standard deviation is only
    taken of two or more scores.  It returns at most one statement per aspect
    and one more, and the no-data statement only for the empty input. *)
Theorem insights_never_raise (title_rest : string -> string)
    (sqrt : Q -> Q) (ar : dict AspectRanking) :
  exists out,
    insight_statements sqrt ar = Ok out
    /\ generate_comparative_insights title_rest sqrt ar = Ok (map (render title_rest) out)
    /\ (List.length out <= List.length ar + 1)%nat
    /\ (In NoData out <-> ar = []).
Proof.
  eexists. split; [apply insight_statements_total|]. split.
  - unfold generate_comparative_insights. now rewrite insight_statements_total.
  - destruct ar as [|item ar'].
    + split; [simpl; lia|]. split; [reflexivity | intros _; now left].
    + split.
      * rewrite length_app.
        pose proof (leader_statements_length (item :: ar')).
        pose proof (controversial_insight_length
                      (fold_left
                         (fun acc item =>
                            if (1 <? List.length (ranked_providers (snd item)))%nat
                            then Dict.set (fst item) (deviation sqrt (snd item)) acc
                            else acc)
                         (item :: ar') [])).
        lia.
      * split; [|discriminate]. intros Hin. exfalso.
        apply in_app_or in Hin. destruct Hin as [Hin|Hin].
        -- unfold leader_statements in Hin. apply in_flat_map in Hin.
           destruct Hin as ([a data] & _ & Hin). simpl in Hin.
           unfold leader_insight in Hin.
           destruct (List.length (ranked_providers data) <? 2)%nat; [contradiction|].
           destruct (ranked_providers data) as [|[b bd] rest]; [contradiction|].
           destruct (last ((b, bd) :: rest) (b, bd)) as [w wd].
           destruct (Qltb _ _); [|contradiction].
           destruct Hin as [Hin|[]]. discriminate Hin.
        -- unfold controversial_insight in Hin.
           destruct (Dict.items _); [contradiction|].
           destruct Hin as [Hin|[]]. discriminate Hin.
Qed.

Lemma eligible_none ar :
  (forall a data, In (a, data) ar -> (List.length (ranked_providers data) < 2)%nat) ->
  eligible ar = [].
Proof.
  intros H. unfold eligible. induction ar as [|[a data] ar IH]; [reflexivity|].
  simpl. destruct (1 <? List.length (ranked_providers data))%nat eqn:E.
  - apply Nat.ltb_lt in E. specialize (H a data (or_introl eq_refl)). lia.
  - apply IH. intros a' d' Hin. apply (H a' d'). now right.
Qed.

Lemma variances_none sqrt (items : dict AspectRanking) acc :
  eligible items = [] ->
  fold_left
    (fun acc item =>
       if (1 <? List.length (ranked_providers (snd item)))%nat
       then Dict.set (fst item) (deviation sqrt (snd item)) acc
       else acc)
    items acc = acc.
Proof.
  revert acc. unfold eligible.
  induction items as [|[a data] items IH]; intros acc H; simpl in *; [reflexivity|].
  destruct (1 <? List.length (ranked_providers data))%nat; [discriminate|].
  now apply IH.
Qed.

Lemma leader_statements_none ar :
  (forall a data, In (a, data) ar -> (List.length (ranked_providers data) < 2)%nat) ->
  leader_statements ar = [].
Proof.
  intros H. unfold leader_statements. induction ar as [|[a data] ar IH]; [reflexivity|].
  cbn [flat_map fst snd].
  rewrite leader_insight_short by (apply (H a data); now left).
  apply IH. intros a' d' Hin. apply (H a' d'). now right.
Qed.

(** X9.  A non-empty input in which no aspect ranks two providers gives no
    statement at all: the insight list is empty, not the no-data fallback. *)
Theorem insights_empty_below_two_providers (title_rest : string -> string)
    (sqrt : Q -> Q) (ar : dict AspectRanking) :
  ar <> [] ->
  (forall a data, In (a, data) ar -> (List.length (ranked_providers data) < 2)%nat) ->
  generate_comparative_insights title_rest sqrt ar = Ok [].
Proof.
  intros Hne Hshort. unfold generate_comparative_insights.
  rewrite (insight_statements_nonempty sqrt ar Hne).
  rewrite (variances_none sqrt ar [] (eligible_none ar Hshort)).
  rewrite (leader_statements_none ar Hshort). reflexivity.
Qed.

Lemma insights_empty_below_two_providers_witness :
  rankings_of lone_store <> []
  /\ generate_comparative_insights (fun s => s) (fun v => v) (rankings_of lone_store) = Ok [].
Proof.
  split; [discriminate|].
  apply insights_empty_below_two_providers; [discriminate|].
  intros a data Hin. apply rankings_of_items in Hin. subst data.
  rewrite ranked_length. simpl. lia.
Defined.

(** * The stages after the ranking never fail *)

Lemma keys_set {V : Type} k (v : V) d :
  Dict.keys (Dict.set k v d)
  = if Dict.mem k d then Dict.keys d else (Dict.keys d ++ [k])%list.
Proof.
  unfold Dict.mem. induction d as [|[k' v'] d IH]; simpl; [reflexivity|].
  destruct (String.eqb k k') eqn:E; simpl.
  - apply String.eqb_eq in E. now subst.
  - rewrite IH. now destruct (Dict.find k d).
Qed.

Lemma set_wf {V : Type} k (v : V) d : Dict.wf d -> Dict.wf (Dict.set k v d).
Proof.
  unfold Dict.wf. intros H. rewrite keys_set.
  destruct (Dict.mem k d) eqn:E; [exact H|].
  apply mem_false_find in E. apply DictFacts.find_none_keys in E.
  apply NoDup_app; [exact H | repeat constructor; intros [] |].
  intros x Hx [<-|[]]. contradiction.
Qed.

Lemma assign_loop_wf {V : Type} (f : string -> V) l d :
  Dict.wf d -> Dict.wf (fold_left (fun acc x => Dict.set x (f x) acc) l d).
Proof.
  revert d. induction l as [|x l IH]; intros d H; simpl; [exact H|].
  apply IH. now apply set_wf.
Qed.

Lemma rankings_of_wf results : Dict.wf (rankings_of results).
Proof. apply assign_loop_wf. constructor. Qed.

Lemma score_providers_no_statistics_error results asp ps acc :
  score_providers results asp ps acc <> StatisticsError.
Proof.
  revert acc. induction ps as [|p ps IH]; intros acc; simpl; [discriminate|].
  unfold Dict.get at 1. destruct (Dict.find p results) as [m|]; [|discriminate].
  simpl. unfold Dict.get at 1. destruct (Dict.find asp m) as [ops|]; [|discriminate].
  simpl. rewrite bucket_score_total. simpl. apply IH.
Qed.

Lemma rank_aspects_no_statistics_error results aspects acc :
  rank_aspects results aspects acc <> StatisticsError.
Proof.
  revert acc. induction aspects as [|a aspects IH]; intros acc; simpl; [discriminate|].
  destruct (score_providers results a (Dict.keys results) []) eqn:E; simpl.
  - apply IH.
  - discriminate.
  - now apply score_providers_no_statistics_error in E.
Qed.

Lemma ranking_no_statistics_error results :
  calculate_provider_rankings results <> StatisticsError.
Proof.
  unfold calculate_provider_rankings. destruct results as [|[fp fm] rest] eqn:E;
    [discriminate|].
  rewrite <- E. rewrite (first_lookup results fp fm rest E). simpl.
  apply rank_aspects_no_statistics_error.
Qed.

Lemma overall_of_rankings results :
  exists overall, calculate_overall_provider_rankings (rankings_of results) = Ok overall.
Proof.
  destruct (rankings_of results) as [|item rest] eqn:E.
  - now exists [].
  - rewrite <- E. eexists. apply overall_run; [rewrite E; discriminate|].
    apply rankings_of_covered.
Qed.

Lemma matrix_of_rankings results :
  exists m, create_provider_comparison_matrix (rankings_of results) = Ok m.
Proof.
  pose proof (rankings_of_covered results) as Hcov.
  rewrite <- (covered_by_aspect _ (rankings_of_wf results)) in Hcov.
  pose proof (matrix_columns_ok (rankings_of results)
                (first_providers (rankings_of results))
                (Dict.keys (rankings_of results)) [] (fun a H => H) Hcov) as Hcols.
  destruct (rankings_of results) as [|[a0 d0] rest].
  - now exists empty_matrix.
  - unfold create_provider_comparison_matrix.
    change (Dict.keys (provider_scores d0)) with (first_providers ((a0, d0) :: rest)).
    rewrite Hcols. eexists. reflexivity.
Qed.

(** X10.  The postprocessing fails only where the aspect ranking fails: when
    the ranking returns, the overall ranking, the insights and the matrix are
    all defined on it and the result collects them; a [KeyError] of the
    ranking is the [KeyError] of the whole; no stage ever raises a
    [StatisticsError]. *)
Theorem postprocess_follows_ranking (title_rest : string -> string)
    (sqrt : Q -> Q) (results : OpinionStore) :
  (forall rankings,
     calculate_provider_rankings results = Ok rankings ->
     exists overall statements m,
       calculate_overall_provider_rankings rankings = Ok overall
       /\ insight_statements sqrt rankings = Ok statements
       /\ create_provider_comparison_matrix rankings = Ok m
       /\ postprocess_sentiment_results title_rest sqrt results
          = Ok (mkPost rankings overall (map (render title_rest) statements)
                       (create_comparative_summary_dataframe rankings) m))
  /\ (forall k,
        calculate_provider_rankings results = KeyError k ->
        postprocess_sentiment_results title_rest sqrt results = KeyError k)
  /\ postprocess_sentiment_results title_rest sqrt results <> StatisticsError.
Proof.
  assert (Hok : forall rankings,
             calculate_provider_rankings results = Ok rankings ->
             exists overall statements m,
               calculate_overall_provider_rankings rankings = Ok overall
               /\ insight_statements sqrt rankings = Ok statements
               /\ create_provider_comparison_matrix rankings = Ok m
               /\ postprocess_sentiment_results title_rest sqrt results
                  = Ok (mkPost rankings overall (map (render title_rest) statements)
                               (create_comparative_summary_dataframe rankings) m)).
  { intros rankings Hr. pose proof Hr as Hinv.
    apply calculate_provider_rankings_inv in Hinv. subst rankings.
    destruct (overall_of_rankings results) as (overall & Ho).
    destruct (matrix_of_rankings results) as (m & Hm).
    exists overall. eexists. exists m.
    split; [exact Ho|]. split; [apply insight_statements_total|]. split; [exact Hm|].
    unfold postprocess_sentiment_results, generate_comparative_insights.
    rewrite Hr. cbn [bind]. rewrite Ho. cbn [bind].
    rewrite insight_statements_total. cbn [bind]. rewrite Hm. reflexivity. }
  split; [exact Hok|]. split.
  - intros k Hk. unfold postprocess_sentiment_results. now rewrite Hk.
  - destruct (calculate_provider_rankings results) as [rankings|k|] eqn:E.
    + destruct (Hok rankings eq_refl) as (o & s & m & _ & _ & _ & Hp).
      rewrite Hp. discriminate.
    + unfold postprocess_sentiment_results. rewrite E. discriminate.
    + now apply ranking_no_statistics_error in E.
Qed.

Lemma postprocess_follows_ranking_witness :
  exists post,
    postprocess_sentiment_results (fun s => s) (fun v => v) sample_store = Ok post
    /\ aspect_rankings_of post = rankings_of sample_store.
Proof.
  destruct (proj1 (postprocess_follows_ranking (fun s => s) (fun v => v) sample_store)
              (rankings_of sample_store) eq_refl)
    as (overall & statements & m & _ & _ & _ & Hp).
  eexists. split; [exact Hp | reflexivity].
Defined.

(** * Best and worst provider *)

Lemma descending_last {A : Type} (key : A -> Q) l d y :
  descending key l -> In y l -> key (last l d) <= key y.
Proof.
  unfold descending. intros Hs. revert y. induction Hs as [|x l Hs IH Hall]; intros y Hy;
    [contradiction|].
  destruct l as [|z l'].
  - destruct Hy as [<-|[]]. apply Qle_refl.
  - change (last (x :: z :: l') d) with (last (z :: l') d).
    destruct Hy as [<-|Hy]; [|now apply IH].
    rewrite Forall_forall in Hall. apply Hall.
    clear. revert z. induction l' as [|u l' IH]; intros z; [now left|].
    right. apply IH.
Qed.

Lemma last_key_of_last {V : Type} (l : list (string * V)) d :
  l <> [] -> last_key l = Some (fst (last l d)).
Proof.
  induction l as [|[k v] l IH]; intros Hne; [congruence|].
  destruct l as [|kv l']; [reflexivity|].
  change (last_key ((k, v) :: kv :: l')) with (last_key (kv :: l')).
  change (last ((k, v) :: kv :: l') d) with (last (kv :: l') d).
  apply IH. discriminate.
Qed.

Lemma rank_aspect_extremes scores :
  Dict.wf scores -> scores <> [] ->
  exists b sb w sw,
    best_provider (rank_aspect scores) = Some b
    /\ worst_provider (rank_aspect scores) = Some w
    /\ Dict.find b scores = Some sb
    /\ Dict.find w scores = Some sw
    /\ forall p sc,
         Dict.find p scores = Some sc ->
         sentiment_score sw <= sentiment_score sc
         /\ sentiment_score sc <= sentiment_score sb.
Proof.
  intros Hwf Hne. simpl. fold score_key.
  pose proof (sorted_desc_perm score_key scores) as Hperm.
  pose proof (sorted_desc_descending score_key scores) as Hdesc.
  unfold Dict.items. destruct (sorted_desc score_key scores) as [|[b sb] rest] eqn:E.
  - apply Permutation_sym, Permutation_nil in Hperm. congruence.
  - destruct (last ((b, sb) :: rest) (b, sb)) as [w sw] eqn:El.
    exists b, sb, w, sw.
    split; [reflexivity|].
    split; [rewrite (last_key_of_last _ (b, sb)) by discriminate; now rewrite El|].
    assert (Hb : In (b, sb) scores)
      by (apply (Permutation_in _ (Permutation_sym Hperm)); now left).
    assert (Hw : In (w, sw) scores).
    { apply (Permutation_in _ (Permutation_sym Hperm)). rewrite <- El. apply last_in. }
    split; [now apply DictFacts.in_find_wf|]. split; [now apply DictFacts.in_find_wf|].
    intros p sc Hsc. apply DictFacts.find_some_in in Hsc.
    apply (Permutation_in _ Hperm) in Hsc. split.
    + pose proof (descending_last score_key _ (b, sb) (p, sc) Hdesc Hsc) as H.
      rewrite El in H. exact H.
    + unfold descending in Hdesc. inversion Hdesc as [|? ? _ Hall]; subst.
      destruct Hsc as [[= -> ->]|Hsc]; [apply Qle_refl|].
      rewrite Forall_forall in Hall. apply (Hall (p, sc) Hsc).
Qed.

Lemma rankings_of_scores_nonempty results a :
  results <> [] -> scores_of results a <> [].
Proof.
  intros Hne Hs. destruct results as [|[p m] rest]; [congruence|].
  assert (H : Dict.mem p (scores_of ((p, m) :: rest) a) = true)
    by (apply scores_of_mem; now left).
  rewrite Hs in H. discriminate H.
Qed.

Lemma scores_of_wf results a : Dict.wf (scores_of results a).
Proof. apply assign_loop_wf. constructor. Qed.

Lemma rankings_of_nonempty_store results a data :
  In (a, data) (rankings_of results) -> results <> [].
Proof. intros Hin ->. exact Hin. Qed.

(** X11.  In every aspect of the rankings of a store, the best provider has
    a score no other provider of the aspect exceeds and the worst provider a
    score none falls below. *)
Theorem best_and_worst_dominate (results : OpinionStore) (rankings : dict AspectRanking) :
  calculate_provider_rankings results = Ok rankings ->
  forall a data,
    In (a, data) rankings ->
    exists b sb w sw,
      best_provider data = Some b
      /\ worst_provider data = Some w
      /\ Dict.find b (provider_scores data) = Some sb
      /\ Dict.find w (provider_scores data) = Some sw
      /\ forall p sc,
           Dict.find p (provider_scores data) = Some sc ->
           sentiment_score sw <= sentiment_score sc
           /\ sentiment_score sc <= sentiment_score sb.
Proof.
  intros Hr a data Hin. apply calculate_provider_rankings_inv in Hr. subst rankings.
  pose proof (rankings_of_nonempty_store results a data Hin) as Hne.
  apply rankings_of_items in Hin. subst data.
  apply rank_aspect_extremes.
  - apply scores_of_wf.
  - now apply rankings_of_scores_nonempty.
Qed.

Lemma best_and_worst_dominate_witness :
  exists data b w,
    In ("support", data) (rankings_of sample_store)
    /\ best_provider data = Some b /\ worst_provider data = Some w.
Proof.
  exists (rank_aspect (scores_of sample_store "support")).
  destruct (best_and_worst_dominate sample_store (rankings_of sample_store) eq_refl
              "support" (rank_aspect (scores_of sample_store "support")))
    as (b & sb & w & sw & Hb & Hw & _); [right; now left|].
  exists b, w. split; [right; now left|]. split; assumption.
Defined.

Lemma leader_insight_in i a data :
  In i (leader_insight a data) ->
  exists b bd w wd rest,
    ranked_providers data = (b, bd) :: rest
    /\ last (ranked_providers data) (b, bd) = (w, wd)
    /\ 1 # 10 < sentiment_score bd - sentiment_score wd
    /\ i = Leads a b (positive_ratio bd) w (positive_ratio wd).
Proof.
  unfold leader_insight.
  destruct (List.length (ranked_providers data) <? 2)%nat; [contradiction|].
  destruct (ranked_providers data) as [|[b bd] rest]; [contradiction|].
  destruct (last ((b, bd) :: rest) (b, bd)) as [w wd] eqn:El.
  destruct (Qltb (1 # 10) (sentiment_score bd - sentiment_score wd)) eqn:Eg;
    [|contradiction].
  intros [<-|[]]. apply Qltb_lt in Eg.
  exists b, bd, w, wd, rest. repeat split; assumption.
Qed.

Lemma set_key_in {V : Type} k k0 (v : V) d :
  In k (Dict.keys (Dict.set k0 v d)) -> k = k0 \/ In k (Dict.keys d).
Proof.
  unfold Dict.keys. induction d as [|[k' v'] d IH]; simpl.
  - intros [H|[]]. now left.
  - destruct (String.eqb k0 k'); simpl.
    + intros [H|H]; [now left | right; now right].
    + intros [H|H]; [right; now left|].
      destruct (IH H) as [E|E]; [now left | right; now right].
Qed.

Lemma b64_variance_keys stdev items acc a :
  In a (Dict.keys (Binary64.collect_variances stdev items acc)) ->
  In a (Dict.keys acc)
  \/ exists data,
       In (a, data) items
       /\ (2 <= List.length (Binary64.ranked_providers data))%nat.
Proof.
  unfold Binary64.collect_variances.
  revert acc. induction items as [|[k data] items IH]; intros acc H; simpl in H.
  - now left.
  - apply IH in H. destruct H as [H|(d & Hin & Hlen)].
    + unfold Binary64.ranked_scores in H. rewrite length_map in H. cbn [fst snd] in H.
      destruct (1 <? List.length (Binary64.ranked_providers data))%nat eqn:E.
      * apply set_key_in in H. destruct H as [->|H]; [|now left].
        right. exists data. split; [now left|]. apply Nat.ltb_lt in E. lia.
      * now left.
    + right. exists d. split; [now right | exact Hlen].
Qed.

Lemma b64_max_by_in {A : Type} (key : A -> float) best rest :
  In (Binary64.max_by key best rest) (best :: rest).
Proof.
  revert best. induction rest as [|x rest IH]; intros best; simpl; [now left|].
  destruct (PrimFloat.ltb (key best) (key x)).
  - right. apply IH.
  - destruct (IH best) as [H|H]; [now left | right; now right].
Qed.

Lemma nth_error_last {A : Type} (x : A) l d :
  nth_error (x :: l) (List.length (x :: l) - 1) = Some (last (x :: l) d).
Proof.
  revert x. induction l as [|y l IH]; intros x; [reflexivity|].
  specialize (IH y). simpl in IH |- *. now rewrite Nat.sub_0_r in IH.
Qed.

Lemma b64_leader_insight_in i a data :
  In i (Binary64.leader_insight a data) ->
  exists b bd w wd,
    (2 <= List.length (Binary64.ranked_providers data))%nat
    /\ nth_error (Binary64.ranked_providers data) 0 = Some (b, bd)
    /\ nth_error (Binary64.ranked_providers data)
                 (List.length (Binary64.ranked_providers data) - 1)
       = Some (w, wd)
    /\ PrimFloat.ltb Binary64.tenth
         (PrimFloat.sub (Binary64.sentiment_score bd) (Binary64.sentiment_score wd))
       = true
    /\ i = Binary64.Leads a b (Binary64.positive_ratio bd)
                          w (Binary64.positive_ratio wd).
Proof.
  unfold Binary64.leader_insight.
  destruct (List.length (Binary64.ranked_providers data) <? 2)%nat eqn:El;
    [contradiction|].
  apply Nat.ltb_ge in El.
  destruct (Binary64.ranked_providers data) as [|[b bd] rest] eqn:Er; [contradiction|].
  pose proof (nth_error_last (b, bd) rest (b, bd)) as Hlast.
  destruct (last ((b, bd) :: rest) (b, bd)) as [w wd].
  destruct (PrimFloat.ltb _ _) eqn:Eg; [|contradiction].
  intros [<-|[]]. exists b, bd, w, wd. repeat split; assumption.
Qed.

(** X12.  Every string the function returns on binary64 scores is accounted
    for: the no-data line, returned for the empty input only; the
    most-controversial line of an aspect with at least two ranked providers;
    or the line of an aspect whose first and last ranked providers it names
    with their positive ratios as percentages, and then the binary64
    difference of their scores is greater than the literal [0.1]. *)
Theorem leader_statements_truthful (title_rest : string -> string)
    (stdev : list float -> float)
    (ar : dict Binary64.AspectRanking) (s : string) :
  In s (Binary64.generate_comparative_insights title_rest stdev ar) ->
  (ar = [] /\ s = "No data available for comparative analysis.")
  \/ (exists a data,
        In (a, data) ar
        /\ (2 <= List.length (Binary64.ranked_providers data))%nat
        /\ s = "Most controversial aspect: " ++ a ++ " (highest sentiment variance)")
  \/ (exists a data b bd w wd,
        In (a, data) ar
        /\ (2 <= List.length (Binary64.ranked_providers data))%nat
        /\ nth_error (Binary64.ranked_providers data) 0 = Some (b, bd)
        /\ nth_error (Binary64.ranked_providers data)
                     (List.length (Binary64.ranked_providers data) - 1)
           = Some (w, wd)
        /\ PrimFloat.ltb Binary64.tenth
             (PrimFloat.sub (Binary64.sentiment_score bd)
                            (Binary64.sentiment_score wd))
           = true
        /\ s = title title_rest a ++ ": " ++ b ++ " leads with "
               ++ percent_of_float (Binary64.positive_ratio bd)
               ++ " positive sentiment vs " ++ w ++ " at "
               ++ percent_of_float (Binary64.positive_ratio wd)).
Proof.
  unfold Binary64.generate_comparative_insights. intros Hin.
  apply in_map_iff in Hin. destruct Hin as (i & <- & Hin).
  destruct ar as [|item0 ar'] eqn:E.
  { destruct Hin as [<-|[]]. left. now split. }
  rewrite <- E in *. assert (Hne : ar <> []) by (rewrite E; discriminate).
  rewrite (b64_insight_statements_nonempty stdev ar Hne) in Hin.
  apply in_app_or in Hin. destruct Hin as [Hin|Hin].
  - right. right. unfold Binary64.leader_statements in Hin.
    apply in_flat_map in Hin. destruct Hin as ([a data] & Hitem & Hin).
    apply b64_leader_insight_in in Hin.
    destruct Hin as (b & bd & w & wd & Hlen & Hfirst & Hlast & Hgap & ->).
    exists a, data, b, bd, w, wd. repeat split; assumption.
  - right. left. unfold Binary64.controversial_insight in Hin.
    destruct (Dict.items (Binary64.collect_variances stdev ar [])) as [|first rest] eqn:Ev;
      [contradiction|].
    destruct Hin as [<-|[]].
    pose proof (b64_max_by_in snd first rest) as Hmax. rewrite <- Ev in Hmax.
    apply (in_map fst) in Hmax.
    apply (b64_variance_keys stdev ar [] _) in Hmax.
    destruct Hmax as [[]|(data & Hitem & Hlen)].
    exists (fst (Binary64.max_by snd first rest)), data. repeat split; assumption.
Qed.

Lemma leader_statements_truthful_witness :
  In "Cost: AWS leads with 80.0% positive sentiment vs GCP at 70.0%"
     (Binary64.generate_comparative_insights (fun s => s) Binary64.stepwise_stdev
        Binary64.narrow_rankings)
  /\ exists a data b bd w wd,
       In (a, data) Binary64.narrow_rankings
       /\ nth_error (Binary64.ranked_providers data) 0 = Some (b, bd)
       /\ nth_error (Binary64.ranked_providers data)
                    (List.length (Binary64.ranked_providers data) - 1)
          = Some (w, wd)
       /\ PrimFloat.ltb Binary64.tenth
            (PrimFloat.sub (Binary64.sentiment_score bd)
                           (Binary64.sentiment_score wd))
          = true
       /\ "Cost: AWS leads with 80.0% positive sentiment vs GCP at 70.0%"
          = title (fun s => s) a ++ ": " ++ b ++ " leads with "
            ++ percent_of_float (Binary64.positive_ratio bd)
            ++ " positive sentiment vs " ++ w ++ " at "
            ++ percent_of_float (Binary64.positive_ratio wd).
Proof.
  assert (Hin : In "Cost: AWS leads with 80.0% positive sentiment vs GCP at 70.0%"
                   (Binary64.generate_comparative_insights (fun s => s)
                      Binary64.stepwise_stdev Binary64.narrow_rankings))
    by (left; reflexivity).
  split; [exact Hin|].
  destruct (leader_statements_truthful (fun s => s) _ _ _ Hin)
    as [[Hnil _]|[(a & data & _ & _ & Hs)|(a & data & b & bd & w & wd & H)]].
  - discriminate Hnil.
  - discriminate Hs.
  - exists a, data, b, bd, w, wd. tauto.
Defined.

(** * Further facts about whole-word matching *)

Lemma search_without_word_chars unicode prev word t :
  word_at unicode prev = false -> existsb (is_word_char unicode) t = false ->
  search_from unicode prev word t = false.
Proof.
  revert prev. induction t as [|d t IH]; intros prev Hp Ht.
  - simpl. unfold boundary. simpl. rewrite Hp. reflexivity.
  - simpl in Ht. apply orb_false_iff in Ht. destruct Ht as [Hd Ht].
    cbn [search_from]. unfold boundary at 1. simpl. rewrite Hp, Hd. simpl.
    apply IH; [exact Hd | exact Ht].
Qed.

(** X13.  A text without any word character, the empty text included,
    matches no word at all, not even the empty one: the pattern needs a word
    boundary.  Word characters are those of the whole character set, so a
    text of one accented letter is not such a text. *)
Theorem no_match_without_word_chars (unicode : UnicodeData) (word text : string) :
  has_word_char unicode text = false -> contains_whole_word unicode word text = false.
Proof. intros H. now apply search_without_word_chars. Qed.

Lemma no_match_without_word_chars_witness :
  has_word_char latin1 "... !?" = false
  /\ has_word_char latin1 "é" = true
  /\ contains_whole_word latin1 "" "... !?" = false.
Proof.
  split; [reflexivity|]. split; [reflexivity|].
  apply no_match_without_word_chars. reflexivity.
Defined.

Lemma fold_ascii_idem c : fold_ascii (fold_ascii c) = fold_ascii c.
Proof. unfold fold_ascii. compare_codes. Qed.

Lemma fold_ascii_below c : ((fold_ascii c <? 128) = (c <? 128))%N.
Proof. unfold fold_ascii. compare_codes. Qed.

Lemma fold_ascii_high c : (128 <= c)%N -> fold_ascii c = c.
Proof. intros H. unfold fold_ascii. compare_codes. Qed.

Lemma ascii_word_fold c : ascii_word (fold_ascii c) = ascii_word c.
Proof. unfold ascii_word, fold_ascii. compare_codes. Qed.

Lemma is_word_char_fold unicode c :
  is_word_char unicode (fold_ascii c) = is_word_char unicode c.
Proof.
  unfold is_word_char. rewrite fold_ascii_below.
  destruct (N.ltb_spec c 128); [apply ascii_word_fold|].
  now rewrite fold_ascii_high.
Qed.

Lemma eqb_ci_fold unicode p c :
  eqb_ci unicode (fold_ascii p) (fold_ascii c) = eqb_ci unicode p c.
Proof.
  unfold eqb_ci. rewrite !fold_ascii_idem, !fold_ascii_below.
  destruct (N.ltb_spec p 128) as [Hp|Hp], (N.ltb_spec c 128) as [Hc|Hc];
    cbn [andb].
  - destruct (N.eqb_spec (fold_ascii p) (fold_ascii c)) as [E|E].
    + now rewrite !orb_true_r.
    + destruct (N.eqb_spec p c) as [E'|E']; [subst; congruence|reflexivity].
  - rewrite (fold_ascii_high c Hc). f_equal.
    unfold fold_ascii. compare_codes.
  - rewrite (fold_ascii_high p Hp). f_equal.
    unfold fold_ascii. compare_codes.
  - now rewrite (fold_ascii_high p Hp), (fold_ascii_high c Hc).
Qed.

Lemma word_at_folded unicode c d :
  fold_ascii c = fold_ascii d ->
  word_at unicode (Some c) = word_at unicode (Some d).
Proof.
  intros H. simpl.
  rewrite <- (is_word_char_fold unicode c), <- (is_word_char_fold unicode d).
  now rewrite H.
Qed.

Lemma first_char_folded unicode (a b : list N) :
  map fold_ascii a = map fold_ascii b ->
  word_at unicode (first_char a) = word_at unicode (first_char b).
Proof.
  destruct a as [|c a], b as [|d b]; simpl; try discriminate; [reflexivity|].
  intros [= Hc _]. now apply (word_at_folded unicode c d).
Qed.

Lemma boundary_folded unicode p p' t t' :
  word_at unicode p = word_at unicode p' ->
  map fold_ascii t = map fold_ascii t' ->
  boundary unicode p t = boundary unicode p' t'.
Proof.
  intros Hp Ht. unfold boundary. now rewrite Hp, (first_char_folded unicode t t' Ht).
Qed.

Lemma eqb_ci_folded unicode c c' d d' :
  fold_ascii c = fold_ascii c' -> fold_ascii d = fold_ascii d' ->
  eqb_ci unicode c d = eqb_ci unicode c' d'.
Proof.
  intros Hc Hd.
  rewrite <- (eqb_ci_fold unicode c d), <- (eqb_ci_fold unicode c' d').
  now rewrite Hc, Hd.
Qed.

Lemma match_here_folded unicode p p' w w' t t' :
  word_at unicode p = word_at unicode p' ->
  map fold_ascii w = map fold_ascii w' -> map fold_ascii t = map fold_ascii t' ->
  match_here unicode p w t = match_here unicode p' w' t'.
Proof.
  revert p p' w' t t'. induction w as [|c w IH]; intros p p' w' t t' Hp Hw Ht.
  - destruct w'; [|discriminate]. simpl. now apply boundary_folded.
  - destruct w' as [|c' w']; [discriminate|]. simpl in Hw. injection Hw as Hc Hw.
    destruct t as [|d t], t' as [|d' t']; try discriminate; [reflexivity|].
    simpl in Ht. injection Ht as Hd Ht. simpl.
    rewrite (eqb_ci_folded unicode c c' d d' Hc Hd). f_equal.
    apply IH; [|exact Hw|exact Ht]. now apply word_at_folded.
Qed.

Lemma search_from_folded unicode p p' w w' t t' :
  word_at unicode p = word_at unicode p' ->
  map fold_ascii w = map fold_ascii w' -> map fold_ascii t = map fold_ascii t' ->
  search_from unicode p w t = search_from unicode p' w' t'.
Proof.
  revert p p' t'. induction t as [|d t IH]; intros p p' t' Hp Hw Ht.
  - destruct t'; [|discriminate]. simpl.
    rewrite (boundary_folded unicode p p' [] [] Hp eq_refl).
    now rewrite (match_here_folded unicode p p' w w' [] [] Hp Hw eq_refl).
  - destruct t' as [|d' t']; [discriminate|]. pose proof Ht as Ht0.
    simpl in Ht. injection Ht as Hd Ht. cbn [search_from].
    rewrite (boundary_folded unicode p p' _ _ Hp Ht0).
    rewrite (match_here_folded unicode p p' w w' _ _ Hp Hw Ht0). f_equal.
    apply IH; [|exact Hw|exact Ht]. now apply word_at_folded.
Qed.

Lemma to_lower_code b : N_of_ascii (to_lower b) = fold_ascii (N_of_ascii b).
Proof. destruct b as [[] [] [] [] [] [] [] []]; reflexivity. Qed.

Lemma utf8_start_fold n :
  utf8_start (fold_ascii n)
  = (fst (utf8_start n), map fold_ascii (snd (utf8_start n))).
Proof. unfold utf8_start, fold_ascii, replacement. compare_codes. Qed.

Lemma utf8_feed_fold st n :
  utf8_feed st (fold_ascii n)
  = (fst (utf8_feed st n), map fold_ascii (snd (utf8_feed st n))).
Proof.
  destruct st as [|acc more]; [apply utf8_start_fold|].
  unfold utf8_feed. rewrite utf8_start_fold. cbn [fst snd].
  destruct (N.leb_spec 65 n) as [H1|H1], (N.leb_spec n 90) as [H2|H2].
  - assert (E : fold_ascii n = (n + 32)%N)
      by (unfold fold_ascii; compare_codes).
    rewrite E. compare_codes.
  - rewrite (proj2 (N.leb_gt _ _) H2), andb_false_r || idtac.
    assert (E : fold_ascii n = n) by (unfold fold_ascii; compare_codes).
    rewrite E.
    destruct ((128 <=? n) && (n <? 192))%N eqn:Hc.
    + destruct more; [|reflexivity]. cbn [fst snd map]. f_equal. f_equal.
      symmetry. unfold fold_ascii, replacement. compare_codes.
    + cbn [fst snd map]. reflexivity.
  - assert (E : fold_ascii n = n) by (unfold fold_ascii; compare_codes).
    rewrite E.
    destruct ((128 <=? n) && (n <? 192))%N eqn:Hc.
    + apply andb_true_iff in Hc. destruct Hc as [Hc _].
      apply N.leb_le in Hc. lia.
    + cbn [fst snd map]. reflexivity.
  - lia.
Qed.

Lemma decode_from_lower st s :
  decode_from st (lower_string s) = map fold_ascii (decode_from st s).
Proof.
  revert st. induction s as [|b s IH]; intros st.
  - destruct st; reflexivity.
  - cbn [lower_string decode_from]. rewrite to_lower_code, utf8_feed_fold.
    cbn [fst snd]. rewrite IH, map_app. reflexivity.
Qed.

Lemma codepoints_lower a b :
  lower_string a = lower_string b ->
  map fold_ascii (codepoints a) = map fold_ascii (codepoints b).
Proof.
  intros H. unfold codepoints. rewrite <- !decode_from_lower. now rewrite H.
Qed.

(** X14.  Matching ignores letter case throughout: two words that agree up
    to case and two texts that agree up to case give the same answer. *)
Theorem match_ignores_case (unicode : UnicodeData) (word word' text text' : string) :
  lower_string word = lower_string word' ->
  lower_string text = lower_string text' ->
  contains_whole_word unicode word text = contains_whole_word unicode word' text'.
Proof.
  intros Hw Ht. apply search_from_folded; [reflexivity| |]; now apply codepoints_lower.
Qed.

Lemma match_ignores_case_witness :
  contains_whole_word latin1 "aws" "Moving to AWS soon"
  = contains_whole_word latin1 "AwS" "moving TO aws SOON".
Proof. apply match_ignores_case; reflexivity. Defined.

Lemma same_word_refl unicode w : same_word unicode w w = true.
Proof.
  induction w as [|c w IH]; [reflexivity|].
  simpl. unfold eqb_ci. now rewrite N.eqb_refl.
Qed.

(** X15.  A word that begins and ends with a word character is found in any
    text whose characters are those of the word with no word character
    directly before or after them; word characters are those of the whole
    character set. *)
Theorem standalone_word_found (unicode : UnicodeData) (word text : string)
    (pre post : list N) :
  codepoints text = (pre ++ codepoints word ++ post)%list ->
  word_edges unicode word = true ->
  word_at unicode (last_char_or None pre) = false ->
  word_at unicode (first_char post) = false ->
  contains_whole_word unicode word text = true.
Proof.
  intros Ht He Hpre Hpost. apply contains_whole_word_spec.
  unfold word_edges in He. apply andb_true_iff in He. destruct He as [Hfirst Hlast].
  exists pre, (codepoints word), post. split; [exact Ht|].
  assert (Hw : codepoints word <> []) by (intros E; rewrite E in Hfirst; discriminate).
  split; [|split].
  - apply same_word_refl.
  - unfold boundary. rewrite Hpre.
    destruct (codepoints word) as [|c w]; [congruence|]. simpl in *.
    now rewrite Hfirst.
  - unfold boundary. rewrite Hpost, last_char_or_app.
    destruct (codepoints word) as [|c w]; [congruence|].
    simpl in *. rewrite xorb_false_r.
    revert Hlast. generalize c. clear.
    induction w as [|d w IH]; intros c H; simpl in *; [exact H|]. now apply IH.
Qed.

Lemma standalone_word_found_witness :
  codepoints "café, GCP, sadly"
  = (codepoints "café, " ++ codepoints "GCP" ++ codepoints ", sadly")%list
  /\ contains_whole_word latin1 "GCP" "café, GCP, sadly" = true
  /\ contains_whole_word latin1 "GCP" "caféGCP, sadly" = false.
Proof.
  split; [reflexivity|]. split; [|reflexivity].
  apply (standalone_word_found latin1 "GCP" "café, GCP, sadly"
           (codepoints "café, ") (codepoints ", sadly")); reflexivity.
Defined.

Lemma is_relevant_app unicode prov ks1 ks2 sent :
  is_relevant unicode prov (ks1 ++ ks2) sent
  = is_relevant unicode prov ks1 sent || is_relevant unicode prov ks2 sent.
Proof.
  unfold is_relevant. rewrite existsb_app.
  destruct (contains_whole_word unicode prov sent); reflexivity.
Qed.

(** X16.  The extractor returns at most the sentences of the text, none at
    all without keywords, and for two keyword lists together exactly the
    sentences it returns for one of them. *)
Theorem extract_by_keywords (unicode : UnicodeData)
    (sent_tokenize : string -> list string)
    (text : option string) (prov : string) (ks1 ks2 : list string) :
  extract_relevant_sentences unicode sent_tokenize text prov [] = []
  /\ (List.length (extract_relevant_sentences unicode sent_tokenize text prov ks1)
      <= List.length (sent_tokenize (or_empty text)))%nat
  /\ forall sent,
       In sent (extract_relevant_sentences unicode sent_tokenize text prov
                  (ks1 ++ ks2))
       <-> In sent (extract_relevant_sentences unicode sent_tokenize text prov ks1)
           \/ In sent (extract_relevant_sentences unicode sent_tokenize text prov ks2).
Proof.
  rewrite !extract_filter. split; [|split].
  - induction (sent_tokenize (or_empty text)) as [|s l IH]; [reflexivity|].
    simpl. unfold is_relevant at 1. simpl. rewrite andb_false_r. exact IH.
  - apply filter_length_le.
  - intros sent. rewrite !filter_In, is_relevant_app, orb_true_iff. tauto.
Qed.

(** * The classifier adapter *)

Lemma take_chars_length n s :
  char_length (take_chars n s) = Nat.min n (char_length s).
Proof.
  revert n. induction s as [|b s IH]; intros n; simpl.
  - now rewrite Nat.min_0_r.
  - destruct (is_continuation b) eqn:E; simpl; rewrite ?E.
    + apply IH.
    + destruct n as [|n]; [reflexivity|]. simpl. rewrite E, IH. reflexivity.
Qed.

Lemma take_chars_all n s : (char_length s <= n)%nat -> take_chars n s = s.
Proof.
  revert n. induction s as [|b s IH]; intros n H; simpl in *; [reflexivity|].
  destruct (is_continuation b).
  - now rewrite IH.
  - destruct n as [|n]; [lia|]. rewrite IH; [reflexivity | lia].
Qed.

Lemma clip_take text : clip text = take_chars 512 text.
Proof.
  unfold clip. destruct (512 <? char_length text)%nat eqn:E; [reflexivity|].
  apply Nat.ltb_ge in E. symmetry. now apply take_chars_all.
Qed.

Lemma clip_length text : (char_length (clip text) <= 512)%nat.
Proof. rewrite clip_take, take_chars_length. apply Nat.le_min_l. Qed.

Lemma clip_idempotent text : clip (clip text) = clip text.
Proof.
  rewrite (clip_take (clip text)). apply take_chars_all. apply clip_length.
Qed.

(** X17.  The adapter returns one of the four labels; it returns "Error"
    only together with confidence 0, and it does so whenever the pipeline
    raises, returns nothing or returns an empty score list. *)
Theorem sentiment_label_cases (pipeline : string -> option (list PipelineItem))
    (text : string) :
  In (fst (get_bert_sentiment pipeline text)) ["Positive"; "Negative"; "Neutral"; "Error"]
  /\ (fst (get_bert_sentiment pipeline text) = "Error" ->
      snd (get_bert_sentiment pipeline text) = 0)
  /\ (pipeline (clip text) = None
      \/ pipeline (clip text) = Some []
      \/ (exists more, pipeline (clip text) = Some (AllScores [] :: more)) ->
      get_bert_sentiment pipeline text = ("Error", 0)).
Proof.
  unfold get_bert_sentiment.
  destruct (pipeline (clip text)) as [[|first more]|] eqn:E.
  - simpl. split; [tauto|]. split; [reflexivity|]. reflexivity.
  - assert (Hlab : forall label score,
               let r := if label_in label ["POSITIVE"; "4 stars"; "5 stars"; "LABEL_2"]
                        then ("Positive", score)
                        else if label_in label ["NEGATIVE"; "1 star"; "2 stars"; "LABEL_0"]
                             then ("Negative", score) else ("Neutral", score) in
               In (fst r) ["Positive"; "Negative"; "Neutral"; "Error"]
               /\ (fst r = "Error" -> snd r = 0)).
    { intros label score.
      destruct (label_in label ["POSITIVE"; "4 stars"; "5 stars"; "LABEL_2"]);
        [|destruct (label_in label ["NEGATIVE"; "1 star"; "2 stars"; "LABEL_0"])];
        simpl; (split; [tauto | discriminate]). }
    destruct first as [[|x rest]|label score].
    + simpl. split; [tauto|]. split; reflexivity.
    + destruct (max_by snd x rest) as [label score].
      destruct (Hlab label score) as [H1 H2]. split; [exact H1|]. split; [exact H2|].
      intros [H|[H|(m & H)]]; discriminate H.
    + destruct (Hlab label score) as [H1 H2]. split; [exact H1|]. split; [exact H2|].
      intros [H|[H|(m & H)]]; discriminate H.
  - simpl. split; [tauto|]. split; reflexivity.
Qed.

Lemma sentiment_label_cases_witness :
  get_bert_sentiment failing_pipeline "AWS is cheap" = ("Error", 0).
Proof.
  apply (proj2 (proj2 (sentiment_label_cases failing_pipeline "AWS is cheap"))).
  left. reflexivity.
Defined.

(** X18.  The adapter looks at the first 512 characters only: the text and
    its prefix of 512 characters are classified alike, a text of at most 512
    characters is passed on whole, and two pipelines that agree on inputs of
    at most 512 characters give the same answers on every text.  Characters
    are counted, not bytes. *)
Theorem sentiment_of_prefix (f g : string -> option (list PipelineItem))
    (text : string) :
  get_bert_sentiment f text = get_bert_sentiment f (take_chars 512 text)
  /\ ((char_length text <= 512)%nat -> clip text = text)
  /\ (agree_up_to_512 f g -> get_bert_sentiment f text = get_bert_sentiment g text).
Proof.
  split; [|split].
  - unfold get_bert_sentiment. rewrite <- (clip_take text).
    now rewrite clip_idempotent.
  - intros H. rewrite clip_take. now apply take_chars_all.
  - intros H. unfold get_bert_sentiment. now rewrite (H (clip text) (clip_length text)).
Qed.

Lemma short_only_agrees : agree_up_to_512 five_star_pipeline short_only_pipeline.
Proof.
  intros t H. unfold short_only_pipeline.
  apply Nat.ltb_ge in H. now rewrite H.
Qed.

Lemma sentiment_of_prefix_witness :
  agree_up_to_512 five_star_pipeline short_only_pipeline
  /\ char_length long_text = 1400%nat
  /\ five_star_pipeline long_text <> short_only_pipeline long_text
  /\ get_bert_sentiment five_star_pipeline long_text
     = get_bert_sentiment short_only_pipeline long_text
  /\ get_bert_sentiment short_only_pipeline long_text = ("Positive", 7 # 10)
  /\ String.length accented_text = 600%nat
  /\ clip accented_text = accented_text.
Proof.
  split; [exact short_only_agrees|]. split; [reflexivity|].
  split; [discriminate|].
  destruct (sentiment_of_prefix five_star_pipeline short_only_pipeline long_text)
    as (_ & _ & Hagree).
  destruct (sentiment_of_prefix five_star_pipeline short_only_pipeline accented_text)
    as (_ & Hwhole & _).
  split; [apply Hagree; exact short_only_agrees|].
  split; [rewrite <- (Hagree short_only_agrees); reflexivity|].
  split; [reflexivity|]. apply Hwhole. vm_compute. lia.
Defined.

(** X19.  When the pipeline returns the scores of all labels, the reported
    confidence is the largest of them and the reported sentiment is the class
    of a label that carries it. *)
Theorem confidence_is_top_score (pipeline : string -> option (list PipelineItem))
    (text : string) x rest more :
  pipeline (clip text) = Some (AllScores (x :: rest) :: more) ->
  (forall label score,
     In (label, score) (x :: rest) -> score <= snd (get_bert_sentiment pipeline text))
  /\ exists label,
       In (label, snd (get_bert_sentiment pipeline text)) (x :: rest)
       /\ fst (get_bert_sentiment pipeline text)
          = if label_in label ["POSITIVE"; "4 stars"; "5 stars"; "LABEL_2"]
            then "Positive"
            else if label_in label ["NEGATIVE"; "1 star"; "2 stars"; "LABEL_0"]
                 then "Negative" else "Neutral".
Proof.
  intros Hrun. unfold get_bert_sentiment. rewrite Hrun.
  pose proof (max_by_in snd x rest) as Hin.
  pose proof (fun y => max_by_max snd x rest y) as Hmax.
  destruct (max_by snd x rest) as [label score]. simpl in Hmax.
  assert (Hsnd : forall b1 b2 : bool,
             snd (if b1 then ("Positive", score)
                  else if b2 then ("Negative", score) else ("Neutral", score)) = score)
    by (intros [] []; reflexivity).
  assert (Hfst : forall b1 b2 : bool,
             fst (if b1 then ("Positive", score)
                  else if b2 then ("Negative", score) else ("Neutral", score))
             = if b1 then "Positive" else if b2 then "Negative" else "Neutral")
    by (intros [] []; reflexivity).
  rewrite Hsnd, Hfst. split.
  - intros l s Hls. apply (Hmax (l, s) Hls).
  - exists label. split; [exact Hin | reflexivity].
Qed.

Lemma confidence_is_top_score_witness :
  get_bert_sentiment five_star_pipeline "Azure support is great" = ("Positive", 7 # 10)
  /\ forall label score,
       In (label, score) [("1 star", 1 # 10); ("5 stars", 7 # 10); ("3 stars", 2 # 10)] ->
       score <= 7 # 10.
Proof.
  split; [reflexivity|].
  apply (proj1 (confidence_is_top_score five_star_pipeline "Azure support is great"
                  _ _ [] eq_refl)).
Defined.

(** * The opinion store *)

Lemma mem_keys {V : Type} a (m : dict V) : Dict.mem a m = true <-> In a (Dict.keys m).
Proof.
  unfold Dict.mem. destruct (Dict.find a m) eqn:E.
  - split; [intros _|reflexivity].
    apply DictFacts.find_some_in in E. apply (in_map fst) in E. exact E.
  - split; [discriminate|]. intros H. apply DictFacts.find_none_keys in E. contradiction.
Qed.

Lemma mem_same_keys {V W : Type} a (m : dict V) (m' : dict W) :
  Dict.keys m = Dict.keys m' -> Dict.mem a m = Dict.mem a m'.
Proof.
  intros H. apply eq_true_iff_eq. rewrite !mem_keys. now rewrite H.
Qed.

Lemma has_bucket_shape r r' p a :
  shape r' = shape r -> has_bucket r' p a = has_bucket r p a.
Proof.
  unfold has_bucket, shape. revert r'.
  induction r as [|[k m] r IH]; intros [|[k' m'] r'] H; try discriminate; [reflexivity|].
  simpl in H. injection H as Hk Hm Hr. subst k'. simpl.
  destruct (String.eqb p k); [now apply mem_same_keys | now apply IH].
Qed.

Lemma shape_set (r : OpinionStore) p m m' :
  Dict.find p r = Some m -> Dict.keys m' = Dict.keys m ->
  shape (Dict.set p m' r) = shape r.
Proof.
  unfold shape. induction r as [|[k v] r IH]; simpl; [discriminate|].
  destruct (String.eqb p k) eqn:E.
  - intros [= ->] Hk. apply String.eqb_eq in E. subst k. simpl. now rewrite Hk.
  - intros Hf Hk. simpl. now rewrite IH.
Qed.

Lemma keys_set_present {V : Type} k (v : V) d :
  Dict.mem k d = true -> Dict.keys (Dict.set k v d) = Dict.keys d.
Proof. intros H. now rewrite keys_set, H. Qed.

Lemma bucket_set (r : OpinionStore) p m' a' p' :
  bucket (Dict.set p m' r) a' p'
  = if String.eqb p' p
    then match Dict.find a' m' with Some ops => ops | None => [] end
    else bucket r a' p'.
Proof.
  unfold bucket. destruct (String.eqb p' p) eqn:E.
  - apply String.eqb_eq in E. subst p'. now rewrite DictFacts.find_set_same.
  - apply String.eqb_neq in E. rewrite DictFacts.find_set_other by congruence.
    reflexivity.
Qed.

Lemma append_opinion_spec r p a rec :
  has_bucket r p a = true ->
  exists r',
    append_opinion r p a rec = Ok r'
    /\ shape r' = shape r
    /\ forall p' a',
         bucket r' a' p'
         = if String.eqb p' p && String.eqb a' a
           then (bucket r a p ++ [rec])%list
           else bucket r a' p'.
Proof.
  unfold has_bucket. destruct (Dict.find p r) as [m|] eqn:Hm; [|discriminate].
  intros Hmem. pose proof Hmem as Hmem'.
  apply DictFacts.mem_find in Hmem. destruct Hmem as (ops & Hops).
  exists (Dict.set p (Dict.set a (ops ++ [rec])%list m) r).
  split; [|split].
  - unfold append_opinion, Dict.get. rewrite Hm. simpl. rewrite Hops. reflexivity.
  - apply (shape_set r p m); [exact Hm|]. now apply keys_set_present.
  - intros p' a'. rewrite bucket_set.
    destruct (String.eqb p' p) eqn:Ep; simpl; [|reflexivity].
    apply String.eqb_eq in Ep. subst p'.
    destruct (String.eqb a' a) eqn:Ea.
    + apply String.eqb_eq in Ea. subst a'. rewrite DictFacts.find_set_same.
      unfold bucket. now rewrite Hm, Hops.
    + apply String.eqb_neq in Ea. rewrite DictFacts.find_set_other by congruence.
      unfold bucket. now rewrite Hm.
Qed.

Lemma record_sentences_spec pipeline r p a src link sents :
  has_bucket r p a = true ->
  exists r',
    record_sentences pipeline r p a src link sents = Ok r'
    /\ shape r' = shape r
    /\ forall p' a',
         bucket r' a' p'
         = if String.eqb p' p && String.eqb a' a
           then (bucket r a p ++ map (classified pipeline p a src link) sents)%list
           else bucket r a' p'.
Proof.
  revert r. induction sents as [|s sents IH]; intros r Hb.
  - exists r. split; [reflexivity|]. split; [reflexivity|].
    intros p' a'. destruct (String.eqb p' p && String.eqb a' a) eqn:E; [|reflexivity].
    apply andb_true_iff in E. destruct E as [Ep Ea].
    apply String.eqb_eq in Ep. apply String.eqb_eq in Ea. subst. simpl.
    now rewrite app_nil_r.
  - destruct (append_opinion_spec r p a (classified pipeline p a src link s) Hb)
      as (r1 & Hrun1 & Hshape1 & Hbucket1).
    destruct (IH r1) as (r2 & Hrun2 & Hshape2 & Hbucket2).
    { now rewrite (has_bucket_shape r r1 p a Hshape1). }
    exists r2. split; [|split].
    + cbn [record_sentences]. rewrite Hrun1. exact Hrun2.
    + now rewrite Hshape2.
    + intros p' a'. rewrite Hbucket2, !Hbucket1.
      rewrite !String.eqb_refl. simpl.
      destruct (String.eqb p' p && String.eqb a' a); [|reflexivity].
      now rewrite <- app_assoc.
Qed.

Lemma record_sentences_grow pipeline r p a src link sents :
  has_bucket r p a = true ->
  exists r',
    record_sentences pipeline r p a src link sents = Ok r'
    /\ shape r' = shape r
    /\ forall p' a',
         bucket r' a' p'
         = (bucket r a' p'
            ++ if String.eqb p' p && String.eqb a' a
               then map (classified pipeline p a src link) sents else [])%list.
Proof.
  intros Hb.
  destruct (record_sentences_spec pipeline r p a src link sents Hb)
    as (r' & Hrun & Hshape & Hbucket).
  exists r'. split; [exact Hrun|]. split; [exact Hshape|].
  intros p' a'. rewrite Hbucket.
  destruct (String.eqb p' p && String.eqb a' a) eqn:E; [|now rewrite app_nil_r].
  apply andb_true_iff in E. destruct E as [Ep Ea].
  apply String.eqb_eq in Ep. apply String.eqb_eq in Ea. now subst.
Qed.

Lemma scan_areas_spec unicode pipeline tokenize r text p src link
    (items : dict (list string)) :
  NoDup (Dict.keys items) ->
  (forall a, In a (Dict.keys items) -> has_bucket r p a = true) ->
  exists r',
    scan_areas unicode pipeline tokenize r text p src link items = Ok r'
    /\ shape r' = shape r
    /\ forall p' a',
         bucket r' a' p'
         = (bucket r a' p'
            ++ if String.eqb p' p
               then match Dict.find a' items with
                    | Some keywords => found unicode pipeline tokenize text src link p a' keywords
                    | None => []
                    end
               else [])%list.
Proof.
  revert r. induction items as [|[a kws] items IH]; intros r Hnd Hb.
  - exists r. split; [reflexivity|]. split; [reflexivity|].
    intros p' a'. simpl. destruct (String.eqb p' p); now rewrite app_nil_r.
  - inversion Hnd as [|? ? Hnotin Hnd']; subst.
    destruct (record_sentences_grow pipeline r p a src link
                (extract_relevant_sentences unicode tokenize (Some text) p kws)
                (Hb a (or_introl eq_refl)))
      as (r1 & Hrun1 & Hshape1 & Hbucket1).
    destruct (IH r1 Hnd') as (r2 & Hrun2 & Hshape2 & Hbucket2).
    { intros a' Ha'. rewrite (has_bucket_shape r r1 p a' Hshape1). apply Hb. now right. }
    exists r2. split; [|split].
    + cbn [scan_areas]. rewrite Hrun1. exact Hrun2.
    + now rewrite Hshape2.
    + intros p' a'. rewrite Hbucket2, Hbucket1. cbn [Dict.find].
      destruct (String.eqb p' p) eqn:Ep; simpl.
      * apply String.eqb_eq in Ep. subst p'.
        destruct (String.eqb a' a) eqn:Ea.
        -- apply String.eqb_eq in Ea. subst a'.
           apply DictFacts.find_none_keys in Hnotin. rewrite Hnotin.
           now rewrite app_nil_r.
        -- now rewrite app_nil_r.
      * now rewrite !app_nil_r.
Qed.

Lemma scan_providers_spec unicode pipeline tokenize r text src link
    (areas : dict (list string)) provs :
  NoDup provs -> NoDup (Dict.keys areas) ->
  (forall p a, In p provs -> In a (Dict.keys areas) -> has_bucket r p a = true) ->
  exists r',
    scan_providers unicode pipeline tokenize r text src link areas provs = Ok r'
    /\ shape r' = shape r
    /\ forall p a,
         bucket r' a p
         = (bucket r a p
            ++ if in_dec string_dec p provs
               then match Dict.find a areas with
                    | Some keywords => found unicode pipeline tokenize text src link p a keywords
                    | None => []
                    end
               else [])%list.
Proof.
  intros Hnd Hna. revert r Hnd. induction provs as [|q provs IH]; intros r Hnd Hb.
  - exists r. split; [reflexivity|]. split; [reflexivity|].
    intros p a. simpl. now rewrite app_nil_r.
  - inversion Hnd as [|? ? Hnotin Hnd']; subst.
    destruct (scan_areas_spec unicode pipeline tokenize r text q src link areas Hna)
      as (r1 & Hrun1 & Hshape1 & Hbucket1).
    { intros a Ha. apply Hb; [now left | exact Ha]. }
    destruct (IH r1 Hnd') as (r2 & Hrun2 & Hshape2 & Hbucket2).
    { intros p a Hp Ha. rewrite (has_bucket_shape r r1 p a Hshape1).
      apply Hb; [now right | exact Ha]. }
    exists r2. split; [|split].
    + cbn [scan_providers]. unfold Dict.items. rewrite Hrun1. exact Hrun2.
    + now rewrite Hshape2.
    + intros p a. rewrite Hbucket2, Hbucket1.
      destruct (String.eqb p q) eqn:Ep.
      * apply String.eqb_eq in Ep. subst p.
        destruct (in_dec string_dec q provs) as [Hin|_]; [contradiction|].
        destruct (in_dec string_dec q (q :: provs)) as [_|Hn];
          [now rewrite app_nil_r | exfalso; apply Hn; now left].
      * apply String.eqb_neq in Ep. rewrite app_nil_r.
        destruct (in_dec string_dec p provs) as [Hin|Hn];
          destruct (in_dec string_dec p (q :: provs)) as [Hin'|Hn']; try reflexivity.
        -- exfalso. apply Hn'. now right.
        -- destruct Hin' as [->|Hin']; [congruence | contradiction].
Qed.

Lemma providers_nodup : NoDup Analyzer.providers.
Proof. unfold Analyzer.providers. repeat (constructor; simpl); intuition discriminate. Qed.

Lemma key_areas_nodup : NoDup (Dict.keys Analyzer.key_areas).
Proof. simpl. repeat (constructor; simpl); intuition discriminate. Qed.

Lemma first_aspects_shape r r' : shape r' = shape r -> first_aspects r' = first_aspects r.
Proof.
  unfold shape. destruct r as [|[k m] r], r' as [|[k' m'] r']; simpl; try discriminate;
    [reflexivity|].
  now intros [= _ H _].
Qed.

Lemma all_have_shape r r' a : shape r' = shape r -> all_have r' a = all_have r a.
Proof.
  unfold shape, all_have. revert r'.
  induction r as [|[k m] r IH]; intros [|[k' m'] r'] H; try discriminate; [reflexivity|].
  simpl in H. injection H as Hk Hm Hr. simpl.
  rewrite (mem_same_keys a m' m Hm). f_equal. now apply IH.
Qed.

Lemma covers_shape r r' :
  shape r' = shape r -> covers_first_aspects r' = covers_first_aspects r.
Proof.
  intros H. unfold covers_first_aspects. rewrite (first_aspects_shape r r' H).
  induction (first_aspects r) as [|a l IH]; [reflexivity|].
  simpl. now rewrite (all_have_shape r r' a H), IH.
Qed.

Lemma keys_shape r r' : shape r' = shape r -> Dict.keys r' = Dict.keys r.
Proof.
  intros H. apply (f_equal (map fst)) in H. unfold shape in H.
  rewrite !map_map in H. exact H.
Qed.

(** X20.  The extraction loops run to their end on every store that has a
    bucket for each configured provider and aspect, and they leave the keys of
    the store as they were: the same providers with the same aspects, in the
    same order. *)
Theorem analyse_text_keeps_keys (unicode : UnicodeData)
    (pipeline : string -> option (list PipelineItem))
    (tokenize : string -> list string) (r : OpinionStore) (text src link : string) :
  (forall p a,
     In p Analyzer.providers -> In a (Dict.keys Analyzer.key_areas) ->
     has_bucket r p a = true) ->
  exists r',
    analyse_text unicode pipeline tokenize r text src link = Ok r'
    /\ shape r' = shape r
    /\ Dict.keys r' = Dict.keys r
    /\ covers_first_aspects r' = covers_first_aspects r
    /\ forall p a, has_bucket r' p a = has_bucket r p a.
Proof.
  intros Hb.
  destruct (scan_providers_spec unicode pipeline tokenize r text src link Analyzer.key_areas
              Analyzer.providers providers_nodup key_areas_nodup Hb)
    as (r' & Hrun & Hshape & _).
  exists r'. split; [exact Hrun|]. split; [exact Hshape|].
  split; [now apply keys_shape|]. split; [now apply covers_shape|].
  intros p a. now apply has_bucket_shape.
Qed.

(** X21.  One run of the extraction loops only appends: each bucket keeps
    its records and, for a configured provider and aspect, gains one record per
    relevant sentence of the text, in sentence order, each classified by the
    adapter and tagged with the provider, the aspect, the source and the
    link. *)
Theorem analyse_text_appends (unicode : UnicodeData)
    (pipeline : string -> option (list PipelineItem))
    (tokenize : string -> list string) (r : OpinionStore) (text src link : string) :
  (forall p a,
     In p Analyzer.providers -> In a (Dict.keys Analyzer.key_areas) ->
     has_bucket r p a = true) ->
  exists r',
    analyse_text unicode pipeline tokenize r text src link = Ok r'
    /\ (forall p a keywords,
          In p Analyzer.providers -> Dict.find a Analyzer.key_areas = Some keywords ->
          bucket r' a p
          = (bucket r a p
             ++ map (fun sent =>
                       mkOpinion sent
                                 (fst (get_bert_sentiment pipeline sent))
                                 (snd (get_bert_sentiment pipeline sent))
                                 src link p a)
                    (extract_relevant_sentences unicode tokenize (Some text) p keywords))%list)
    /\ (forall p a,
          ~ In p Analyzer.providers \/ Dict.find a Analyzer.key_areas = None ->
          bucket r' a p = bucket r a p).
Proof.
  intros Hb.
  destruct (scan_providers_spec unicode pipeline tokenize r text src link Analyzer.key_areas
              Analyzer.providers providers_nodup key_areas_nodup Hb)
    as (r' & Hrun & _ & Hbucket).
  exists r'. split; [exact Hrun|]. split.
  - intros p a kws Hp Ha. rewrite Hbucket, Ha.
    destruct (in_dec string_dec p Analyzer.providers); [|contradiction].
    unfold found. f_equal. apply map_ext. intros sent. unfold classified.
    now destruct (get_bert_sentiment pipeline sent).
  - intros p a H. rewrite Hbucket.
    destruct (in_dec string_dec p Analyzer.providers) as [Hp|_]; [|apply app_nil_r].
    destruct H as [H|H]; [contradiction|]. rewrite H. apply app_nil_r.
Qed.

(** * The fresh store and the stores reached from it *)

Lemma empty_areas_find areas a :
  Dict.find a (empty_areas areas)
  = if in_dec string_dec a (Dict.keys areas) then Some [] else None.
Proof. unfold empty_areas. now rewrite DictFacts.find_assign_loop. Qed.

Lemma new_results_find provs areas p :
  Dict.find p (new_results provs areas)
  = if in_dec string_dec p provs then Some (empty_areas areas) else None.
Proof. unfold new_results. now rewrite DictFacts.find_assign_loop. Qed.

Lemma new_results_items provs areas p m :
  In (p, m) (new_results provs areas) -> In p provs /\ m = empty_areas areas.
Proof.
  unfold new_results. intros H. apply in_assign_loop in H.
  destruct H as [[]|[Hp ->]]. now split.
Qed.

Lemma fresh_has_bucket provs areas p a :
  In p provs -> In a (Dict.keys areas) ->
  has_bucket (new_results provs areas) p a = true.
Proof.
  intros Hp Ha. unfold has_bucket. rewrite new_results_find.
  destruct (in_dec string_dec p provs); [|contradiction].
  unfold Dict.mem. rewrite empty_areas_find.
  destruct (in_dec string_dec a (Dict.keys areas)); [reflexivity | contradiction].
Qed.

Lemma fresh_bucket_empty provs areas p a : bucket (new_results provs areas) a p = [].
Proof.
  unfold bucket. rewrite new_results_find.
  destruct (in_dec string_dec p provs); [|reflexivity].
  rewrite empty_areas_find. now destruct (in_dec string_dec a (Dict.keys areas)).
Qed.

Lemma fresh_covers provs areas : covers_first_aspects (new_results provs areas) = true.
Proof.
  unfold covers_first_aspects. apply forallb_forall. intros a Ha.
  unfold all_have. apply forallb_forall. intros [p m] Hin. simpl.
  assert (Hfirst : first_aspects (new_results provs areas) = Dict.keys (empty_areas areas)
                   \/ first_aspects (new_results provs areas) = []).
  { destruct (new_results provs areas) as [|[p0 m0] rest] eqn:E; [now right|].
    left. simpl. f_equal.
    apply (new_results_items provs areas p0 m0). rewrite E. now left. }
  apply new_results_items in Hin. destruct Hin as [_ ->].
  destruct Hfirst as [Hf|Hf]; rewrite Hf in Ha; [|contradiction].
  now apply mem_keys.
Qed.

(** X22.  The store the script starts from has distinct providers, gives
    every provider every aspect with an empty bucket, and so can be ranked:
    the ranking is defined and every score in it is the zero score. *)
Theorem fresh_store_ranks_to_zero (provs : list string) (areas : dict (list string)) :
  Dict.wf (new_results provs areas)
  /\ covers_first_aspects (new_results provs areas) = true
  /\ (forall p a,
        In p provs -> In a (Dict.keys areas) ->
        exists by_area,
          Dict.find p (new_results provs areas) = Some by_area
          /\ Dict.find a by_area = Some [])
  /\ exists rankings,
       calculate_provider_rankings (new_results provs areas) = Ok rankings
       /\ forall a data p sc,
            In (a, data) rankings -> In (p, sc) (provider_scores data) ->
            sc = mkScore 0 0 0 0 0.
Proof.
  split; [apply assign_loop_wf; constructor|].
  split; [apply fresh_covers|]. split.
  - intros p a Hp Ha. exists (empty_areas areas). rewrite new_results_find.
    destruct (in_dec string_dec p provs); [|contradiction]. split; [reflexivity|].
    rewrite empty_areas_find.
    destruct (in_dec string_dec a (Dict.keys areas)); [reflexivity | contradiction].
  - exists (rankings_of (new_results provs areas)).
    split; [apply calculate_provider_rankings_ok, fresh_covers|].
    intros a data p sc Hin Hsc. apply rankings_of_items in Hin. subst data.
    simpl in Hsc. unfold scores_of in Hsc. apply in_assign_loop in Hsc.
    destruct Hsc as [[]|[_ ->]]. now rewrite fresh_bucket_empty.
Qed.

Lemma adapter_labels pipeline text :
  In (fst (get_bert_sentiment pipeline text)) ["Positive"; "Negative"; "Neutral"; "Error"]
  /\ (fst (get_bert_sentiment pipeline text) = "Error" ->
      snd (get_bert_sentiment pipeline text) = 0).
Proof.
  unfold get_bert_sentiment.
  destruct (pipeline (clip text)) as [[|first more]|]; try (simpl; split; [tauto|reflexivity]).
  assert (H : forall best : option (string * Q),
             let r := match best with
                      | None => ("Error", 0)
                      | Some (label, score) =>
                          if label_in label ["POSITIVE"; "4 stars"; "5 stars"; "LABEL_2"]
                          then ("Positive", score)
                          else if label_in label ["NEGATIVE"; "1 star"; "2 stars"; "LABEL_0"]
                               then ("Negative", score) else ("Neutral", score)
                      end in
             In (fst r) ["Positive"; "Negative"; "Neutral"; "Error"]
             /\ (fst r = "Error" -> snd r = 0)).
  { intros [[label score]|]; [|simpl; split; [tauto|reflexivity]].
    destruct (label_in label ["POSITIVE"; "4 stars"; "5 stars"; "LABEL_2"]);
      [|destruct (label_in label ["NEGATIVE"; "1 star"; "2 stars"; "LABEL_0"])];
      simpl; (split; [tauto | discriminate]). }
  apply H.
Qed.

Lemma postprocess_of_ranking (title_rest : string -> string) sqrt results rankings :
  calculate_provider_rankings results = Ok rankings ->
  exists post,
    postprocess_sentiment_results title_rest sqrt results = Ok post
    /\ aspect_rankings_of post = rankings.
Proof.
  intros Hr. pose proof Hr as Hinv.
  apply calculate_provider_rankings_inv in Hinv. subst rankings.
  destruct (overall_of_rankings results) as (overall & Ho).
  destruct (matrix_of_rankings results) as (m & Hm).
  eexists. split.
  - unfold postprocess_sentiment_results, generate_comparative_insights.
    rewrite Hr. cbn [bind]. rewrite Ho. cbn [bind].
    rewrite insight_statements_total. cbn [bind]. rewrite Hm. reflexivity.
  - reflexivity.
Qed.

Lemma reachable_shape unicode pipeline tokenize r :
  reachable unicode pipeline tokenize r ->
  shape r = shape (new_results Analyzer.providers Analyzer.key_areas).
Proof.
  induction 1 as [|r r' text src link Hreach IH Hrun]; [reflexivity|].
  destruct (scan_providers_spec unicode pipeline tokenize r text src link Analyzer.key_areas
              Analyzer.providers providers_nodup key_areas_nodup)
    as (r'' & Hrun' & Hshape & _).
  { intros p a Hp Ha. rewrite (has_bucket_shape _ r p a IH).
    now apply fresh_has_bucket. }
  unfold analyse_text in Hrun. rewrite Hrun' in Hrun. injection Hrun as <-.
  now rewrite Hshape.
Qed.

Lemma reachable_has_bucket unicode pipeline tokenize r p a :
  reachable unicode pipeline tokenize r ->
  In p Analyzer.providers -> In a (Dict.keys Analyzer.key_areas) ->
  has_bucket r p a = true.
Proof.
  intros Hreach Hp Ha. rewrite (has_bucket_shape _ r p a (reachable_shape _ _ _ r Hreach)).
  now apply fresh_has_bucket.
Qed.

(** X23.  Every store the script can hold keeps the configured providers as
    its keys, can take the extraction loops for any further text, and is
    accepted by the postprocessing, which returns a result for it. *)
Theorem reachable_store_postprocesses (unicode : UnicodeData)
    (pipeline : string -> option (list PipelineItem))
    (tokenize : string -> list string) (r : OpinionStore) :
  reachable unicode pipeline tokenize r ->
  Dict.keys r = Analyzer.providers
  /\ Dict.wf r
  /\ covers_first_aspects r = true
  /\ (forall text src link,
        exists r', analyse_text unicode pipeline tokenize r text src link = Ok r')
  /\ forall title_rest sqrt,
       exists post,
         postprocess_sentiment_results title_rest sqrt r = Ok post
         /\ Dict.keys (aspect_rankings_of post) = Dict.keys Analyzer.key_areas.
Proof.
  intros Hreach. pose proof (reachable_shape unicode pipeline tokenize r Hreach) as Hshape.
  assert (Hkeys : Dict.keys r = Analyzer.providers)
    by (rewrite (keys_shape _ r Hshape); reflexivity).
  assert (Hwf : Dict.wf r) by (unfold Dict.wf; rewrite Hkeys; apply providers_nodup).
  assert (Hcov : covers_first_aspects r = true)
    by (rewrite (covers_shape _ r Hshape); apply fresh_covers).
  split; [exact Hkeys|]. split; [exact Hwf|]. split; [exact Hcov|]. split.
  - intros text src link.
    destruct (scan_providers_spec unicode pipeline tokenize r text src link Analyzer.key_areas
                Analyzer.providers providers_nodup key_areas_nodup)
      as (r' & Hrun & _).
    + intros p a. now apply (reachable_has_bucket unicode pipeline tokenize).
    + now exists r'.
  - intros title_rest sqrt.
    destruct (postprocess_of_ranking title_rest sqrt r (rankings_of r)
                (calculate_provider_rankings_ok r Hcov)) as (post & Hp & Har).
    exists post. split; [exact Hp|]. rewrite Har.
    assert (Hfa : first_aspects r = Dict.keys Analyzer.key_areas)
      by (rewrite (first_aspects_shape _ r Hshape); reflexivity).
    rewrite rankings_of_map by (rewrite Hfa; apply key_areas_nodup).
    unfold Dict.keys at 1. rewrite map_map. simpl. rewrite map_id. exact Hfa.
Qed.

Lemma analyse_text_keeps_keys_witness :
  exists r',
    analyse_text latin1 five_star_pipeline one_sentence
                 (new_results Analyzer.providers Analyzer.key_areas)
                 "AWS is cheap" "r/Cloud - Post" "https://example.org/p" = Ok r'
    /\ Dict.keys r' = Analyzer.providers.
Proof.
  destruct (analyse_text_keeps_keys latin1 five_star_pipeline one_sentence
              (new_results Analyzer.providers Analyzer.key_areas)
              "AWS is cheap" "r/Cloud - Post" "https://example.org/p"
              (fresh_has_bucket Analyzer.providers Analyzer.key_areas))
    as (r' & Hrun & _ & Hk & _).
  exists r'. split; [exact Hrun|]. rewrite Hk. reflexivity.
Defined.

Lemma analyse_text_appends_witness :
  exists r',
    analyse_text latin1 five_star_pipeline one_sentence
                 (new_results Analyzer.providers Analyzer.key_areas)
                 "AWS is cheap" "r/Cloud - Post" "https://example.org/p" = Ok r'
    /\ bucket r' "cost" "AWS"
       = [mkOpinion "AWS is cheap" "Positive" (7 # 10)
                    "r/Cloud - Post" "https://example.org/p" "AWS" "cost"]
    /\ bucket r' "support" "AWS" = [].
Proof.
  destruct (analyse_text_appends latin1 five_star_pipeline one_sentence
              (new_results Analyzer.providers Analyzer.key_areas)
              "AWS is cheap" "r/Cloud - Post" "https://example.org/p"
              (fresh_has_bucket Analyzer.providers Analyzer.key_areas))
    as (r' & Hrun & Hgrow & _).
  exists r'. split; [exact Hrun|]. split.
  - rewrite (Hgrow "AWS" "cost" _ (or_introl eq_refl) eq_refl). reflexivity.
  - rewrite (Hgrow "AWS" "support" _ (or_introl eq_refl) eq_refl). reflexivity.
Defined.

Lemma store_after_run text :
  analyse_text latin1 five_star_pipeline one_sentence
    (new_results Analyzer.providers Analyzer.key_areas)
    text "r/Cloud - Post" "https://example.org/p"
  = Ok (store_after text).
Proof.
  destruct (scan_providers_spec latin1 five_star_pipeline one_sentence
              (new_results Analyzer.providers Analyzer.key_areas)
              text "r/Cloud - Post" "https://example.org/p"
              Analyzer.key_areas Analyzer.providers providers_nodup key_areas_nodup
              (fresh_has_bucket Analyzer.providers Analyzer.key_areas))
    as (r' & Hrun & _).
  unfold store_after, analyse_text. now rewrite Hrun.
Qed.

Lemma store_after_reachable text :
  reachable latin1 five_star_pipeline one_sentence (store_after text).
Proof.
  exact (reach_text _ _ _ _ (store_after text) text _ _ (reach_fresh _ _ _)
           (store_after_run text)).
Qed.

Lemma reachable_store_postprocesses_witness :
  analyse_text latin1 five_star_pipeline one_sentence
    (new_results Analyzer.providers Analyzer.key_areas)
    "AWS is cheap" "r/Cloud - Post" "https://example.org/p"
  = Ok (store_after "AWS is cheap")
  /\ bucket (store_after "AWS is cheap") "cost" "AWS"
     = [mkOpinion "AWS is cheap" "Positive" (7 # 10)
                  "r/Cloud - Post" "https://example.org/p" "AWS" "cost"]
  /\ reachable latin1 five_star_pipeline one_sentence (store_after "AWS is cheap")
  /\ Dict.keys (store_after "AWS is cheap") = Analyzer.providers
  /\ (exists r',
        analyse_text latin1 five_star_pipeline one_sentence
          (store_after "AWS is cheap") "GCP is slow" "r/Cloud - Comment"
          "https://example.org/c" = Ok r')
  /\ exists post,
       postprocess_sentiment_results (fun s => s) (fun v => v)
         (store_after "AWS is cheap") = Ok post
       /\ Dict.keys (aspect_rankings_of post)
          = ["cost"; "scalability"; "security"; "performance"; "support"].
Proof.
  split; [apply store_after_run|]. split; [reflexivity|].
  split; [apply store_after_reachable|].
  destruct (reachable_store_postprocesses latin1 five_star_pipeline one_sentence _
              (store_after_reachable "AWS is cheap"))
    as (Hkeys & _ & _ & Hnext & Hpost).
  split; [exact Hkeys|]. split; [apply Hnext|].
  destruct (Hpost (fun s => s) (fun v => v)) as (post & Hp & Hk).
  exists post. split; [exact Hp | exact Hk].
Defined.

Lemma extract_relevant_in unicode tokenize text p keywords sent :
  In sent (extract_relevant_sentences unicode tokenize text p keywords) ->
  contains_whole_word unicode p sent = true
  /\ exists kw, In kw keywords /\ contains_whole_word unicode kw sent = true.
Proof.
  rewrite extract_filter, filter_In. intros [_ H]. unfold is_relevant in H.
  apply andb_true_iff in H. destruct H as [Hp Hk]. split; [exact Hp|].
  apply existsb_exists in Hk. exact Hk.
Qed.

(** X24.  In every store the script can hold, a record sits in the bucket
    of the provider and aspect it is tagged with; its sentence mentions that
    provider and a keyword of that aspect as whole words; its label is one of
    the four, and "Error" comes with confidence 0. *)
Theorem reachable_records_tagged (unicode : UnicodeData)
    (pipeline : string -> option (list PipelineItem))
    (tokenize : string -> list string) (r : OpinionStore) :
  reachable unicode pipeline tokenize r ->
  forall p a rec,
    In rec (bucket r a p) ->
    provider rec = p
    /\ aspect rec = a
    /\ contains_whole_word unicode p (sentence rec) = true
    /\ (exists keywords kw,
          Dict.find a Analyzer.key_areas = Some keywords
          /\ In kw keywords /\ contains_whole_word unicode kw (sentence rec) = true)
    /\ In (sentiment rec) ["Positive"; "Negative"; "Neutral"; "Error"]
    /\ (sentiment rec = "Error" -> confidence rec = 0).
Proof.
  induction 1 as [|r r' text src link Hreach IH Hrun]; intros p a rec Hin.
  - rewrite fresh_bucket_empty in Hin. contradiction.
  - destruct (scan_providers_spec unicode pipeline tokenize r text src link Analyzer.key_areas
                Analyzer.providers providers_nodup key_areas_nodup)
      as (r'' & Hrun' & _ & Hbucket).
    { intros q b. now apply (reachable_has_bucket unicode pipeline tokenize). }
    unfold analyse_text in Hrun. rewrite Hrun' in Hrun. injection Hrun as <-.
    rewrite Hbucket in Hin. apply in_app_or in Hin. destruct Hin as [Hin|Hin].
    + now apply IH.
    + destruct (in_dec string_dec p Analyzer.providers) as [Hp|_]; [|contradiction].
      destruct (Dict.find a Analyzer.key_areas) as [kws|] eqn:Ea; [|contradiction].
      unfold found in Hin. apply in_map_iff in Hin. destruct Hin as (sent & <- & Hsent).
      apply extract_relevant_in in Hsent. destruct Hsent as [Hprov (kw & Hkw & Hmatch)].
      destruct (adapter_labels pipeline sent) as [Hlab Herr].
      unfold classified. destruct (get_bert_sentiment pipeline sent) as [label conf].
      simpl in *. split; [reflexivity|]. split; [reflexivity|]. split; [exact Hprov|].
      split; [now exists kws, kw|]. split; [exact Hlab | exact Herr].
Qed.

Lemma reachable_records_tagged_witness :
  exists r',
    reachable latin1 five_star_pipeline one_sentence r'
    /\ bucket r' "cost" "AWS" <> []
    /\ forall rec,
         In rec (bucket r' "cost" "AWS") -> provider rec = "AWS" /\ aspect rec = "cost".
Proof.
  destruct (scan_providers_spec latin1 five_star_pipeline one_sentence
              (new_results Analyzer.providers Analyzer.key_areas)
              "AWS is cheap" "r/Cloud - Post" "https://example.org/p"
              Analyzer.key_areas Analyzer.providers providers_nodup key_areas_nodup
              (fresh_has_bucket Analyzer.providers Analyzer.key_areas))
    as (r' & Hrun & _ & Hbucket).
  assert (Hreach : reachable latin1 five_star_pipeline one_sentence r')
    by (apply (reach_text _ _ _ _ r' _ _ _ (reach_fresh _ _ _) Hrun)).
  exists r'. split; [exact Hreach|]. split.
  - rewrite Hbucket. discriminate.
  - intros rec Hin.
    destruct (reachable_records_tagged latin1 five_star_pipeline one_sentence r' Hreach
                "AWS" "cost" rec Hin) as (H1 & H2 & _).
    now split.
Defined.

(** * The summary export *)

Lemma export_areas_spec r p areas rows :
  (forall a, In a areas -> has_bucket r p a = true) ->
  export_areas r p areas rows = Ok (rows ++ flat_map (bucket_rows r p) areas)%list.
Proof.
  revert rows. induction areas as [|a areas IH]; intros rows Hb; simpl.
  - now rewrite app_nil_r.
  - pose proof (Hb a (or_introl eq_refl)) as Ha. unfold has_bucket in Ha.
    destruct (Dict.find p r) as [m|] eqn:Hm; [|discriminate].
    apply DictFacts.mem_find in Ha. destruct Ha as (ops & Hops).
    unfold Dict.get. rewrite Hm. simpl. rewrite Hops. simpl.
    assert (Hbk : bucket r a p = ops) by (unfold bucket; now rewrite Hm, Hops).
    unfold bucket_rows at 1. rewrite Hbk.
    destruct ops as [|op ops]; simpl.
    + apply IH. intros b Hin. apply Hb. now right.
    + rewrite IH by (intros b Hin; apply Hb; now right).
      now rewrite <- app_assoc.
Qed.

Lemma export_providers_spec r provs areas rows :
  (forall p a, In p provs -> In a areas -> has_bucket r p a = true) ->
  export_providers r provs areas rows
  = Ok (rows ++ flat_map (fun p => flat_map (bucket_rows r p) areas) provs)%list.
Proof.
  revert rows. induction provs as [|p provs IH]; intros rows Hb; simpl.
  - now rewrite app_nil_r.
  - rewrite export_areas_spec by (intros a Ha; apply Hb; [now left | exact Ha]).
    simpl. rewrite IH by (intros q a Hq Ha; apply Hb; [now right | exact Ha]).
    now rewrite <- app_assoc.
Qed.

Lemma bucket_rows_in r p a row :
  In row (bucket_rows r p a)
  <-> bucket r a p <> [] /\ row = export_row p a (bucket r a p).
Proof.
  unfold bucket_rows. destruct (bucket r a p) as [|op ops].
  - split; [contradiction | intros [H _]; congruence].
  - split.
    + intros [<-|[]]. split; [discriminate | reflexivity].
    + intros [_ ->]. now left.
Qed.

Lemma export_rows_length r (provs areas : list string) :
  (List.length (flat_map (fun p => flat_map (bucket_rows r p) areas) provs)
   <= List.length provs * List.length areas)%nat.
Proof.
  assert (Hareas : forall p,
             (List.length (flat_map (bucket_rows r p) areas) <= List.length areas)%nat).
  { intros p. induction areas as [|a areas IH]; [simpl; lia|].
    cbn [flat_map]. rewrite length_app.
    assert (Hrow : (List.length (bucket_rows r p a) <= 1)%nat)
      by (unfold bucket_rows; destruct (bucket r a p); simpl; lia).
    simpl. lia. }
  induction provs as [|p provs IH]; [simpl; lia|].
  cbn [flat_map]. rewrite length_app. specialize (Hareas p). simpl. lia.
Qed.

Lemma filter_flat_map_none {A B : Type} (P : B -> bool) (f : A -> list B) l :
  (forall y, In y l -> filter P (f y) = []) -> filter P (flat_map f l) = [].
Proof.
  induction l as [|y l IH]; intros H; [reflexivity|].
  cbn [flat_map]. rewrite filter_app, (H y (or_introl eq_refl)).
  apply IH. intros z Hz. apply H. now right.
Qed.

Lemma filter_flat_map_one {A B : Type} (P : B -> bool) (f : A -> list B) x l :
  NoDup l -> In x l ->
  (forall y, In y l -> y <> x -> filter P (f y) = []) ->
  filter P (flat_map f l) = filter P (f x).
Proof.
  induction l as [|y l IH]; intros Hnd Hin Hother; [contradiction|].
  inversion Hnd as [|? ? Hnotin Hnd']; subst.
  cbn [flat_map]. rewrite filter_app. destruct Hin as [->|Hin].
  - rewrite filter_flat_map_none; [apply app_nil_r|].
    intros z Hz. apply Hother; [now right|]. intros ->. contradiction.
  - rewrite (Hother y (or_introl eq_refl)) by (intros ->; contradiction).
    apply IH; [exact Hnd' | exact Hin|].
    intros z Hz. apply Hother. now right.
Qed.

Lemma bucket_rows_of r p a q b :
  filter (row_of p a) (bucket_rows r q b)
  = if String.eqb q p && String.eqb b a then bucket_rows r q b else [].
Proof.
  unfold bucket_rows. destruct (bucket r b q) as [|op ops].
  - now destruct (String.eqb q p && String.eqb b a).
  - cbn [filter]. unfold row_of at 1. unfold export_row at 1 2.
    cbn [SummaryExport.Provider SummaryExport.Area].
    now destruct (String.eqb q p && String.eqb b a).
Qed.

(** X25.  On a store with a bucket for each configured provider and aspect
    the summary export is defined; its rows are, provider by provider and
    aspect by aspect, the row of each non-empty bucket: exactly one row is
    about a provider and aspect whose bucket is not empty, and none is about
    one whose bucket is empty. *)
Theorem export_lists_nonempty_buckets (r : OpinionStore) :
  (forall p a,
     In p Analyzer.providers -> In a (Dict.keys Analyzer.key_areas) ->
     has_bucket r p a = true) ->
  exists rows,
    summary_export r = Ok rows
    /\ (List.length rows
        <= List.length Analyzer.providers * List.length Analyzer.key_areas)%nat
    /\ (forall row,
          In row rows
          <-> exists p a,
                In p Analyzer.providers /\ In a (Dict.keys Analyzer.key_areas)
                /\ bucket r a p <> []
                /\ row = export_row p a (bucket r a p))
    /\ rows
       = flat_map (fun p => flat_map (bucket_rows r p) (Dict.keys Analyzer.key_areas))
                  Analyzer.providers
    /\ forall p a,
         In p Analyzer.providers -> In a (Dict.keys Analyzer.key_areas) ->
         (bucket r a p = [] -> filter (row_of p a) rows = [])
         /\ (bucket r a p <> [] ->
             filter (row_of p a) rows = [export_row p a (bucket r a p)]).
Proof.
  intros Hb. eexists. split; [apply (export_providers_spec r _ _ [] Hb)|].
  cbn [app]. split; [|split; [|split; [reflexivity|]]].
  - rewrite <- (length_map fst Analyzer.key_areas). apply export_rows_length.
  - intros row. rewrite in_flat_map. split.
    + intros (p & Hp & Hin). apply in_flat_map in Hin. destruct Hin as (a & Ha & Hin).
      apply bucket_rows_in in Hin. destruct Hin as [Hne ->].
      exists p, a. repeat split; assumption.
    + intros (p & a & Hp & Ha & Hne & ->). exists p. split; [exact Hp|].
      apply in_flat_map. exists a. split; [exact Ha|].
      apply bucket_rows_in. now split.
  - intros p a Hp Ha.
    assert (Hrows : filter (row_of p a)
                      (flat_map
                         (fun q => flat_map (bucket_rows r q) (Dict.keys Analyzer.key_areas))
                         Analyzer.providers)
                    = bucket_rows r p a).
    { rewrite (filter_flat_map_one (row_of p a) _ p _ providers_nodup Hp).
      - rewrite (filter_flat_map_one (row_of p a) _ a _ key_areas_nodup Ha).
        + rewrite bucket_rows_of, !String.eqb_refl. reflexivity.
        + intros b _ Hne. rewrite bucket_rows_of.
          destruct (String.eqb_spec b a) as [E|E]; [contradiction|].
          now rewrite andb_false_r.
      - intros q _ Hne. apply filter_flat_map_none. intros b _.
        rewrite bucket_rows_of.
        destruct (String.eqb_spec q p) as [E|E]; [contradiction | reflexivity]. }
    rewrite Hrows. unfold bucket_rows. split.
    + now intros ->.
    + intros Hne. destruct (bucket r a p); [congruence | reflexivity].
Qed.

Lemma export_lists_nonempty_buckets_witness :
  exists rows,
    summary_export (store_after "AWS is cheap") = Ok rows
    /\ bucket (store_after "AWS is cheap") "cost" "AWS" <> []
    /\ bucket (store_after "AWS is cheap") "cost" "GCP" = []
    /\ filter (row_of "AWS" "cost") rows
       = [export_row "AWS" "cost" (bucket (store_after "AWS is cheap") "cost" "AWS")]
    /\ filter (row_of "GCP" "cost") rows = []
    /\ List.length rows = 1%nat.
Proof.
  destruct (export_lists_nonempty_buckets (store_after "AWS is cheap"))
    as (rows & Hrun & _ & _ & Hrows & Hone).
  { intros p a.
    apply (reachable_has_bucket latin1 five_star_pipeline one_sentence).
    apply store_after_reachable. }
  exists rows. split; [exact Hrun|]. split; [discriminate|]. split; [reflexivity|].
  split; [|split].
  - apply (Hone "AWS" "cost"); [now left | now left | discriminate].
  - apply (Hone "GCP" "cost"); [simpl; tauto | now left | reflexivity].
  - rewrite Hrows. reflexivity.
Defined.

Lemma py_sum_from acc xs : fold_left Qplus xs acc == acc + Qsum xs.
Proof.
  revert acc. induction xs as [|x xs IH]; intros acc; simpl.
  - ring.
  - rewrite IH. fold (Qsum xs). ring.
Qed.

Lemma py_sum_Qsum xs : py_sum xs == Qsum xs.
Proof. unfold py_sum. rewrite py_sum_from. ring. Qed.

Lemma labelled_three opinions :
  (labelled "Positive" opinions + labelled "Negative" opinions
   + labelled "Neutral" opinions <= List.length opinions)%nat.
Proof.
  unfold labelled. induction opinions as [|op rest IH]; simpl; [lia|].
  destruct (String.eqb (sentiment op) "Positive") eqn:EP;
    destruct (String.eqb (sentiment op) "Negative") eqn:EN;
    destruct (String.eqb (sentiment op) "Neutral") eqn:EU; simpl; try lia;
    repeat match goal with
           | H : String.eqb _ _ = true |- _ => apply String.eqb_eq in H
           end; congruence.
Qed.

Lemma labelled_partition opinions :
  (forall rec, In rec opinions ->
     In (sentiment rec) ["Positive"; "Negative"; "Neutral"; "Error"]) ->
  (labelled "Positive" opinions + labelled "Negative" opinions
   + labelled "Neutral" opinions + labelled "Error" opinions
   = List.length opinions)%nat.
Proof.
  unfold labelled. induction opinions as [|op rest IH]; intros H; [reflexivity|].
  specialize (IH (fun rec Hin => H rec (or_intror Hin))).
  pose proof (H op (or_introl eq_refl)) as Hop. simpl in Hop |- *.
  destruct Hop as [E|[E|[E|[E|[]]]]]; rewrite <- E; simpl; lia.
Qed.

Lemma export_row_score p a op rest :
  let ops := op :: rest in
  let row := export_row p a ops in
  SummaryExport.Provider row = p
  /\ SummaryExport.Area row = a
  /\ SummaryExport.Total row = total_opinions (score_of ops)
  /\ SummaryExport.Positive row = labelled "Positive" ops
  /\ SummaryExport.Negative row = labelled "Negative" ops
  /\ SummaryExport.Neutral row = labelled "Neutral" ops
  /\ SummaryExport.Pos_Pct row == 100 * positive_ratio (score_of ops)
  /\ SummaryExport.Neg_Pct row == 100 * negative_ratio (score_of ops)
  /\ SummaryExport.Avg_Confidence row == avg_confidence (score_of ops)
  /\ SummaryExport.Pos_Pct row + SummaryExport.Neg_Pct row + SummaryExport.Neu_Pct row
     <= 100.
Proof.
  intros ops row. subst row ops. unfold export_row, score_of.
  rewrite bucket_score_nonempty, !count_sentiment_labelled.
  change (0 <? List.length (op :: rest))%nat with true.
  set (ops := op :: rest).
  cbn [SummaryExport.Provider SummaryExport.Area SummaryExport.Total
       SummaryExport.Positive SummaryExport.Negative SummaryExport.Neutral
       SummaryExport.Pos_Pct SummaryExport.Neg_Pct SummaryExport.Neu_Pct
       SummaryExport.Avg_Confidence
       total_opinions positive_ratio negative_ratio avg_confidence].
  assert (Hlen : (0 < List.length ops)%nat) by (simpl; lia).
  pose proof (of_nat_pos _ Hlen) as Hpos.
  assert (Hn : ~ of_nat (List.length ops) == 0)
    by (intros H0; rewrite H0 in Hpos; discriminate Hpos).
  repeat (split; [reflexivity|]).
  split; [ring|]. split; [ring|]. split; [now rewrite py_sum_Qsum|].
  assert (E : of_nat (labelled "Positive" ops) / of_nat (List.length ops) * 100
              + of_nat (labelled "Negative" ops) / of_nat (List.length ops) * 100
              + of_nat (labelled "Neutral" ops) / of_nat (List.length ops) * 100
              == 100 * (of_nat (labelled "Positive" ops + labelled "Negative" ops
                                + labelled "Neutral" ops)
                        / of_nat (List.length ops))).
  { rewrite !of_nat_plus. field. exact Hn. }
  rewrite E.
  destruct (ratio_bounds _ _ Hlen (labelled_three ops)) as [_ H1]. lra.
Qed.

Lemma reachable_labels unicode pipeline tokenize r :
  reachable unicode pipeline tokenize r ->
  forall p a rec,
    In rec (bucket r a p) ->
    In (sentiment rec) ["Positive"; "Negative"; "Neutral"; "Error"].
Proof.
  induction 1 as [|r r' text src link Hreach IH Hrun]; intros p a rec Hin.
  - rewrite fresh_bucket_empty in Hin. contradiction.
  - destruct (scan_providers_spec unicode pipeline tokenize r text src link Analyzer.key_areas
                Analyzer.providers providers_nodup key_areas_nodup)
      as (r'' & Hrun' & _ & Hbucket).
    { intros q b. now apply (reachable_has_bucket unicode pipeline tokenize). }
    unfold analyse_text in Hrun. rewrite Hrun' in Hrun. injection Hrun as <-.
    rewrite Hbucket in Hin. apply in_app_or in Hin. destruct Hin as [Hin|Hin].
    + now apply (IH p a).
    + destruct (in_dec string_dec p Analyzer.providers) as [Hp|_]; [|contradiction].
      destruct (Dict.find a Analyzer.key_areas) as [kws|]; [|contradiction].
      unfold found in Hin. apply in_map_iff in Hin. destruct Hin as (sent & <- & _).
      destruct (adapter_labels pipeline sent) as [Hlab _].
      unfold classified. now destruct (get_bert_sentiment pipeline sent).
Qed.

(** X26.  For every store the script can hold, the summary export and the
    aspect ranking are both defined and agree: each exported row is about a
    bucket the ranking scored, with the same total and with percentages that
    are 100 times the ranking's ratios; and the positive, negative, neutral
    and error records make up the total. *)
Theorem export_agrees_with_ranking (unicode : UnicodeData)
    (pipeline : string -> option (list PipelineItem))
    (tokenize : string -> list string) (r : OpinionStore) :
  reachable unicode pipeline tokenize r ->
  exists rows rankings,
    summary_export r = Ok rows
    /\ calculate_provider_rankings r = Ok rankings
    /\ forall row,
         In row rows ->
         exists data sc,
           Dict.find (SummaryExport.Area row) rankings = Some data
           /\ Dict.find (SummaryExport.Provider row) (provider_scores data) = Some sc
           /\ SummaryExport.Total row = total_opinions sc
           /\ SummaryExport.Pos_Pct row == 100 * positive_ratio sc
           /\ SummaryExport.Neg_Pct row == 100 * negative_ratio sc
           /\ (SummaryExport.Positive row + SummaryExport.Negative row
               + SummaryExport.Neutral row
               + labelled "Error"
                   (bucket r (SummaryExport.Area row) (SummaryExport.Provider row))
               = SummaryExport.Total row)%nat.
Proof.
  intros Hreach. pose proof (reachable_shape unicode pipeline tokenize r Hreach) as Hshape.
  assert (Hwf : Dict.wf r).
  { unfold Dict.wf. rewrite (keys_shape _ r Hshape).
    apply assign_loop_wf. constructor. }
  assert (Hcov : covers_first_aspects r = true)
    by (rewrite (covers_shape _ r Hshape); apply fresh_covers).
  assert (Hfa : first_aspects r = Dict.keys Analyzer.key_areas)
    by (rewrite (first_aspects_shape _ r Hshape); reflexivity).
  pose proof (reachable_has_bucket unicode pipeline tokenize r) as Hb.
  exists (flat_map (fun p => flat_map (bucket_rows r p) (Dict.keys Analyzer.key_areas))
                   Analyzer.providers), (rankings_of r).
  split; [apply (export_providers_spec r _ _ [] (fun p a => Hb p a Hreach))|].
  split; [now apply calculate_provider_rankings_ok|].
  intros row Hin. apply in_flat_map in Hin. destruct Hin as (p & Hp & Hin).
  apply in_flat_map in Hin. destruct Hin as (a & Ha & Hin).
  apply bucket_rows_in in Hin. destruct Hin as [Hne ->].
  pose proof (Hb p a Hreach Hp Ha) as Hpa. unfold has_bucket in Hpa.
  destruct (Dict.find p r) as [m|] eqn:Hm; [|discriminate].
  apply DictFacts.mem_find in Hpa. destruct Hpa as (ops & Hops).
  assert (Hbk : bucket r a p = ops) by (unfold bucket; now rewrite Hm, Hops).
  rewrite Hbk in *.
  destruct (rankings_lookup r p m a ops Hwf (DictFacts.find_some_in _ _ _ Hm))
    as (data & Hd & Hsc); [now rewrite Hfa | exact Hops |].
  destruct ops as [|op rest]; [congruence|].
  destruct (export_row_score p a op rest)
    as (E1 & E2 & E3 & E4 & E5 & E6 & E7 & E8 & _).
  exists data, (score_of (op :: rest)).
  rewrite E1, E2, E4, E5, E6. rewrite Hbk.
  split; [exact Hd|]. split; [exact Hsc|]. split; [exact E3|].
  split; [exact E7|]. split; [exact E8|].
  rewrite E3. unfold score_of. rewrite bucket_score_nonempty. cbn [total_opinions].
  apply labelled_partition. intros rec Hrec.
  apply (reachable_labels unicode pipeline tokenize r Hreach p a). now rewrite Hbk.
Qed.

Lemma export_agrees_with_ranking_witness :
  reachable latin1 five_star_pipeline one_sentence (store_after "AWS is cheap")
  /\ exists row rankings,
       summary_export (store_after "AWS is cheap") = Ok [row]
       /\ calculate_provider_rankings (store_after "AWS is cheap") = Ok rankings
       /\ SummaryExport.Provider row = "AWS"
       /\ SummaryExport.Area row = "cost"
       /\ SummaryExport.Total row = 1%nat
       /\ SummaryExport.Pos_Pct row == 100
       /\ exists data sc,
            Dict.find "cost" rankings = Some data
            /\ Dict.find "AWS" (provider_scores data) = Some sc
            /\ total_opinions sc = 1%nat
            /\ SummaryExport.Pos_Pct row == 100 * positive_ratio sc.
Proof.
  split; [apply store_after_reachable|].
  destruct (export_agrees_with_ranking latin1 five_star_pipeline one_sentence
              (store_after "AWS is cheap") (store_after_reachable "AWS is cheap"))
    as (rows & rankings & He & Hr & Hrows).
  assert (Hrow : rows = [export_row "AWS" "cost"
                           (bucket (store_after "AWS is cheap") "cost" "AWS")]).
  { assert (E : Ok rows
                = Ok [export_row "AWS" "cost"
                        (bucket (store_after "AWS is cheap") "cost" "AWS")])
      by (rewrite <- He; reflexivity).
    now injection E. }
  subst rows. eexists. exists rankings.
  split; [exact He|]. split; [exact Hr|].
  split; [reflexivity|]. split; [reflexivity|]. split; [reflexivity|].
  split; [reflexivity|].
  destruct (Hrows _ (or_introl eq_refl)) as (data & sc & Hd & Hs & Ht & Hp & _).
  exists data, sc. split; [exact Hd|]. split; [exact Hs|].
  split; [symmetry; exact Ht | exact Hp].
Defined.
